(** * Price-comparison pipeline: scraping normalizers, link resolver,
      extraction cascade, fetch strategy, site searches, aggregation,
      search cache and result files.

    Shallow embedding of [scraper.py], [server_scraper.py] and
    [shopping_api.py].  Python [str] values are lists of Unicode code
    points, Python [float] values are IEEE-754 binary64 numbers
    ([spec_float] at precision 53), dictionaries with a fixed iteration
    order are association lists and the search cache is a finite map. *)

From stdpp Require Import gmap list.
From Stdlib Require Import ZArith NArith List Bool Lia String Ascii.
From Stdlib Require Import Floats.SpecFloat.
From Stdlib Require Import Sorting.Sorted Sorting.Permutation.
Import ListNotations.

Local Open Scope Z_scope.

(** ** Python strings *)

Module PyStr.

(** A [str] is the sequence of its code points. *)
Definition str := list N.

(** Code points of an ASCII literal. *)
Definition of_ascii (s : string) : str :=
  List.map N_of_ascii (list_ascii_of_string s).

(** [a == b] *)
Fixpoint str_eqb (a b : str) : bool :=
  match a, b with
  | [], [] => true
  | x :: a', y :: b' => (x =? y)%N && str_eqb a' b'
  | _, _ => false
  end.

(** [str.isspace] on one character; the regular-expression class [\s]
    on [str] patterns accepts the same characters. *)
Definition is_space (c : N) : bool :=
  ((9 <=? c) && (c <=? 13) || (28 <=? c) && (c <=? 32)
   || (c =? 133) || (c =? 160) || (c =? 5760)
   || (8192 <=? c) && (c <=? 8202)
   || (c =? 8232) || (c =? 8233) || (c =? 8239) || (c =? 8287)
   || (c =? 12288))%N.

(** First code point of every block of ten decimal digits (general
    category Nd, Unicode 14): the characters accepted by [\d] and
    converted by [float]. *)
Definition decimal_digit_blocks : list N :=
  [48; 1632; 1776; 1984; 2406; 2534; 2662; 2790; 2918; 3046; 3174; 3302;
   3430; 3558; 3664; 3792; 3872; 4160; 4240; 6112; 6160; 6470; 6608; 6784;
   6800; 6992; 7088; 7232; 7248; 42528; 43216; 43264; 43472; 43504; 43600;
   44016; 65296; 66720; 68912; 69734; 69872; 69942; 70096; 70384; 70736;
   70864; 71248; 71360; 71472; 71904; 72016; 72784; 73040; 73120; 92768;
   92864; 93008; 120782; 120792; 120802; 120812; 120822; 123200; 123632;
   125264; 130032]%N.

Fixpoint digit_in (blocks : list N) (c : N) : option N :=
  match blocks with
  | [] => None
  | b :: rest =>
      if ((b <=? c) && (c <? b + 10))%N then Some (c - b)%N
      else digit_in rest c
  end.

(** Decimal value of a digit character, [None] for any other one. *)
Definition digit_value (c : N) : option N := digit_in decimal_digit_blocks c.

Definition is_digit (c : N) : bool :=
  match digit_value c with Some _ => true | None => false end.

Definition comma : N := 44%N.
Definition period : N := 46%N.

Fixpoint lstrip (s : str) : str :=
  match s with
  | c :: rest => if is_space c then lstrip rest else s
  | [] => []
  end.

Definition rstrip (s : str) : str := List.rev (lstrip (List.rev s)).

(** [s.strip()] *)
Definition strip (s : str) : str := lstrip (rstrip s).

(** [s.rfind(c)] for a one-character [c], scanning from index [i]. *)
Fixpoint rfind_from (i : Z) (c : N) (s : str) : Z :=
  match s with
  | [] => -1
  | x :: rest =>
      let j := rfind_from (i + 1) c rest in
      if 0 <=? j then j else if (x =? c)%N then i else -1
  end.

Definition rfind (c : N) (s : str) : Z := rfind_from 0 c s.

(** [s.replace(c, '')] and [s.replace(c, d)] for one-character [c], [d]. *)
Definition remove_char (c : N) (s : str) : str :=
  List.filter (fun x => negb (x =? c)%N) s.

Definition replace_char (c d : N) (s : str) : str :=
  List.map (fun x => if (x =? c)%N then d else x) s.

(** [s.startswith(p)] *)
Fixpoint startswith (p s : str) : bool :=
  match p, s with
  | [], _ => true
  | _ :: _, [] => false
  | a :: p', b :: s' => (a =? b)%N && startswith p' s'
  end.

(** [p in s] *)
Fixpoint contains (p s : str) : bool :=
  startswith p s ||
  match s with
  | [] => false
  | _ :: s' => contains p s'
  end.

End PyStr.
Import PyStr.

(** ** Python floats *)

Module PyFloat.

Definition float := spec_float.
Definition prec : Z := 53.
Definition emax : Z := 1024.

(** [float('inf')] *)
Definition inf : float := S754_infinity false.

Definition is_nan (x : float) : bool :=
  match x with S754_nan => true | _ => false end.

(** [x < y], [x > y], [x != y] *)
Definition flt (x y : float) : bool := SFltb x y.
Definition fgt (x y : float) : bool := SFltb y x.
Definition fne (x y : float) : bool := negb (SFeqb x y).

(** [x - y], [x * y] *)
Definition fsub (x y : float) : float := SFsub prec emax x y.
Definition fmul (x y : float) : float := SFmul prec emax x y.

(** [x / y]: Python raises [ZeroDivisionError] on a zero divisor. *)
Definition fdiv (x y : float) : option float :=
  match y with
  | S754_zero _ => None
  | _ => Some (SFdiv prec emax x y)
  end.

(** Truth value of a float in a condition: false exactly for zeros. *)
Definition truthy (x : float) : bool :=
  match x with S754_zero _ => false | _ => true end.

(** The binary64 number nearest to [n / 10^k] (ties to even): the value of
    a decimal literal with digits [n] and [k] digits after the point. *)
Definition of_decimal (n : N) (k : N) : float :=
  match n with
  | N0 => S754_zero false
  | Npos p =>
      SFdiv prec emax (S754_finite false p 0)
                      (S754_finite false (Z.to_pos (10 ^ Z.of_N k)) 0)
  end.

(** Value of a run of decimal digits, [None] when another character
    occurs. *)
Fixpoint digits_value (acc : N) (s : str) : option N :=
  match s with
  | [] => Some acc
  | c :: rest =>
      match digit_value c with
      | Some d => digits_value (acc * 10 + d)%N rest
      | None => None
      end
  end.

(** The text before the first period and, when there is one, the text
    after it. *)
Fixpoint split_period (s : str) : str * option str :=
  match s with
  | [] => ([], None)
  | c :: rest =>
      if (c =? period)%N then ([], Some rest)
      else let '(a, b) := split_period rest in (c :: a, b)
  end.

(** [float(s)] for a text [s] made of decimal digits and periods, the only
    texts the scrapers pass to it: digits with at most one period and at
    least one digit are read as a decimal number and rounded to the
    nearest binary64; anything else raises [ValueError], modelled by
    [None]. *)
Definition float_of_str (s : str) : option float :=
  match split_period s with
  | (ip, None) =>
      match ip with
      | [] => None
      | _ => option_map (fun n => of_decimal n 0) (digits_value 0 ip)
      end
  | (ip, Some fp) =>
      match ip ++ fp with
      | [] => None
      | ds => option_map (fun n => of_decimal n (N.of_nat (List.length fp)))
                         (digits_value 0 ds)
      end
  end.

(** The builtin [min(best :: l, key=key)]: the running minimum is
    replaced only by a strictly lower key, so the first of several lowest
    elements is kept. *)
Fixpoint min_from {A : Type} (key : A -> float) (best : A) (l : list A) : A :=
  match l with
  | [] => best
  | x :: rest =>
      if flt (key x) (key best) then min_from key x rest
      else min_from key best rest
  end.

(** Decimal digits of a natural number. *)
Fixpoint uint_digits (u : Decimal.uint) : str :=
  match u with
  | Decimal.Nil => []
  | Decimal.D0 r => 48%N :: uint_digits r
  | Decimal.D1 r => 49%N :: uint_digits r
  | Decimal.D2 r => 50%N :: uint_digits r
  | Decimal.D3 r => 51%N :: uint_digits r
  | Decimal.D4 r => 52%N :: uint_digits r
  | Decimal.D5 r => 53%N :: uint_digits r
  | Decimal.D6 r => 54%N :: uint_digits r
  | Decimal.D7 r => 55%N :: uint_digits r
  | Decimal.D8 r => 56%N :: uint_digits r
  | Decimal.D9 r => 57%N :: uint_digits r
  end.

Definition nat_digits (n : Z) : str := uint_digits (N.to_uint (Z.to_N n)).

(** [a / b] rounded to the nearest integer, ties to even ([0 <= a], [0 < b]). *)
Definition div_half_even (a b : Z) : Z :=
  let q := a / b in
  match 2 * (a mod b) ?= b with
  | Lt => q
  | Gt => q + 1
  | Eq => if Z.even q then q else q + 1
  end.

(** [format(x, '.df')] for [d >= 1]: the exact value rounded to [d]
    decimals. *)
Definition format_fixed (d : nat) (x : float) : str :=
  let sign (s : bool) : str := if s then [45%N] else [] in
  let render (s : bool) (n : Z) : str :=
    let p := 10 ^ Z.of_nat d in
    let frac := nat_digits (n mod p) in
    sign s ++ nat_digits (n / p) ++ [period]
      ++ List.repeat 48%N (d - List.length frac) ++ frac in
  match x with
  | S754_nan => of_ascii "nan"
  | S754_infinity s => sign s ++ of_ascii "inf"
  | S754_zero s => sign s ++ 48%N :: period :: List.repeat 48%N d
  | S754_finite s m e =>
      let scaled := Zpos m * 10 ^ Z.of_nat d in
      render s (if 0 <=? e then scaled * 2 ^ e
                else div_half_even scaled (2 ^ (- e)))
  end.

End PyFloat.
Import PyFloat.

(** ** Exceptions *)

Module Py.

(** The exception classes the handlers of the program tell apart;
    [Timeout] is a [RequestException], [OtherError] stands for every other
    subclass of [Exception]. *)
Inductive exn :=
  | ValueError | IndexError | ZeroDivisionError | RuntimeError
  | Timeout | RequestException | OtherError.

(** Outcome of a computation that can raise. *)
Inductive py (A : Type) : Type :=
  | Ret (a : A)
  | Raise (e : exn).
Arguments Ret {A} a.
Arguments Raise {A} e.

Definition bind {A B : Type} (m : py A) (k : A -> py B) : py B :=
  match m with
  | Ret a => k a
  | Raise e => Raise e
  end.

(** [try: body / except Exception as e: handler e] *)
Definition try_except {A : Type} (body : py A) (handler : exn -> py A) : py A :=
  match body with
  | Ret a => Ret a
  | Raise e => handler e
  end.

End Py.
Import Py.

Notation "'let*' x ':=' m 'in' k" := (bind m (fun x => k))
  (at level 10, x pattern, m at level 100, k at level 200).

(** ** Scraped products: the dictionaries with keys nome, preco, link, site
    and, once a best deal is chosen, cart_link *)

Record product := {
  nome : str;
  preco : float;
  link : option str;
  site : str;
  cart_link : option (option str) (* [None]: the key is absent *)
}.

(** Dictionaries with [str] keys as association lists in insertion order. *)
Module Dict.

Definition dict (V : Type) := list (str * V).

Fixpoint get {V : Type} (k : str) (d : dict V) : option V :=
  match d with
  | [] => None
  | (k', v) :: rest => if str_eqb k k' then Some v else get k rest
  end.

(** [d[k] = v]: an existing key keeps its place. *)
Fixpoint set {V : Type} (k : str) (v : V) (d : dict V) : dict V :=
  match d with
  | [] => [(k, v)]
  | (k', v') :: rest =>
      if str_eqb k k' then (k, v) :: rest else (k', v') :: set k v rest
  end.

End Dict.

(** ** scraper.py: [ProductScraper] *)

Module ProductScraper.

(** All branches of [get_cart_link] return the product link. *)
Definition get_cart_link (product_url : option str) (site : str) : option str :=
  match product_url with
  | None | Some [] => None
  | Some u => Some u
  end.

Definition digit_or_comma (c : N) : bool := is_digit c || (c =? comma)%N.

(** [price_str] is [None] for Python's [None]. *)
Definition format_price (price_str : option str) : option float :=
  match price_str with
  | None | Some [] => None
  | Some s =>
      (* every character matching [^\d,] is deleted *)
      let s := List.filter digit_or_comma s in
      let s := replace_char comma period s in
      (* float(price_str), ValueError gives None *)
      float_of_str s
  end.

(** *** The site searches *)

(** What the code reads of a matched element: its text and its
    attributes. *)
Record WebElement := {
  text : py str;
  get_attribute : str -> py (option str)
}.

(** A product card: what [find_element] and [find_elements] find in it
    for a selector.  [find_element] raises when nothing matches, so that
    the element it returns is never false in a condition. *)
Record Card := {
  find_element : str -> py WebElement;
  find_elements : str -> py (list WebElement)
}.

(** The browser behind the driver: [start k] is the creation of the
    driver when [k] creations were tried before, [load url selector] is
    [driver.get(url)], the wait for [selector] and
    [driver.find_elements] for it, [quit] is [driver.quit()]. *)
Record Browser := {
  start : nat -> py unit;
  load : str -> str -> py (list Card);
  quit : py unit
}.

(** Whether [self.driver] is set, and how many times its creation was
    tried. *)
Record scraper := { driver : bool; started : nat }.

(** [ProductScraper()] *)
Definition new_scraper : scraper := {| driver := false; started := 0 |}.

Section Selenium.

(** [urllib.parse.quote], called outside the [try] blocks of the
    searches. *)
Variable quote : str -> py str.
Variable browser : Browser.

Definition setup_selenium (self : scraper) : py unit * scraper :=
  if driver self then (Ret tt, self)
  else
    match start browser (started self) with
    | Ret _ => (Ret tt, {| driver := true; started := S (started self) |})
    | Raise e => (Raise e, {| driver := false; started := S (started self) |})
    end.

Definition close_driver (self : scraper) : py unit * scraper :=
  if driver self then
    match quit browser with
    | Ret _ => (Ret tt, {| driver := false; started := started self |})
    | Raise e => (Raise e, self)
    end
  else (Ret tt, self).

(** [if price: results.append(...)] *)
Definition offer (name : str) (price : option float) (link : option str)
    (site : str) : option product :=
  match price with
  | Some p =>
      if truthy p then
        Some {| nome := name; preco := p; link := link; site := site;
                cart_link := None |}
      else None
  | None => None
  end.

(** Body of the inner [try] of [search_google_shopping] for one card. *)
Definition google_card (element : Card) : py (option product) :=
  let* name_element := find_element element (of_ascii "h3.tAxDx") in
  let* name := text name_element in
  let* price_element := find_element element (of_ascii "span.a8Pemb") in
  let* price_text := text price_element in
  let price := format_price (Some price_text) in
  let* link_element := find_element element (of_ascii "a.shntl") in
  let* link := get_attribute link_element (of_ascii "href") in
  Ret (offer name price link (of_ascii "Google Shopping")).

(** Body of the inner [try] of [search_mercado_livre] for one card. *)
Definition mercado_livre_card (element : Card) : py (option product) :=
  let* name_element := find_element element (of_ascii "h2.ui-search-item__title") in
  let* name := text name_element in
  let* price_element :=
    find_element element (of_ascii "span.andes-money-amount__fraction") in
  let* price_text := text price_element in
  let* cents_element :=
    find_elements element (of_ascii "span.andes-money-amount__cents") in
  let* price_text :=
    match cents_element with
    | first :: _ =>
        let* cents := text first in
        Ret (price_text ++ comma :: cents)
    | [] => Ret price_text
    end in
  let price := format_price (Some price_text) in
  let* link_element := find_element element (of_ascii "a.ui-search-link") in
  let* link := get_attribute link_element (of_ascii "href") in
  Ret (offer name price link (of_ascii "Mercado Livre")).

(** Body of the inner [try] of [search_kabum] for one card. *)
Definition kabum_card (element : Card) : py (option product) :=
  let* name_element := find_element element (of_ascii "span.nameCard") in
  let* name := text name_element in
  let* price_element := find_element element (of_ascii "span.priceCard") in
  let* price_text := text price_element in
  let price := format_price (Some price_text) in
  let* link_element := find_element element (of_ascii "a.productLink") in
  let* link := get_attribute link_element (of_ascii "href") in
  Ret (offer name price link (of_ascii "Kabum")).

(** [for element in ...: try: ... except Exception: continue] *)
Fixpoint collect (card : Card -> py (option product)) (elements : list Card)
    (results : list product) : list product :=
  match elements with
  | [] => results
  | element :: rest =>
      match card element with
      | Ret (Some p) => collect card rest (results ++ [p])
      | Ret None | Raise _ => collect card rest results
      end
  end.

(** The outer [try] of a search: any exception is logged and the results
    gathered so far, none, are returned. *)
Definition search_page (self : scraper) (url selector : str)
    (card : Card -> py (option product)) : list product * scraper :=
  match setup_selenium self with
  | (Raise _, self) => ([], self)
  | (Ret _, self) =>
      match load browser url selector with
      | Raise _ => ([], self)
      | Ret product_elements => (collect card (firstn 5 product_elements) [], self)
      end
  end.

Definition search_google_shopping (self : scraper) (query : str)
  : py (list product) * scraper :=
  match quote query with
  | Raise e => (Raise e, self)
  | Ret encoded_query =>
      let url := of_ascii "https://www.google.com/search?q=" ++ encoded_query
                   ++ of_ascii "&tbm=shop" in
      let '(results, self) :=
        search_page self url (of_ascii "div.sh-dgr__content") google_card in
      (Ret results, self)
  end.

Definition search_mercado_livre (self : scraper) (query : str)
  : py (list product) * scraper :=
  match quote query with
  | Raise e => (Raise e, self)
  | Ret encoded_query =>
      let url := of_ascii "https://lista.mercadolivre.com.br/" ++ encoded_query in
      let '(results, self) :=
        search_page self url (of_ascii "li.ui-search-layout__item")
                    mercado_livre_card in
      (Ret results, self)
  end.

Definition search_kabum (self : scraper) (query : str)
  : py (list product) * scraper :=
  match quote query with
  | Raise e => (Raise e, self)
  | Ret encoded_query =>
      let url := of_ascii "https://www.kabum.com.br/busca/" ++ encoded_query in
      let '(results, self) :=
        search_page self url (of_ascii "div.productCard") kabum_card in
      (Ret results, self)
  end.

(** The [try] block of [search_all_sites]. *)
Definition search_sites (self : scraper) (query : str)
  : py (list product) * scraper :=
  match search_google_shopping self query with
  | (Raise e, self) => (Raise e, self)
  | (Ret google_results, self) =>
      match search_mercado_livre self query with
      | (Raise e, self) => (Raise e, self)
      | (Ret ml_results, self) =>
          match search_kabum self query with
          | (Raise e, self) => (Raise e, self)
          | (Ret kabum_results, self) =>
              (Ret ((google_results ++ ml_results) ++ kabum_results), self)
          end
      end
  end.

(** An exception of the searches gives the empty list; the driver is
    closed in every case, and an exception of its closing is the one the
    caller sees. *)
Definition search_all_sites (self : scraper) (query : str)
  : py (list product) * scraper :=
  let '(r, self) := search_sites self query in
  let r := try_except r (fun _ => Ret []) in
  match close_driver self with
  | (Raise e, self) => (Raise e, self)
  | (Ret _, self) => (r, self)
  end.

End Selenium.

End ProductScraper.

(** ** server_scraper.py: [ServerScraper._format_price] *)

Module PriceNormalizer.

Definition is_currency (c : N) : bool :=
  ((c =? 36) || (c =? 8364) || (c =? 163))%N.

(** Removal of every match of the pattern [(R\$|\$|€|£)\s*]: [skip] holds
    while the white space that follows a removed symbol is being
    consumed. *)
Fixpoint remove_currency_aux (skip : bool) (s : str) : str :=
  match s with
  | [] => []
  | c :: rest =>
      if skip && is_space c then remove_currency_aux true rest
      else if is_currency c then remove_currency_aux true rest
      else if (c =? 82)%N then
        match rest with
        | d :: rest' =>
            if (d =? 36)%N then remove_currency_aux true rest'
            else c :: remove_currency_aux false rest
        | [] => [c]
        end
      else c :: remove_currency_aux false rest
  end.

Definition remove_currency (s : str) : str := remove_currency_aux false s.

(** Characters matched, under [re.IGNORECASE], by the lower-case pattern
    character [p]; [p] ranges over the characters of the three qualifier
    phrases. *)
Definition ci_eq (p c : N) : bool :=
  ((c =? p)
   || (97 <=? p) && (p <=? 122) && (c =? p - 32)
   || (p =? 224) && (c =? 192)
   || (p =? 105) && ((c =? 304) || (c =? 305))
   || (p =? 115) && (c =? 383))%N.

Fixpoint ci_startswith (p s : str) : bool :=
  match p, s with
  | [], _ => true
  | _ :: _, [] => false
  | a :: p', b :: s' => ci_eq a b && ci_startswith p' s'
  end.

(** a partir de | à vista | no pix *)
Definition qualifiers : list str :=
  [of_ascii "a partir de"; 224%N :: of_ascii " vista"; of_ascii "no pix"].

Definition qualifier_at (s : str) : bool :=
  existsb (fun p => ci_startswith p s) qualifiers.

(** First piece of the split on [\s+(a partir de|à vista|no pix)] with
    [re.IGNORECASE]: the text before the first white-space run that a
    qualifier follows. *)
Fixpoint before_qualifier (s : str) : str :=
  match s with
  | [] => []
  | c :: rest =>
      if is_space c && qualifier_at (lstrip rest) then []
      else c :: before_qualifier rest
  end.

(** The separator step: which of the last comma and the last period comes
    later decides the decimal separator. *)
Definition disambiguate (price_str : str) : str :=
  let last_comma := rfind comma price_str in
  let last_dot := rfind period price_str in
  if last_comma >? last_dot then
    replace_char comma period (remove_char period price_str)
  else if last_dot >? last_comma then
    remove_char comma price_str
  else
    remove_char comma price_str.

Definition digit_or_period (c : N) : bool := is_digit c || (c =? period)%N.

(** [price_str] once currency symbols and the trailing qualifier are
    removed. *)
Definition price_text (price_str : str) : str :=
  before_qualifier (strip (remove_currency price_str)).

(** The text handed to [float]: every character other than digits and
    periods removed after the separator step. *)
Definition clean_price (price_str : str) : str :=
  let price_str := price_text price_str in
  (* every run matching [^\d.]+ is deleted *)
  List.filter digit_or_period (disambiguate price_str).

Definition _format_price (price_str : option str) : option float :=
  match price_str with
  | None | Some [] => None
  | Some s =>
      match clean_price s with
      | [] => None
      | clean => float_of_str clean (* an exception of float gives None *)
      end
  end.

(** *** The normalizer as section 4.1 of the specification words it *)

(** Replace the first occurrence of [c] by [d]. *)
Fixpoint replace_first (c d : N) (s : str) : str :=
  match s with
  | [] => []
  | x :: rest => if (x =? c)%N then d :: rest else x :: replace_first c d rest
  end.

(** Replace the last occurrence of [c] by [d]. *)
Definition replace_last (c d : N) (s : str) : str :=
  List.rev (replace_first c d (List.rev s)).

(** Step 4 in the specification's words: when the last comma comes after
    the last period, all periods are removed and the last comma becomes a
    period; when the last period comes after the last comma, all commas
    are removed; with no separator the text is left as it is. *)
Definition spec_disambiguate (price_str : str) : str :=
  let last_comma := rfind comma price_str in
  let last_dot := rfind period price_str in
  if last_comma >? last_dot then
    replace_last comma period (remove_char period price_str)
  else if last_dot >? last_comma then
    remove_char comma price_str
  else price_str.

(** Steps 1 to 6 of the specification, with steps 1-3, 5 and 6 as the
    code has them. *)
Definition spec_normalize (price_str : option str) : option float :=
  match price_str with
  | None | Some [] => None
  | Some s =>
      float_of_str
        (List.filter digit_or_period (spec_disambiguate (price_text s)))
  end.

End PriceNormalizer.

Import PriceNormalizer.

(** ** server_scraper.py: link resolver, extraction cascade, fetch loop *)

Module ServerScraper.

(** What [urlparse] returns, as far as the code reads it. *)
Record ParseResult := { netloc : str; path : str; query : str }.

(** The part of a matched tag the code reads: its text and its
    attributes. *)
Record Tag := {
  get_text : py str;
  get_attr : str -> py (option str)
}.

(** A product container: what [select_one] finds in it for a selector. *)
Record Element := { select_one : str -> py (option Tag) }.

(** A parsed document: what [select] finds in it for a selector. *)
Record Soup := { select : str -> py (list Element) }.

(** How a block of statements ends: by [return], or by reaching its end. *)
Inductive outcome (A : Type) : Type :=
  | Returned (a : A)
  | Fell_through.
Arguments Returned {A} a.
Arguments Fell_through {A}.

(** How one attempt of the fetch loop ends. *)
Inductive flow :=
  | Return (results : list product)
  | Break
  | Next.

Section Web.

(** Library and network behaviour the scraper relies on.  A call can
    raise, inside a [try] block or, as [quote_plus] at the start of the
    fetch, outside of any; [parse_qs], logging, pacing delays and the
    saving of diagnostics are taken to return. *)
Variable urlparse : str -> py ParseResult.
Variable parse_qs : str -> Dict.dict (list str).
(** [session.head(url, allow_redirects=True, timeout=5).url] *)
Variable head : str -> py str.
(** [quote_plus] raises [UnicodeEncodeError], a [ValueError], on a text
    that cannot be encoded, such as one with a lone surrogate. *)
Variable quote_plus : str -> py str.
(** [session.get(url, timeout)] followed by [raise_for_status] and
    [response.text]; the first argument counts the requests made before,
    as the answer of the network can change from one request to the next. *)
Variable get : nat -> str -> py str.
(** [BeautifulSoup(html_content, 'html.parser')] *)
Variable parse_html : str -> py Soup.

Definition google_com := of_ascii "google.com".

Definition possible_params : list str :=
  [of_ascii "adurl"; of_ascii "url"; of_ascii "q"; of_ascii "imgrefurl"].

(** [startswith('http')] and 'google.com' not in the host part. *)
Definition external_url (real_url : str) : py bool :=
  if startswith (of_ascii "http") real_url then
    let* p := urlparse real_url in
    Ret (negb (contains google_com (netloc p)))
  else Ret false.

(** Step 1: the loop over [possible_params]. *)
Fixpoint check_params (query_params : Dict.dict (list str)) (params : list str)
  : py (outcome str) :=
  match params with
  | [] => Ret Fell_through
  | param :: rest =>
      match Dict.get param query_params with
      | None => check_params query_params rest
      | Some values =>
          let* real_url :=
            match values with
            | v :: _ => Ret v
            | [] => Raise IndexError
            end in
          let* ok := external_url real_url in
          if ok then Ret (Returned real_url)
          else check_params query_params rest
      end
  end.

(** Step 2: the redirect probe with its own handlers for [Timeout] and
    [RequestException]. *)
Definition follow_redirect (google_link : str) (parsed_url : ParseResult)
  : py (outcome str) :=
  if str_eqb (netloc parsed_url) (of_ascii "www.google.com")
     && (contains (of_ascii "/url?") (path parsed_url)
         || contains (of_ascii "/aclk?") (path parsed_url))
  then
    try_except
      (let* final_url := head google_link in
       if negb (str_eqb final_url google_link) then
         let* p := urlparse final_url in
         if negb (contains google_com (netloc p)) then Ret (Returned final_url)
         else Ret Fell_through
       else Ret Fell_through)
      (fun e =>
         match e with
         | Timeout | RequestException => Ret Fell_through
         | _ => Raise e
         end)
  else Ret Fell_through.

Definition _extract_real_product_link (google_link : option str) : option str :=
  match google_link with
  | None | Some [] => None
  | Some google_link =>
      let body :=
        try_except
          (let* parsed_url := urlparse google_link in
           let query_params := parse_qs (query parsed_url) in
           let* r := check_params query_params possible_params in
           match r with
           | Returned real_url => Ret (Returned real_url)
           | Fell_through => follow_redirect google_link parsed_url
           end)
          (fun _ => Ret Fell_through) in
      match body with
      | Ret (Returned url) => Some url
      | _ => Some google_link
      end
  end.

(** *** Extraction cascade *)

Definition quoted (s : string) : str := 34%N :: of_ascii s ++ [34%N].

Definition container_selectors : list str :=
  [of_ascii "div.sh-dgr__content";
   of_ascii "div.sh-dlr__list-result";
   of_ascii "div.sh-pr__product-results-grid div.sh-pr__product-result";
   of_ascii "div[data-docid]";
   of_ascii ".i0X6df";
   of_ascii ".u30d4"].

Definition name_selectors : list str :=
  [of_ascii "h3.tAxDx"; of_ascii "h4.A2sOrd"; of_ascii "div.aULzUe";
   of_ascii "h3"; of_ascii ".rgHvZc"; of_ascii ".EI11Pd"].

Definition price_selectors : list str :=
  [of_ascii "span.a8Pemb"; of_ascii "span.kHxwFf";
   of_ascii "span[aria-hidden=" ++ quoted "true" ++ of_ascii "]";
   of_ascii ".PZPZlf span"; of_ascii ".HRLxBb"].

Definition link_selectors : list str :=
  [of_ascii "a.shntl"; of_ascii "a.Lq5OHe";
   of_ascii "a[href*=" ++ quoted "shopping" ++ of_ascii "]"; of_ascii "a"].

(** Nome não encontrado *)
Definition nome_nao_encontrado : str :=
  of_ascii "Nome n" ++ 227%N :: of_ascii "o encontrado".

(** Preço não encontrado *)
Definition preco_nao_encontrado : str :=
  of_ascii "Pre" ++ 231%N :: of_ascii "o n" ++ 227%N :: of_ascii "o encontrado".

Definition google_shopping : str := of_ascii "Google Shopping".

(** The value read from a matched tag; an exception raised while reading
    it is logged and the next selector is tried. *)
Definition read_value (found_element : Tag) (attribute : option str) : option str :=
  let value :=
    match attribute with
    | Some ((_ :: _) as a) => get_attr found_element a
    | _ => bind (get_text found_element) (fun t => Ret (Some t))
    end in
  match value with
  | Ret (Some ((_ :: _) as v)) => Some (strip v)
  | _ => None
  end.

Fixpoint _extract_field (element : Element) (selectors : list str)
    (default_value : option str) (attribute : option str) : py (option str) :=
  match selectors with
  | [] => Ret default_value
  | selector :: rest =>
      let* found_element := select_one element selector in
      match found_element with
      | Some tag =>
          match read_value tag attribute with
          | Some v => Ret (Some v)
          | None => _extract_field element rest default_value attribute
          end
      | None => _extract_field element rest default_value attribute
      end
  end.

(** The loop over [container_selectors]; [None] when its [else] branch is
    reached. *)
Fixpoint find_containers (soup : Soup) (selectors : list str)
  : py (option (list Element)) :=
  match selectors with
  | [] => Ret None
  | selector :: rest =>
      let* product_elements := select soup selector in
      match product_elements with
      | [] => find_containers soup rest
      | _ => Ret (Some product_elements)
      end
  end.

(** Body of the [try] for one container: the product it yields, if it is
    accepted. *)
Definition extract_one (element : Element) : py (option product) :=
  let* name := _extract_field element name_selectors (Some nome_nao_encontrado) None in
  let* price_text :=
    _extract_field element price_selectors (Some preco_nao_encontrado) None in
  let price := _format_price price_text in
  let* link :=
    _extract_field element link_selectors None (Some (of_ascii "href")) in
  let link :=
    match link with
    | Some ((_ :: _) as l) =>
        if startswith (of_ascii "/") l
        then Some (of_ascii "https://www.google.com" ++ l) else link
    | _ => link
    end in
  let real_product_link := _extract_real_product_link link in
  match price, name with
  | Some p, Some n =>
      if truthy p && negb (str_eqb n nome_nao_encontrado) then
        Ret (Some {| nome := n; preco := p;
                     link := match real_product_link with
                             | Some (_ :: _) => real_product_link
                             | _ => link
                             end;
                     site := google_shopping; cart_link := None |})
      else Ret None
  | _, _ => Ret None (* no price; the name is never None *)
  end.

(** The loop over the containers of the chosen selector. *)
Fixpoint extract_loop (product_elements : list Element) (extracted_count : Z)
    (max_results : Z) (products : list product) : list product :=
  match product_elements with
  | [] => products
  | element :: rest =>
      if extracted_count >=? max_results then products
      else
        match extract_one element with
        | Ret (Some product_data) =>
            extract_loop rest (extracted_count + 1) max_results
                         (products ++ [product_data])
        | Ret None | Raise _ =>
            extract_loop rest extracted_count max_results products
        end
  end.

Definition _extract_google_shopping_products (soup : Soup) (max_results : Z)
  : py (list product) :=
  let* found := find_containers soup container_selectors in
  match found with
  | None => Ret []
  | Some product_elements => Ret (extract_loop product_elements 0 max_results [])
  end.

(** *** Fetch loop *)

Definition max_retries : nat := 3.

(** [l[:n]] *)
Definition slice_to {A : Type} (n : Z) (l : list A) : list A :=
  if 0 <=? n then firstn (Z.to_nat n) l
  else firstn (List.length l - Z.to_nat (- n)) l.

Definition bot_challenge (html_content : str) : bool :=
  contains (of_ascii "Our systems have detected unusual traffic") html_content
  || contains (of_ascii "recaptcha") html_content.

Definition urls_to_try (encoded_query : str) : list str :=
  [of_ascii "https://www.google.com/search?q=" ++ encoded_query
     ++ of_ascii "&tbm=shop";
   of_ascii "https://www.google.com.br/search?q=" ++ encoded_query
     ++ of_ascii "&tbm=shop&hl=pt-BR&gl=br";
   of_ascii "https://www.google.com/search?q=" ++ encoded_query
     ++ of_ascii "&tbm=shop&source=lnms&sa=X"].

(** One pass of the inner loop: the [try] block and its three handlers,
    which all log and go on to the next attempt. *)
Definition attempt (k : nat) (url : str) (results : list product)
    (max_results : Z) : py flow :=
  try_except
    (let* html_content := get k url in
     if bot_challenge html_content then Ret Break
     else
       let* soup := parse_html html_content in
       let* products := _extract_google_shopping_products soup max_results in
       match products with
       | [] => Ret Next
       | _ => Ret (Return (slice_to max_results (results ++ products)))
       end)
    (fun _ => Ret Next).

(** [for attempt in range(self.max_retries)], with [k] requests made so
    far; [None] when the loop ends without a [return]. *)
Fixpoint try_attempts (remaining : nat) (k : nat) (url : str)
    (results : list product) (max_results : Z)
  : py (option (list product) * nat) :=
  match remaining with
  | O => Ret (None, k)
  | S r =>
      let* f := attempt k url results max_results in
      match f with
      | Return res => Ret (Some res, S k)
      | Break => Ret (None, S k)
      | Next => try_attempts r (S k) url results max_results
      end
  end.

(** [for url in urls_to_try] *)
Fixpoint try_urls (urls : list str) (k : nat) (results : list product)
    (max_results : Z) : py (list product) :=
  match urls with
  | [] => Ret results
  | url :: rest =>
      let* r := try_attempts max_retries k url results max_results in
      match r with
      | (Some res, _) => Ret res
      | (None, k') => try_urls rest k' results max_results
      end
  end.

Definition search_google_shopping (query : str) (max_results : Z)
  : py (list product) :=
  let* encoded_query := quote_plus query in
  try_urls (urls_to_try encoded_query) 0 [] max_results.

End Web.

End ServerScraper.

(** ** shopping_api.py: [ShoppingAPI] *)

Module ShoppingAPI.

Definition google_shopping : str := of_ascii "Google Shopping".
Definition mercado_livre : str := of_ascii "Mercado Livre".
Definition kabum : str := of_ascii "Kabum".
Definition melhor_oferta : str := of_ascii "Melhor Oferta".

Definition sites : list str := [google_shopping; mercado_livre; kabum].

(** [best_deal['cart_link'] = cart_link] *)
Definition set_cart_link (best_deal : product) (cart : option str) : product :=
  {| nome := nome best_deal; preco := preco best_deal;
     link := link best_deal; site := site best_deal;
     cart_link := Some cart |}.

(** The best deal of site [s] among its candidates [x :: others]:
    [min(site_results, key=lambda x: x['preco'])] with its cart link. *)
Definition best_of (s : str) (x : product) (others : list product) : product :=
  let best_deal := min_from preco x others in
  set_cart_link best_deal (ProductScraper.get_cart_link (link best_deal) s).

Definition site_results (results : list product) (s : str) : list product :=
  List.filter (fun r => str_eqb (site r) s) results.

(** [d[k]] for a key the dictionary holds. *)
Definition item (d : Dict.dict (option product)) (k : str) : option product :=
  match Dict.get k d with
  | Some v => v
  | None => None
  end.

(** [for site in [...]]: the grouping loop of [_find_best_deals]. *)
Fixpoint group_by_site (results : list product) (todo : list str)
    (best_deals : Dict.dict (option product)) : Dict.dict (option product) :=
  match todo with
  | [] => best_deals
  | s :: rest =>
      match site_results results s with
      | [] => group_by_site results rest best_deals
      | x :: others =>
          group_by_site results rest
            (Dict.set s (Some (best_of s x others)) best_deals)
      end
  end.

Definition valid_deals (best_deals : Dict.dict (option product)) : list product :=
  List.concat
    (List.map (fun s => match item best_deals s with
                        | Some deal => [deal]
                        | None => []
                        end) sites).

Definition _find_best_deals (results : list product) : Dict.dict (option product) :=
  let best_deals :=
    [(google_shopping, None); (mercado_livre, None); (kabum, None);
     (melhor_oferta, None)] in
  let best_deals := group_by_site results sites best_deals in
  match valid_deals best_deals with
  | [] => best_deals
  | x :: others =>
      (* min(valid_deals, key=lambda x: x['preco']) *)
      Dict.set melhor_oferta (Some (min_from preco x others)) best_deals
  end.

(** One entry of the results dictionary. *)
Record site_info := {
  info_nome : str;
  info_preco : str;
  preco_valor : float;
  info_link : option str;
  info_cart_link : option str
}.

Record best_info := {
  best_site : str;
  best_nome : str;
  best_preco : str;
  best_preco_valor : float;
  economia : str;
  best_link : option str;
  best_cart_link : option str
}.

Record output := {
  out_query : str;
  timestamp : str;
  results : Dict.dict site_info;
  best_overall : option best_info
}.

(** Único preço disponível *)
Definition unico_preco : str :=
  218%N :: of_ascii "nico pre" ++ 231%N :: of_ascii "o dispon"
    ++ 237%N :: of_ascii "vel".

(** The text of the savings line for given savings and percentage. *)
Definition economia_text (savings savings_percent : float) : str :=
  replace_char period comma
    (of_ascii "Economia de R$ " ++ format_fixed 2 savings ++ of_ascii " ("
       ++ format_fixed 1 savings_percent ++ of_ascii "%)").

(** The prices kept by [_calculate_savings]: finite and above the best. *)
Definition other_prices (best_price : float) (results : Dict.dict site_info)
  : list float :=
  List.map preco_valor
    (List.filter (fun i => fne (preco_valor i) inf && fgt (preco_valor i) best_price)
                 (List.map snd results)).

Definition _calculate_savings (best_price : float) (results : Dict.dict site_info)
  : py str :=
  match other_prices best_price results with
  | [] => Ret unico_preco
  | p :: rest =>
      let second_best := min_from id p rest in
      let savings := fsub second_best best_price in
      let* ratio := match fdiv savings second_best with
                    | Some q => Ret q
                    | None => Raise ZeroDivisionError
                    end in
      let savings_percent := fmul ratio (of_decimal 100 0) in
      Ret (economia_text savings savings_percent)
  end.

(** The price as displayed: R$ and two decimals, with a decimal comma. *)
Definition preco_text (p : float) : str :=
  replace_char period comma (of_ascii "R$ " ++ format_fixed 2 p).

(** Nenhum produto encontrado *)
Definition no_offer : site_info :=
  {| info_nome := of_ascii "Nenhum produto encontrado";
     info_preco := of_ascii "N/A";
     preco_valor := inf;
     info_link := None;
     info_cart_link := None |}.

Definition site_entry (deal : option product) : site_info :=
  match deal with
  | Some deal =>
      {| info_nome := nome deal;
         info_preco := preco_text (preco deal);
         preco_valor := preco deal;
         info_link := link deal;
         info_cart_link := match cart_link deal with
                           | Some c => c
                           | None => link deal
                           end |}
  | None => no_offer
  end.

Definition _format_results (best_deals : Dict.dict (option product))
    (query : str) (now : str) : py output :=
  let entries := List.map (fun s => (s, site_entry (item best_deals s))) sites in
  let results := List.fold_left (fun d e => Dict.set (fst e) (snd e) d) entries [] in
  match item best_deals melhor_oferta with
  | Some best =>
      let* econ := _calculate_savings (preco best) results in
      Ret {| out_query := query; timestamp := now; results := results;
             best_overall :=
               Some {| best_site := site best;
                       best_nome := nome best;
                       best_preco := preco_text (preco best);
                       best_preco_valor := preco best;
                       economia := econ;
                       best_link := link best;
                       best_cart_link := match cart_link best with
                                         | Some c => c
                                         | None => link best
                                         end |} |}
  | None =>
      Ret {| out_query := query; timestamp := now; results := results;
             best_overall := None |}
  end.

(** *** [search_products]: cache and lock *)

(** [self.search_cache] and whether [self.search_lock] is held. *)
Record state := {
  search_cache : gmap str (float * output);
  search_lock : bool
}.

(** What one call observes of its environment: the clock, the scraper
    ([ProductScraper().search_all_sites]), the text of [datetime.now()]
    and the outcome of writing the JSON file. *)
Record env := {
  current_time : float;
  search_all_sites : str -> py (list product);
  now_text : str;
  save_results : output -> py str
}.

(** Effects of a call, in the order they happen. *)
Inductive event :=
  | CacheRead (cache_key : str)
  | LockTaken
  | LockRefused
  | Fetch (query : str)
  | FileSaved
  | CacheWrite (cache_key : str)
  | LockReleased.

Definition blank (query : option str) : bool :=
  match query with
  | None | Some [] => true
  | Some q => match strip q with [] => true | _ => false end
  end.

Definition ttl : float := of_decimal 300 0.

(** The cached results for [cache_key] when they are less than five
    minutes old. *)
Definition cached (st : state) (now : float) (cache_key : str) : option output :=
  match search_cache st !! cache_key with
  | Some (cache_time, cache_results) =>
      if flt (fsub now cache_time) ttl then Some cache_results else None
  | None => None
  end.

Section Search.

(** [str.lower] *)
Variable lower : str -> str.

Definition cache_key_of (query : str) : str := lower (strip query).

(** The [try] block: scrape, choose, format, save. *)
Definition run_search (e : env) (query : str)
  : py (output * str) * list event :=
  match search_all_sites e query with
  | Raise x => (Raise x, [Fetch query])
  | Ret results =>
      let best_deals := _find_best_deals results in
      match _format_results best_deals query (now_text e) with
      | Raise x => (Raise x, [Fetch query])
      | Ret formatted_results =>
          match save_results e formatted_results with
          | Raise x => (Raise x, [Fetch query])
          | Ret json_filepath =>
              (Ret (formatted_results, json_filepath), [Fetch query; FileSaved])
          end
      end
  end.

Definition search_products (st : state) (e : env) (query : option str)
  : py (output * option str) * state * list event :=
  if blank query then (Raise ValueError, st, [])
  else
    let query := strip (default [] query) in
    let cache_key := lower query in
    match cached st (current_time e) cache_key with
    | Some cache_results => (Ret (cache_results, None), st, [CacheRead cache_key])
    | None =>
        if search_lock st then
          (Raise RuntimeError, st, [CacheRead cache_key; LockRefused])
        else
          match run_search e query with
          | (Ret (formatted_results, json_filepath), evs) =>
              (Ret (formatted_results, Some json_filepath),
               {| search_cache :=
                    <[cache_key := (current_time e, formatted_results)]>
                      (search_cache st);
                  search_lock := false |},
               [CacheRead cache_key; LockTaken] ++ evs
                 ++ [CacheWrite cache_key; LockReleased])
          | (Raise x, evs) =>
              (Raise x, st,
               [CacheRead cache_key; LockTaken] ++ evs ++ [LockReleased])
          end
    end.

End Search.

(** *** Result files: [_save_results] and [get_recent_searches] *)

(** [s.endswith(suffix)] *)
Definition endswith (suffix s : str) : bool :=
  startswith (List.rev suffix) (List.rev s).

(** One entry of the list of recent searches. *)
Record recent_search (J : Type) := {
  recent_query : J;
  recent_timestamp : J;
  recent_file : str
}.
Arguments recent_query {J} _.
Arguments recent_timestamp {J} _.
Arguments recent_file {J} _.

(** [list.sort(key=..., reverse=True)] on elements paired with their
    keys, for keys that are numbers: the stable sort by decreasing key,
    elements of equal key keeping their order. *)
Fixpoint insert_reverse {A : Type} (x : float * A) (l : list (float * A))
  : list (float * A) :=
  match l with
  | [] => [x]
  | y :: rest =>
      if flt (fst x) (fst y) then y :: insert_reverse x rest else x :: l
  end.

Definition sort_reverse {A : Type} (l : list (float * A)) : list (float * A) :=
  List.fold_right insert_reverse [] l.

Section Files.

(** JSON values. *)
Context {J : Type}.

(** [str.lower], [os.path.join], the text of [datetime.now()] in the
    format of file names, the writing of a result as JSON, and the
    reading of the directory, of a modification time and of a JSON
    document (its members, when it is an object that can be read). *)
Variable lower : str -> str.
Variable join : str -> str -> str.
Variable stamp : str.
Variable write : str -> output -> py unit.
Variable listdir : str -> py (list str).
Variable getmtime : str -> py float.
Variable load : str -> py (Dict.dict J).

Variable results_dir : str.

(** [query.lower().replace(' ', '_')[:30]] *)
Definition query_slug (query : str) : str :=
  firstn 30 (replace_char 32%N 95%N (lower query)).

Definition result_filename (query : str) : str :=
  query_slug query ++ 95%N :: stamp ++ of_ascii ".json".

Definition _save_results (formatted_results : output) : py str :=
  let filename := result_filename (out_query formatted_results) in
  let filepath := join results_dir filename in
  let* _ := write filepath formatted_results in
  Ret filepath.

(** The keys of the sort, computed for every file before it. *)
Fixpoint mtimes (files : list str) : py (list (float * str)) :=
  match files with
  | [] => Ret []
  | x :: rest =>
      let* t := getmtime (join results_dir x) in
      let* keyed := mtimes rest in
      Ret ((t, x) :: keyed)
  end.

(** Body of the inner [try]: the entry of one file. *)
Definition read_entry (file : str) : py (recent_search J) :=
  let* data := load (join results_dir file) in
  match Dict.get (of_ascii "query") data, Dict.get (of_ascii "timestamp") data with
  | Some q, Some t =>
      Ret {| recent_query := q; recent_timestamp := t; recent_file := file |}
  | _, _ => Raise OtherError (* KeyError *)
  end.

(** [for file in recent_files: try: ... except Exception: continue] *)
Fixpoint read_entries (recent_files : list str)
    (recent_searches : list (recent_search J)) : list (recent_search J) :=
  match recent_files with
  | [] => recent_searches
  | file :: rest =>
      match read_entry file with
      | Ret entry => read_entries rest (recent_searches ++ [entry])
      | Raise _ => read_entries rest recent_searches
      end
  end.

Definition get_recent_searches (limit : Z) : list (recent_search J) :=
  let body :=
    let* names := listdir results_dir in
    let files := List.filter (endswith (of_ascii ".json")) names in
    let* keyed := mtimes files in
    let files := List.map snd (sort_reverse keyed) in
    let recent_files := ServerScraper.slice_to limit files in
    Ret (read_entries recent_files []) in
  match body with
  | Ret recent_searches => recent_searches
  | Raise _ => []
  end.

End Files.

End ShoppingAPI.

(** ** Vocabulary of the statements *)

Import ShoppingAPI.

(** [b] is the first element of [l] with the lowest key. *)
Definition first_min {A : Type} (key : A -> float) (l : list A) (b : A) : Prop :=
  exists i : nat,
    nth_error l i = Some b /\
    (forall r, In r l -> flt (key r) (key b) = false) /\
    (forall j r, nth_error l j = Some r -> (j < i)%nat -> flt (key b) (key r) = true).

(** Candidates whose price is a number (not NaN). *)
Definition priced (results : list product) : Prop :=
  Forall (fun r => is_nan (preco r) = false) results.

(** Candidates whose price was returned by one of the two normalizers. *)
Definition scraped (results : list product) : Prop :=
  Forall (fun r => exists text,
            ProductScraper.format_price text = Some (preco r) \/
            _format_price text = Some (preco r)) results.

(** Example candidates. *)
Definition deal_a : product :=
  {| nome := of_ascii "A"; preco := of_decimal 100 0;
     link := Some (of_ascii "https://a.example/p"); site := google_shopping;
     cart_link := None |}.

Definition deal_b : product :=
  {| nome := of_ascii "B"; preco := of_decimal 80 0;
     link := Some (of_ascii "https://b.example/p"); site := mercado_livre;
     cart_link := None |}.

(** The three entries of the results dictionary, in the configured order. *)
Definition entries (best_deals : Dict.dict (option product)) : Dict.dict site_info :=
  [(google_shopping, site_entry (item best_deals google_shopping));
   (mercado_livre, site_entry (item best_deals mercado_livre));
   (kabum, site_entry (item best_deals kabum))].

(** Savings as section 4.5 of the specification words them: against the
    lowest price among the best deals of the other sources, the no-offer
    entries (price [inf]) left out. *)
Definition runner_up_prices (best_site : str) (results : Dict.dict site_info)
  : list float :=
  List.map (fun e => preco_valor (snd e))
    (List.filter (fun e => negb (str_eqb (fst e) best_site)
                           && fne (preco_valor (snd e)) inf) results).

Definition spec_savings (best_site : str) (best_price : float)
    (results : Dict.dict site_info) : py str :=
  match runner_up_prices best_site results with
  | [] => Ret unico_preco
  | p :: rest =>
      let runner_up := min_from id p rest in
      let savings := fsub runner_up best_price in
      let* ratio := match fdiv savings runner_up with
                    | Some q => Ret q
                    | None => Raise ZeroDivisionError
                    end in
      Ret (economia_text savings (fmul ratio (of_decimal 100 0)))
  end.

Definition deal_tie : product :=
  {| nome := of_ascii "T"; preco := of_decimal 80 0;
     link := Some (of_ascii "https://t.example/p"); site := google_shopping;
     cart_link := None |}.

(** [s.count(c)] for a one-character [c]. *)
Definition count_char (c : N) (s : str) : nat :=
  List.length (List.filter (N.eqb c) s).

(** R$ 99,90 à vista *)
Definition text_a_vista : str := of_ascii "R$ 99,90 " ++ 224%N :: of_ascii " vista".

(** preço indisponível *)
Definition text_indisponivel : str :=
  of_ascii "pre" ++ 231%N :: of_ascii "o indispon" ++ 237%N :: of_ascii "vel".

(** A filter that drops white space, currency symbols and the letter R. *)
Definition drops_symbols (P : N -> bool) : Prop :=
  (forall c, is_space c = true -> P c = false) /\
  (forall c, is_currency c = true -> P c = false) /\
  P 82%N = false.

(** The parameter names in the order of priority. *)
Definition priority_order : list str :=
  [of_ascii "adurl"; of_ascii "url"; of_ascii "q"; of_ascii "imgrefurl"].

(** [v] is an external URL: it starts with http and [urlparse] gives it
    a host that does not contain google.com. *)
Definition external (urlparse : str -> py ServerScraper.ParseResult) (v : str)
  : Prop :=
  startswith (of_ascii "http") v = true /\
  exists p, urlparse v = Ret p /\
            contains (of_ascii "google.com") (ServerScraper.netloc p) = false.

(** [v] is inspected and found not external: it does not start with
    http, or [urlparse] gives it a host that contains google.com. *)
Definition found_internal (urlparse : str -> py ServerScraper.ParseResult)
    (v : str) : Prop :=
  startswith (of_ascii "http") v = false \/
  exists p, urlparse v = Ret p /\
            contains (of_ascii "google.com") (ServerScraper.netloc p) = true.

(** The parameters [pre] are passed over: each one is absent or carries
    a first value that is inspected and found not external. *)
Definition passed_over (urlparse : str -> py ServerScraper.ParseResult)
    (query_params : Dict.dict (list str)) (pre : list str) : Prop :=
  forall p', In p' pre ->
    Dict.get p' query_params = None \/
    exists v' rest', Dict.get p' query_params = Some (v' :: rest') /\
                     found_internal urlparse v'.

(** [v] is the value of the first parameter of [params] that the query
    carries with an external URL, the parameters before it being passed
    over. *)
Definition first_external (urlparse : str -> py ServerScraper.ParseResult)
    (params : list str) (query_params : Dict.dict (list str)) (v : str) : Prop :=
  exists pre p post rest,
    params = pre ++ p :: post /\
    Dict.get p query_params = Some (v :: rest) /\
    external urlparse v /\
    passed_over urlparse query_params pre.

(** The same in the words of the specification: [v] is the first value,
    in the order of [params], that is an external URL; nothing is asked
    of the parameters before it but that their value is not one. *)
Definition spec_first_external (urlparse : str -> py ServerScraper.ParseResult)
    (params : list str) (query_params : Dict.dict (list str)) (v : str) : Prop :=
  exists pre p post rest,
    params = pre ++ p :: post /\
    Dict.get p query_params = Some (v :: rest) /\
    external urlparse v /\
    forall p', In p' pre ->
      Dict.get p' query_params = None \/
      exists v' rest', Dict.get p' query_params = Some (v' :: rest') /\
                       ~ external urlparse v'.

(** The inspection meets, before any external URL, a value that starts
    with http and that [urlparse] rejects. *)
Definition rejected_value (urlparse : str -> py ServerScraper.ParseResult)
    (params : list str) (query_params : Dict.dict (list str)) : Prop :=
  exists pre p post v rest e,
    params = pre ++ p :: post /\
    passed_over urlparse query_params pre /\
    Dict.get p query_params = Some (v :: rest) /\
    startswith (of_ascii "http") v = true /\
    urlparse v = Raise e.

(** The redirect probe applies to [google_link] and ends on the external
    URL [final_url]. *)
Definition probe_yields (urlparse : str -> py ServerScraper.ParseResult)
    (head : str -> py str) (google_link : str)
    (parsed_url : ServerScraper.ParseResult) (final_url : str) : Prop :=
  ServerScraper.netloc parsed_url = of_ascii "www.google.com" /\
  (contains (of_ascii "/url?") (ServerScraper.path parsed_url) = true \/
   contains (of_ascii "/aclk?") (ServerScraper.path parsed_url) = true) /\
  head google_link = Ret final_url /\
  final_url <> google_link /\
  exists p, urlparse final_url = Ret p /\
            contains (of_ascii "google.com") (ServerScraper.netloc p) = false.

(** Answers of the library on the texts of the example link. *)
Definition example_link : str :=
  of_ascii "https://www.google.com/aclk?adurl=https://shop.example.com/x".

Definition example_shop : str := of_ascii "https://shop.example.com/x".

Definition example_urlparse (u : str) : py ServerScraper.ParseResult :=
  if str_eqb u example_link then
    Ret {| ServerScraper.netloc := of_ascii "www.google.com";
           ServerScraper.path := of_ascii "/aclk";
           ServerScraper.query := of_ascii "adurl=https://shop.example.com/x" |}
  else if str_eqb u example_shop then
    Ret {| ServerScraper.netloc := of_ascii "shop.example.com";
           ServerScraper.path := of_ascii "/x";
           ServerScraper.query := [] |}
  else Raise ValueError.

Definition example_parse_qs (q : str) : Dict.dict (list str) :=
  if str_eqb q (of_ascii "adurl=https://shop.example.com/x")
  then [(of_ascii "adurl", [example_shop])] else [].

Definition example_head (u : str) : py str := Raise Timeout.

(** A link whose url parameter carries a value that [urlparse] rejects
    (an unclosed bracket in the host) and whose imgrefurl parameter
    carries the shop. *)
Definition example_rejected : str := of_ascii "http://[bad".

Definition example_rejected_query : str :=
  of_ascii "url=http://[bad&imgrefurl=https://shop.example.com/x".

Definition example_rejected_link : str :=
  of_ascii "https://www.google.com/url?" ++ example_rejected_query.

Definition rejecting_urlparse (u : str) : py ServerScraper.ParseResult :=
  if str_eqb u example_rejected_link then
    Ret {| ServerScraper.netloc := of_ascii "www.google.com";
           ServerScraper.path := of_ascii "/url";
           ServerScraper.query := example_rejected_query |}
  else example_urlparse u.

Definition rejecting_parse_qs (q : str) : Dict.dict (list str) :=
  if str_eqb q example_rejected_query
  then [(of_ascii "url", [example_rejected]); (of_ascii "imgrefurl", [example_shop])]
  else [].

(** The products of the containers that are accepted, in document order:
    a container whose extraction raises or is rejected contributes
    nothing. *)
Definition accepted (f : ServerScraper.Element -> py (option product))
    (elements : list ServerScraper.Element) : list product :=
  List.flat_map (fun e => match f e with
                          | Ret (Some p) => [p]
                          | _ => []
                          end) elements.

(** An example document: the first container selector matches nothing,
    the second one matches four containers. *)
Definition example_tag (text : str) (href : option str) : ServerScraper.Tag :=
  {| ServerScraper.get_text := Ret text;
     ServerScraper.get_attr :=
       fun a => if str_eqb a (of_ascii "href") then Ret href else Ret None |}.

Definition example_element (name price : option str) (href : str)
  : ServerScraper.Element :=
  {| ServerScraper.select_one := fun sel =>
       if str_eqb sel (of_ascii "h3.tAxDx")
       then Ret (option_map (fun t => example_tag t None) name)
       else if str_eqb sel (of_ascii "span.a8Pemb")
       then Ret (option_map (fun t => example_tag t None) price)
       else if str_eqb sel (of_ascii "a.shntl")
       then Ret (Some (example_tag [] (Some href)))
       else Ret None |}.

Definition example_broken : ServerScraper.Element :=
  {| ServerScraper.select_one := fun _ => Raise OtherError |}.

Definition example_soup : ServerScraper.Soup :=
  {| ServerScraper.select := fun sel =>
       if str_eqb sel (of_ascii "div.sh-dlr__list-result") then
         Ret [example_broken;
              example_element (Some (of_ascii "TV A")) (Some (of_ascii "R$ 1.234,56"))
                example_link;
              example_element None (Some (of_ascii "R$ 10,00")) example_link;
              example_element (Some (of_ascii "TV B")) (Some (of_ascii "gratis"))
                example_link;
              example_element (Some (of_ascii "TV C")) (Some (of_ascii "R$ 999,00"))
                (of_ascii "/shopping/product/1")]
       else Ret [] |}.

(** An example network: a timeout, then a bot challenge, then a page. *)
Definition example_get (k : nat) (url : str) : py str :=
  match k with
  | O => Raise Timeout
  | S O => Ret (of_ascii "<div id=recaptcha>")
  | _ => Ret (of_ascii "<html>")
  end.

Definition example_parse_html (html : str) : py ServerScraper.Soup := Ret example_soup.

(** [quote_plus] on the example queries: a text with a surrogate code
    point cannot be encoded, the other ones need no escaping. *)
Definition example_quote_plus (q : str) : py str :=
  if existsb (fun c => (55296 <=? c) && (c <=? 57343))%N q
  then Raise ValueError else Ret q.

(** The page shows a bot challenge. *)
Definition challenge_page (html : str) : Prop :=
  contains (of_ascii "Our systems have detected unusual traffic") html = true \/
  contains (of_ascii "recaptcha") html = true.

Section Requests.

Variable urlparse : str -> py ServerScraper.ParseResult.
Variable parse_qs : str -> Dict.dict (list str).
Variable head : str -> py str.
Variable get : nat -> str -> py str.
Variable parse_html : str -> py ServerScraper.Soup.
Variable max_results : Z.

(** Request [k], sent to [url], is answered by a page without bot
    challenge that can be parsed, and [r] is what the extraction gives
    for it. *)
Definition page_extraction (k : nat) (url : str) (r : py (list product)) : Prop :=
  exists html soup,
    get k url = Ret html /\ ~ challenge_page html /\
    parse_html html = Ret soup /\
    ServerScraper._extract_google_shopping_products urlparse parse_qs head
      soup max_results = r.

(** The request yields the products [res], at least one. *)
Definition request_yields (k : nat) (url : str) (res : list product) : Prop :=
  res <> [] /\ page_extraction k url (Ret res).

(** The request is answered by a bot challenge. *)
Definition request_challenged (k : nat) (url : str) : Prop :=
  exists html, get k url = Ret html /\ challenge_page html.

(** The request fails: the network raises, the page cannot be parsed,
    or the extraction raises or finds no product. *)
Definition request_fails (k : nat) (url : str) : Prop :=
  (exists e, get k url = Raise e) \/
  (exists html e, get k url = Ret html /\ ~ challenge_page html /\
                  parse_html html = Raise e) \/
  page_extraction k url (Ret []) \/
  (exists e, page_extraction k url (Raise e)).

End Requests.

(** [str.lower] on ASCII texts, for the examples. *)
Definition ascii_lower (s : str) : str :=
  List.map (fun c => if ((65 <=? c) && (c <=? 90))%N then (c + 32)%N else c) s.

(** An example environment: the scraper finds [deal_a] and [deal_b] and
    the file is written. *)
Definition example_env (now : float) : env :=
  {| current_time := now;
     search_all_sites := fun _ => Ret [deal_a; deal_b];
     now_text := of_ascii "2025-01-01 10:00:00";
     save_results := fun _ => Ret (of_ascii "results/tv.json") |}.

(** The result that the example search stores. *)
Definition example_output : output :=
  match _format_results (_find_best_deals [deal_a; deal_b]) (of_ascii "tv")
          (of_ascii "2025-01-01 10:00:00") with
  | Ret out => out
  | Raise _ => {| out_query := []; timestamp := []; results := [];
                  best_overall := None |}
  end.

(** A state in which another search holds the lock and the key tv has an
    entry stored at time 1000. *)
Definition busy_state : state :=
  {| search_cache := {[ of_ascii "tv" := (of_decimal 1000 0, example_output) ]};
     search_lock := true |}.

Definition idle_state : state := {| search_cache := ∅; search_lock := false |}.

(** A number that is not negative: what [x >= 0] tests. *)
Definition non_negative (x : float) : Prop :=
  is_nan x = false /\ flt x (S754_zero false) = false.

(** Every comma replaced by a period and every period by a comma. *)
Definition swap_separator (c : N) : N :=
  if (c =? comma)%N then period else if (c =? period)%N then comma else c.

Definition swap_separators (s : str) : str := List.map swap_separator s.

(** The currency symbols of the pattern [(R\$|\$|€|£)]. *)
Definition currency_symbols : list str :=
  [of_ascii "R$"; [36%N]; [8364%N]; [163%N]].

Definition white (s : str) : Prop := Forall (fun c => is_space c = true) s.

(** A bare amount: digits, commas and periods, at least one character. *)
Definition amount_char (c : N) : bool :=
  is_digit c || (c =? comma)%N || (c =? period)%N.

Definition amount (t : str) : Prop :=
  t <> [] /\ Forall (fun c => amount_char c = true) t.

(** Characters that the removal of currency symbols keeps where they
    are. *)
Definition kept (c : N) : Prop := is_currency c = false.

(** A candidate of a site that is not configured. *)
Definition deal_other : product :=
  {| nome := of_ascii "O"; preco := of_decimal 1 0;
     link := Some (of_ascii "https://o.example/p"); site := of_ascii "Amazon";
     cart_link := None |}.

(** A state with the lock free and the key tv stored at time 1000. *)
Definition stale_state : state :=
  {| search_cache := {[ of_ascii "tv" := (of_decimal 1000 0, example_output) ]};
     search_lock := false |}.

(** What is tried for one selector of a field: the selector matches no
    tag, or a tag whose value is missing, empty or unreadable. *)
Definition no_value (e : ServerScraper.Element) (attribute : option str)
    (sel : str) : Prop :=
  ServerScraper.select_one e sel = Ret None \/
  exists tag, ServerScraper.select_one e sel = Ret (Some tag) /\
              ServerScraper.read_value tag attribute = None.

(** A candidate as the site searches produce them for site [s]: labelled
    with the site, without cart link, with a price that is a number,
    neither zero nor negative. *)
Definition candidate_of (s : str) (p : product) : Prop :=
  site p = s /\ cart_link p = None /\
  truthy (preco p) = true /\ non_negative (preco p).

(** An element with a text and a link. *)
Definition example_web_element (t : str) (href : option str) : ProductScraper.WebElement :=
  {| ProductScraper.text := Ret t; ProductScraper.get_attribute := fun _ => Ret href |}.

(** A card that shows a name, a price with its cents elements, and a
    link, whatever the selectors of the site. *)
Definition example_card (name price : str) (cents : list str) (href : str)
  : ProductScraper.Card :=
  {| ProductScraper.find_element := fun sel =>
       if existsb (str_eqb sel)
            [of_ascii "h3.tAxDx"; of_ascii "h2.ui-search-item__title";
             of_ascii "span.nameCard"]
       then Ret (example_web_element name None)
       else if existsb (str_eqb sel)
            [of_ascii "span.a8Pemb"; of_ascii "span.andes-money-amount__fraction";
             of_ascii "span.priceCard"]
       then Ret (example_web_element price None)
       else if existsb (str_eqb sel)
            [of_ascii "a.shntl"; of_ascii "a.ui-search-link"; of_ascii "a.productLink"]
       then Ret (example_web_element [] (Some href))
       else Raise OtherError;
     ProductScraper.find_elements := fun sel =>
       Ret (List.map (fun c => example_web_element c None) cents) |}.

(** An example browser: one card on Google Shopping, two on Mercado
    Livre, the second one without price, and a page of Kabum that does
    not load. *)
Definition example_browser : ProductScraper.Browser :=
  {| ProductScraper.start := fun _ => Ret tt;
     ProductScraper.load := fun url sel =>
       if str_eqb sel (of_ascii "div.sh-dgr__content") then
         Ret [example_card (of_ascii "TV A") (of_ascii "R$ 1.300,00") []
                (of_ascii "https://a.example/tv")]
       else if str_eqb sel (of_ascii "li.ui-search-layout__item") then
         Ret [example_card (of_ascii "TV B") (of_ascii "1.234") [of_ascii "56"]
                (of_ascii "https://b.example/tv");
              example_card (of_ascii "TV C") (of_ascii "consulte") []
                (of_ascii "https://c.example/tv")]
       else Raise Timeout;
     ProductScraper.quit := Ret tt |}.

Definition example_quote (q : str) : py str := Ret q.

(** The environment of a search that uses the scraper of the program on
    a browser. *)
Definition scraper_env (quote : str -> py str) (browser : ProductScraper.Browser)
    (now : float) (text : str) (save : output -> py str) : env :=
  {| current_time := now;
     search_all_sites := fun query =>
       fst (ProductScraper.search_all_sites quote browser ProductScraper.new_scraper query);
     now_text := text;
     save_results := save |}.

(** [a] is not older than [b]. *)
Definition not_older {A : Type} (a b : float * A) : Prop :=
  flt (fst a) (fst b) = false.

(** The entry [a] comes from a file that is not older than the file of
    [b]. *)
Definition listed_before {J : Type} (join : str -> str -> str)
    (getmtime : str -> py float) (results_dir : str) (a b : recent_search J)
  : Prop :=
  exists ta tb,
    getmtime (join results_dir (recent_file a)) = Ret ta /\
    getmtime (join results_dir (recent_file b)) = Ret tb /\
    flt ta tb = false.


(** A network that answers as the example one on the first nine requests
    and times out afterwards. *)
Definition example_get_nine (k : nat) (url : str) : py str :=
  if (k <? 9)%nat then example_get k url else Raise Timeout.

(** An example results directory: a file that is no result, an older
    result, the result of the example search and a result that cannot be
    read. *)
Definition example_dir : str := of_ascii "results".

Definition example_join (dir name : str) : str := dir ++ 47%N :: name.

Definition example_stamp : str := of_ascii "20250101_100000".

Definition example_saved : str := of_ascii "tv_20250101_100000.json".

Definition example_listdir (dir : str) : py (list str) :=
  if str_eqb dir example_dir then
    Ret [of_ascii "notes.txt"; of_ascii "radio_20241231_090000.json";
         example_saved; of_ascii "broken.json"]
  else Raise OtherError.

Definition example_getmtime (path : str) : py float :=
  if str_eqb path (example_join example_dir example_saved)
  then Ret (of_decimal 2000 0) else Ret (of_decimal 1000 0).

Definition example_load (path : str) : py (Dict.dict str) :=
  if str_eqb path (example_join example_dir example_saved) then
    Ret [(of_ascii "query", of_ascii "tv");
         (of_ascii "timestamp", of_ascii "2025-01-01 10:00:00")]
  else if str_eqb path (example_join example_dir (of_ascii "broken.json")) then
    Raise ValueError
  else
    Ret [(of_ascii "query", of_ascii "radio");
         (of_ascii "timestamp", of_ascii "2024-12-31 09:00:00")].

Definition example_write (path : str) (formatted : output) : py unit := Ret tt.

(** * Properties *)

(** ** Facts on floats *)

(** Case analysis on the comparisons of exponents and mantissas that
    [SFcompare] performs. *)
Ltac float_cases :=
  unfold flt, SFltb, SFcompare; rewrite ?Pos.compare_cont_spec; simpl;
  repeat match goal with
         | |- context [match ?s with true => _ | false => _ end] =>
             is_var s; destruct s; simpl
         end;
  repeat match goal with
         | |- context [(?a ?= ?b)%Z] => destruct (Z.compare_spec a b); simpl
         | |- context [(?a ?= ?b)%positive] => destruct (Pos.compare_spec a b); simpl
         end;
  intros; try congruence; try lia.

Lemma flt_irrefl (x : float) : flt x x = false.
Proof. destruct x; float_cases. Qed.

Lemma flt_trans (x y z : float) :
  flt x y = true -> flt y z = true -> flt x z = true.
Proof. destruct x, y, z; float_cases. Qed.

Lemma flt_asym (x y : float) : flt x y = true -> flt y x = false.
Proof. destruct x, y; float_cases. Qed.

(** [x < y <= z] gives [x < z] when [z] is a number. *)
Lemma flt_le_trans (x y z : float) :
  is_nan z = false -> flt x y = true -> flt z y = false -> flt x z = true.
Proof. destruct x, y, z; float_cases. Qed.

(** [x <= y <= z] gives [x <= z] when [y] is a number. *)
Lemma fle_trans (x y z : float) :
  is_nan y = false -> flt y x = false -> flt z y = false -> flt z x = false.
Proof. destruct x, y, z; float_cases. Qed.

(** Nothing is above [inf]. *)
Lemma flt_inf (x : float) : flt inf x = false.
Proof. destruct x; float_cases. Qed.

Section MinFrom.

Context {A : Type} (key : A -> float).

Lemma min_from_first_min (l done : list A) (best : A) :
  Forall (fun r => is_nan (key r) = false) (done ++ l) ->
  first_min key done best ->
  first_min key (done ++ l) (min_from key best l).
Proof.
  revert done best. induction l as [|x rest IH]; intros done best Hnan Hmin.
  - simpl. rewrite app_nil_r. exact Hmin.
  - simpl. replace (done ++ x :: rest) with ((done ++ [x]) ++ rest) in *
      by (rewrite <- app_assoc; reflexivity).
    assert (Hd : Forall (fun r => is_nan (key r) = false) done).
    { apply Forall_app in Hnan as [Hnan _]. apply Forall_app in Hnan as [Hnan _].
      exact Hnan. }
    destruct Hmin as (i & Hi & Hlow & Hfirst).
    destruct (flt (key x) (key best)) eqn:Hlt; apply IH; try exact Hnan.
    + exists (List.length done). split; [|split].
      * rewrite nth_error_app2 by lia. rewrite Nat.sub_diag. reflexivity.
      * intros r Hr. apply in_app_or in Hr as [Hr | [<- | []]].
        -- destruct (flt (key r) (key x)) eqn:E; [|reflexivity].
           pose proof (flt_trans _ _ _ E Hlt) as T.
           rewrite (Hlow r Hr) in T. discriminate.
        -- apply flt_irrefl.
      * intros j r Hj Hlen. rewrite nth_error_app1 in Hj by lia.
        apply nth_error_In in Hj as Hr.
        apply flt_le_trans with (y := key best); auto.
        rewrite Forall_forall in Hd. auto.
    + exists i. split; [|split].
      * rewrite nth_error_app1; [exact Hi|]. apply nth_error_Some. congruence.
      * intros r Hr. apply in_app_or in Hr as [Hr | [<- | []]]; auto.
      * intros j r Hj Hlen. apply Hfirst with (j := j); [|exact Hlen].
        rewrite nth_error_app1 in Hj; [exact Hj|].
        assert (i < List.length done)%nat by (apply nth_error_Some; congruence). lia.
Qed.

(** The builtin [min] returns the first element with the lowest key. *)
Lemma min_from_spec (x : A) (l : list A) :
  Forall (fun r => is_nan (key r) = false) (x :: l) ->
  first_min key (x :: l) (min_from key x l).
Proof.
  intros Hnan. apply (min_from_first_min l [x] x Hnan).
  exists 0%nat. split; [reflexivity|]. split.
  - intros r [<- | []]. apply flt_irrefl.
  - intros j r _ Hj. lia.
Qed.

Lemma first_min_In (l : list A) (b : A) : first_min key l b -> In b l.
Proof. intros (i & Hi & _). eapply nth_error_In; eauto. Qed.

End MinFrom.

(** ** Facts on strings and dictionaries *)

Lemma str_eqb_eq (a b : str) : str_eqb a b = true <-> a = b.
Proof.
  revert b. induction a as [|x a IH]; intros [|y b]; simpl; split;
    try congruence; try reflexivity.
  - intros H. apply andb_true_iff in H as [H1 H2].
    apply N.eqb_eq in H1. apply IH in H2. congruence.
  - intros H. injection H as -> ->. rewrite N.eqb_refl. simpl. apply IH. reflexivity.
Qed.

Lemma str_eqb_refl (a : str) : str_eqb a a = true.
Proof. apply str_eqb_eq. reflexivity. Qed.

Lemma str_eqb_neq (a b : str) : a <> b -> str_eqb a b = false.
Proof.
  intros H. destruct (str_eqb a b) eqn:E; [|reflexivity].
  apply str_eqb_eq in E. contradiction.
Qed.

Section DictFacts.

Context {V : Type}.

Lemma get_set_eq (k : str) (v : V) (d : Dict.dict V) :
  Dict.get k (Dict.set k v d) = Some v.
Proof.
  induction d as [|[k' v'] d IH]; simpl.
  - rewrite str_eqb_refl. reflexivity.
  - destruct (str_eqb k k') eqn:E; simpl; rewrite ?str_eqb_refl, ?E; auto.
Qed.

Lemma get_set_ne (k k' : str) (v : V) (d : Dict.dict V) :
  k <> k' -> Dict.get k (Dict.set k' v d) = Dict.get k d.
Proof.
  intros Hne. induction d as [|[k2 v2] d IH]; simpl.
  - rewrite str_eqb_neq by exact Hne. reflexivity.
  - destruct (str_eqb k' k2) eqn:E; simpl.
    + apply str_eqb_eq in E. subst k2.
      rewrite str_eqb_neq by exact Hne. reflexivity.
    + destruct (str_eqb k k2); auto.
Qed.

End DictFacts.

(** ** Aggregation: [_find_best_deals] *)


Lemma item_set_eq k v d : item (Dict.set k v d) k = v.
Proof. unfold item. rewrite get_set_eq. reflexivity. Qed.

Lemma item_set_ne k k' v d : k <> k' -> item (Dict.set k' v d) k = item d k.
Proof. intros H. unfold item. rewrite get_set_ne by exact H. reflexivity. Qed.

Lemma item_group_other results todo bd s :
  ~ In s todo -> item (group_by_site results todo bd) s = item bd s.
Proof.
  revert bd. induction todo as [|t todo IH]; intros bd Hs; simpl; [reflexivity|].
  assert (s <> t) by (intros ->; apply Hs; left; reflexivity).
  assert (~ In s todo) by (intros Hin; apply Hs; right; exact Hin).
  destruct (site_results results t); rewrite IH by assumption; [reflexivity|].
  apply item_set_ne. assumption.
Qed.

Lemma item_group_in results todo bd s :
  NoDup todo -> In s todo ->
  item (group_by_site results todo bd) s =
  match site_results results s with
  | [] => item bd s
  | x :: others => Some (best_of s x others)
  end.
Proof.
  revert bd. induction todo as [|t todo IH]; intros bd Hnd Hs; [destruct Hs|].
  inversion Hnd as [|? ? Hnotin Hnd']; subst.
  destruct Hs as [-> | Hs]; simpl.
  - destruct (site_results results s) as [|x others].
    + apply item_group_other. exact Hnotin.
    + rewrite item_group_other by exact Hnotin. apply item_set_eq.
  - assert (s <> t) by (intros ->; contradiction).
    destruct (site_results results t) as [|y ys]; rewrite IH by assumption.
    + reflexivity.
    + destruct (site_results results s); [|reflexivity].
      apply item_set_ne. assumption.
Qed.

Lemma NoDup_sites : NoDup sites.
Proof.
  repeat constructor; simpl; intros H;
    repeat (destruct H as [H | H]; [discriminate H|]); exact H.
Qed.

Lemma melhor_oferta_not_site s : In s sites -> s <> melhor_oferta.
Proof.
  intros H. simpl in H.
  repeat (destruct H as [<- | H]; [discriminate|]). destruct H.
Qed.

(** The entry of a configured site after the grouping loop. *)
Lemma item_grouped results s :
  In s sites ->
  item (group_by_site results sites
          [(google_shopping, None); (mercado_livre, None); (kabum, None);
           (melhor_oferta, None)]) s =
  match site_results results s with
  | [] => None
  | x :: others => Some (best_of s x others)
  end.
Proof.
  intros Hs. rewrite item_group_in by (exact NoDup_sites || exact Hs).
  destruct (site_results results s); [|reflexivity].
  simpl in Hs. repeat (destruct Hs as [<- | Hs]; [reflexivity|]). destruct Hs.
Qed.

Lemma item_find_best_deals results s :
  In s sites ->
  item (_find_best_deals results) s =
  match site_results results s with
  | [] => None
  | x :: others => Some (best_of s x others)
  end.
Proof.
  intros Hs. unfold _find_best_deals.
  destruct (valid_deals _) eqn:E.
  - apply item_grouped. exact Hs.
  - rewrite item_set_ne by (apply melhor_oferta_not_site; exact Hs).
    apply item_grouped. exact Hs.
Qed.

Lemma valid_deals_set_melhor v bd :
  valid_deals (Dict.set melhor_oferta v bd) = valid_deals bd.
Proof.
  unfold valid_deals. f_equal. apply map_ext_in. intros s Hs.
  rewrite item_set_ne by (apply melhor_oferta_not_site; exact Hs). reflexivity.
Qed.

Lemma item_melhor_grouped results :
  item (group_by_site results sites
          [(google_shopping, None); (mercado_livre, None); (kabum, None);
           (melhor_oferta, None)]) melhor_oferta = None.
Proof.
  rewrite item_group_other; [reflexivity|].
  simpl. intros H. repeat (destruct H as [H | H]; [discriminate H|]). exact H.
Qed.

(** The overall best deal is the builtin [min] of the valid deals. *)
Lemma item_melhor_oferta results :
  item (_find_best_deals results) melhor_oferta =
  match valid_deals (_find_best_deals results) with
  | [] => None
  | x :: others => Some (min_from preco x others)
  end.
Proof.
  unfold _find_best_deals.
  destruct (valid_deals _) as [|x others] eqn:E.
  - rewrite E. apply item_melhor_grouped.
  - rewrite valid_deals_set_melhor, E. apply item_set_eq.
Qed.

Lemma min_from_In {A : Type} (key : A -> float) (l : list A) (best : A) :
  In (min_from key best l) (best :: l).
Proof.
  revert best. induction l as [|x rest IH]; intros best; simpl; [auto|].
  destruct (flt (key x) (key best)).
  - right. apply IH.
  - destruct (IH best) as [H | H]; auto.
Qed.

Lemma site_results_priced results s :
  priced results -> priced (site_results results s).
Proof.
  unfold priced, site_results. rewrite !Forall_forall.
  intros H r Hr. apply filter_In in Hr as [Hr _]. auto.
Qed.

Lemma valid_deals_In bd d :
  In d (valid_deals bd) <-> exists s, In s sites /\ item bd s = Some d.
Proof.
  unfold valid_deals. rewrite in_concat. split.
  - intros (l & Hl & Hd). apply in_map_iff in Hl as (s & <- & Hs).
    exists s. split; [exact Hs|].
    destruct (item bd s); [destruct Hd as [<- | []]; reflexivity | destruct Hd].
  - intros (s & Hs & Hi). exists [d]. split; [|left; reflexivity].
    apply in_map_iff. exists s. rewrite Hi. auto.
Qed.

Lemma valid_deals_priced results :
  priced results -> priced (valid_deals (_find_best_deals results)).
Proof.
  intros Hp. unfold priced. rewrite Forall_forall. intros d Hd.
  apply valid_deals_In in Hd as (s & Hs & Hi).
  rewrite item_find_best_deals in Hi by exact Hs.
  destruct (site_results results s) as [|x others] eqn:E; [discriminate|].
  injection Hi as <-. simpl.
  pose proof (site_results_priced results s Hp) as Hsp.
  rewrite E in Hsp. unfold priced in Hsp. rewrite Forall_forall in Hsp.
  apply Hsp. apply min_from_In.
Qed.

(** C1. For every list of scraped candidates (their prices are numbers),
    each configured site gets as best deal the first of its candidates
    with the lowest price, with its cart link attached, or no deal (the
    no-offer entry once formatted) when it has no candidate; the overall
    best deal is the first lowest-priced deal among the sites' best deals
    taken in the configured order.  For best prices A:100, B:80 and no
    candidate for the third site, the overall best is B at 80 and the
    third site's entry is the no-offer entry. *)
Theorem find_best_deals_selects_minimum (results : list product) :
  priced results ->
  let best_deals := _find_best_deals results in
  (forall s, In s sites ->
     (site_results results s = [] /\ item best_deals s = None /\
      site_entry (item best_deals s) = no_offer) \/
     (exists b, first_min preco (site_results results s) b /\
                item best_deals s =
                Some (set_cart_link b (ProductScraper.get_cart_link (link b) s)))) /\
  ((valid_deals best_deals = [] /\ item best_deals melhor_oferta = None) \/
   (exists b, first_min preco (valid_deals best_deals) b /\
              item best_deals melhor_oferta = Some b)) /\
  (let example := _find_best_deals [deal_a; deal_b] in
   option_map site (item example melhor_oferta) = Some mercado_livre /\
   option_map preco (item example melhor_oferta) = Some (of_decimal 80 0) /\
   site_entry (item example kabum) = no_offer).
Proof.
  intros Hp best_deals. split; [|split].
  - intros s Hs. subst best_deals. rewrite item_find_best_deals by exact Hs.
    pose proof (site_results_priced results s Hp) as Hsp.
    destruct (site_results results s) as [|x others].
    + left. auto.
    + right. exists (min_from preco x others). split; [|reflexivity].
      apply min_from_spec. exact Hsp.
  - subst best_deals. rewrite item_melhor_oferta.
    pose proof (valid_deals_priced results Hp) as Hvp.
    destruct (valid_deals (_find_best_deals results)) as [|x others].
    + left. auto.
    + right. exists (min_from preco x others). split; [|reflexivity].
      apply min_from_spec. exact Hvp.
  - vm_compute. auto.
Qed.

Lemma find_best_deals_selects_minimum_witness :
  priced [deal_a; deal_b] /\
  exists b, first_min preco (valid_deals (_find_best_deals [deal_a; deal_b])) b /\
            item (_find_best_deals [deal_a; deal_b]) melhor_oferta = Some b.
Proof.
  assert (Hp : priced [deal_a; deal_b]) by (repeat constructor).
  split; [exact Hp|].
  destruct (find_best_deals_selects_minimum [deal_a; deal_b] Hp)
    as (_ & [[H _] | H] & _).
  - vm_compute in H. discriminate H.
  - exact H.
Defined.

(** ** Aggregation: [_format_results] *)

Lemma format_results_inv best_deals query now out :
  _format_results best_deals query now = Ret out ->
  results out = entries best_deals /\
  match item best_deals melhor_oferta with
  | None => best_overall out = None
  | Some best =>
      exists b, best_overall out = Some b /\
                best_site b = site best /\
                best_preco_valor b = preco best /\
                _calculate_savings (preco best) (entries best_deals) = Ret (economia b)
  end.
Proof.
  unfold _format_results.
  change (fold_left _ _ []) with (entries best_deals).
  destruct (item best_deals melhor_oferta) as [best|].
  - destruct (_calculate_savings (preco best) (entries best_deals)) as [econ|e] eqn:E;
      simpl; [|discriminate].
    intros H. injection H as <-. simpl. split; [reflexivity|].
    eexists. split; [reflexivity|]. simpl. auto.
  - intros H. injection H as <-. simpl. auto.
Qed.

Lemma get_entries best_deals s info :
  Dict.get s (entries best_deals) = Some info ->
  In s sites /\ info = site_entry (item best_deals s).
Proof.
  unfold entries. simpl.
  repeat (destruct (str_eqb s _) eqn:E;
          [apply str_eqb_eq in E; subst s; intros H; injection H as <-;
           split; [simpl; auto | reflexivity] | clear E]).
  discriminate.
Qed.

Lemma get_entries_site best_deals s :
  In s sites -> Dict.get s (entries best_deals) = Some (site_entry (item best_deals s)).
Proof.
  intros H. simpl in H.
  repeat (destruct H as [<- | H]; [reflexivity|]). destruct H.
Qed.

Lemma site_entry_offer (d : product) : site_entry (Some d) <> no_offer.
Proof. intros H. apply (f_equal info_preco) in H. simpl in H. discriminate H. Qed.

Lemma valid_deals_nil bd :
  valid_deals bd = [] <-> forall s, In s sites -> item bd s = None.
Proof.
  split.
  - intros H s Hs. destruct (item bd s) as [d|] eqn:E; [|reflexivity].
    assert (In d (valid_deals bd)) by (apply valid_deals_In; eauto).
    rewrite H in *. contradiction.
  - intros H. destruct (valid_deals bd) as [|d l] eqn:E; [reflexivity|].
    assert (Hd : In d (valid_deals bd)) by (rewrite E; left; reflexivity).
    apply valid_deals_In in Hd as (s & Hs & Hi). rewrite H in Hi by exact Hs.
    discriminate.
Qed.

Lemma item_none_iff_no_candidate scraped s :
  In s sites ->
  (item (_find_best_deals scraped) s = None <-> site_results scraped s = []).
Proof.
  intros Hs. rewrite item_find_best_deals by exact Hs.
  destruct (site_results scraped s); split; congruence.
Qed.

(** C2. In every aggregated result of a search over scraped candidates,
    [best_overall] is null exactly when every configured site has the
    no-offer entry (that is, produced no candidate); and when it is not
    null, its price is the price of one of the per-site entries and no
    per-site entry, the no-offer entries carrying [inf], has a lower
    price. *)
Theorem best_overall_is_minimum_of_entries
    (scraped : list product) (query now : str) (out : output) :
  priced scraped ->
  _format_results (_find_best_deals scraped) query now = Ret out ->
  (best_overall out = None <->
   forall s, In s sites -> Dict.get s (results out) = Some no_offer) /\
  (best_overall out = None <->
   forall s, In s sites -> site_results scraped s = []) /\
  preco_valor no_offer = inf /\
  (forall b, best_overall out = Some b ->
     (exists s info, In s sites /\ Dict.get s (results out) = Some info /\
                     preco_valor info = best_preco_valor b) /\
     (forall s info, Dict.get s (results out) = Some info ->
                     flt (preco_valor info) (best_preco_valor b) = false)).
Proof.
  intros Hp Hfmt. apply format_results_inv in Hfmt as [Hres Hbest].
  rewrite Hres. rewrite item_melhor_oferta in Hbest.
  pose proof (valid_deals_priced scraped Hp) as Hvp.
  pose proof (valid_deals_nil (_find_best_deals scraped)) as Hnil.
  destruct (valid_deals (_find_best_deals scraped)) as [|x others] eqn:Hv.
  - assert (Hall : forall s, In s sites -> item (_find_best_deals scraped) s = None)
      by (apply Hnil; reflexivity).
    split; [|split; [|split]].
    + split; [|intros _; exact Hbest].
      intros _ s Hs. rewrite get_entries_site by exact Hs.
      rewrite Hall by exact Hs. reflexivity.
    + split; [|intros _; exact Hbest].
      intros _ s Hs. apply item_none_iff_no_candidate; auto.
    + reflexivity.
    + intros b Hb. congruence.
  - destruct Hbest as (b & Hb & _ & Hprice & _).
    pose proof (min_from_spec preco x others Hvp) as Hmin.
    set (best := min_from preco x others) in *.
    pose proof (first_min_In _ _ _ Hmin) as Hin.
    rewrite <- Hv in Hin. apply valid_deals_In in Hin as (s0 & Hs0 & Hi0).
    split; [|split; [|split]].
    + split; [congruence|]. intros H. exfalso.
      specialize (H s0 Hs0). rewrite get_entries_site in H by exact Hs0.
      rewrite Hi0 in H. apply (site_entry_offer best). congruence.
    + split; [congruence|]. intros H. exfalso.
      apply (item_none_iff_no_candidate scraped s0 Hs0) in H; [|exact Hs0].
      congruence.
    + reflexivity.
    + intros b' Hb'. rewrite Hb in Hb'. injection Hb' as <-. split.
      * exists s0, (site_entry (Some best)). rewrite get_entries_site by exact Hs0.
        rewrite Hi0. rewrite Hprice. auto.
      * intros s info Hget. apply get_entries in Hget as [Hs ->].
        rewrite Hprice.
        destruct (item (_find_best_deals scraped) s) as [d|] eqn:Hd; simpl.
        -- destruct Hmin as (_ & _ & Hlow & _). apply Hlow.
           rewrite <- Hv. apply valid_deals_In. eauto.
        -- apply flt_inf.
Qed.

Lemma best_overall_is_minimum_of_entries_witness :
  exists out b,
    _format_results (_find_best_deals [deal_a; deal_b]) [] [] = Ret out /\
    best_overall out = Some b /\
    forall s info, Dict.get s (results out) = Some info ->
                   flt (preco_valor info) (best_preco_valor b) = false.
Proof.
  assert (Hp : priced [deal_a; deal_b]) by (repeat constructor).
  destruct (_format_results (_find_best_deals [deal_a; deal_b]) [] []) as [out|e] eqn:E;
    [|vm_compute in E; discriminate E].
  destruct (best_overall out) as [b|] eqn:Hb.
  - exists out, b. split; [reflexivity|]. split; [exact Hb|].
    destruct (best_overall_is_minimum_of_entries [deal_a; deal_b] [] [] out Hp E)
      as (_ & _ & _ & H).
    apply (H b Hb).
  - exfalso. vm_compute in E. injection E as <-. discriminate Hb.
Defined.

Lemma other_prices_In best_price results p :
  In p (other_prices best_price results) <->
  exists s info, In (s, info) results /\ preco_valor info = p /\
                 fne p inf = true /\ fgt p best_price = true.
Proof.
  unfold other_prices. rewrite in_map_iff. split.
  - intros (i & <- & Hi). apply filter_In in Hi as [Hi Hc].
    apply in_map_iff in Hi as ([s i'] & <- & Hin).
    apply andb_true_iff in Hc as [H1 H2]. exists s, i'. auto.
  - intros (s & info & Hin & <- & H1 & H2). exists info. split; [reflexivity|].
    apply filter_In. split.
    + apply in_map_iff. exists (s, info). auto.
    + rewrite H1, H2. reflexivity.
Qed.

Lemma other_prices_numbers best_price results :
  Forall (fun p => is_nan (id p) = false) (other_prices best_price results).
Proof.
  rewrite Forall_forall. intros p Hp.
  apply other_prices_In in Hp as (_ & _ & _ & _ & _ & H).
  destruct p; try reflexivity. unfold fgt, flt in H.
  destruct best_price; discriminate H.
Qed.

Lemma calculate_savings_inv best_price results text :
  _calculate_savings best_price results = Ret text ->
  (other_prices best_price results = [] /\ text = unico_preco) \/
  (exists second ratio,
     first_min id (other_prices best_price results) second /\
     fdiv (fsub second best_price) second = Some ratio /\
     text = economia_text (fsub second best_price) (fmul ratio (of_decimal 100 0))).
Proof.
  unfold _calculate_savings.
  pose proof (other_prices_numbers best_price results) as Hn.
  destruct (other_prices best_price results) as [|p rest].
  - intros H. injection H as <-. left. auto.
  - pose proof (min_from_spec id p rest Hn) as Hmin.
    set (second := min_from id p rest) in *.
    destruct (fdiv (fsub second best_price) second) as [q|] eqn:E; simpl;
      [|discriminate].
    intros H. injection H as <-. right. exists second, q. auto.
Qed.

(** C3 (as amended). When the overall best deal is not null, the savings
    line is computed against the lowest per-site price that is finite and
    strictly above the best price: it reports that price minus the best
    price (with the percentage of that price it represents); when no
    per-site price is finite and strictly above the best price -- a single
    offer, or every other offer at the same price -- it is the
    single-price message. *)
Theorem savings_against_next_higher_price
    (scraped : list product) (query now : str) (out : output) (b : best_info) :
  _format_results (_find_best_deals scraped) query now = Ret out ->
  best_overall out = Some b ->
  let higher := other_prices (best_preco_valor b) (results out) in
  (forall p, In p higher <->
     exists s info, In (s, info) (results out) /\ preco_valor info = p /\
                    fne p inf = true /\ fgt p (best_preco_valor b) = true) /\
  (higher = [] -> economia b = unico_preco) /\
  (higher <> [] ->
   exists second ratio,
     first_min id higher second /\
     fdiv (fsub second (best_preco_valor b)) second = Some ratio /\
     economia b = economia_text (fsub second (best_preco_valor b))
                                (fmul ratio (of_decimal 100 0))).
Proof.
  intros Hfmt Hb higher. subst higher.
  apply format_results_inv in Hfmt as [Hres Hbest].
  destruct (item (_find_best_deals scraped) melhor_oferta) as [best|];
    [|congruence].
  destruct Hbest as (b' & Hb' & _ & Hprice & Hsav).
  rewrite Hb in Hb'. injection Hb' as <-.
  rewrite Hres, Hprice. split; [|split].
  - intros p. apply other_prices_In.
  - intros Hnil.
    apply calculate_savings_inv in Hsav as [[_ H] | (s & r & Hm & _)]; auto.
    rewrite Hnil in Hm. destruct Hm as (i & Hi & _). destruct i; discriminate Hi.
  - intros Hne. apply calculate_savings_inv in Hsav as [[H _] | H]; [contradiction|].
    exact H.
Qed.

Lemma savings_against_next_higher_price_witness :
  exists out b second ratio,
    _format_results (_find_best_deals [deal_a; deal_b]) [] [] = Ret out /\
    best_overall out = Some b /\
    first_min id (other_prices (best_preco_valor b) (results out)) second /\
    fdiv (fsub second (best_preco_valor b)) second = Some ratio /\
    economia b = economia_text (fsub second (best_preco_valor b))
                               (fmul ratio (of_decimal 100 0)).
Proof.
  destruct (_format_results (_find_best_deals [deal_a; deal_b]) [] []) as [out|e] eqn:E;
    [|vm_compute in E; discriminate E].
  destruct (best_overall out) as [b|] eqn:Hb;
    [|exfalso; vm_compute in E; injection E as <-; discriminate Hb].
  destruct (savings_against_next_higher_price [deal_a; deal_b] [] [] out b E Hb)
    as (_ & _ & H).
  destruct H as (second & ratio & H).
  - vm_compute in E. injection E as <-. injection Hb as <-. vm_compute. discriminate.
  - exists out, b, second, ratio. split; [reflexivity|]. split; [exact Hb|]. exact H.
Defined.

(** Scraped candidates have a price that is not zero (the scrapers drop
    the others), so the percentage never divides by zero and the
    aggregation returns a result. *)
Lemma format_results_returns (scraped : list product) (query now : str) :
  Forall (fun r => truthy (preco r) = true) scraped ->
  exists out, _format_results (_find_best_deals scraped) query now = Ret out.
Proof.
  intros Hz. unfold _format_results.
  change (fold_left _ _ []) with (entries (_find_best_deals scraped)).
  destruct (item (_find_best_deals scraped) melhor_oferta) as [best|];
    [|eexists; reflexivity].
  unfold _calculate_savings.
  destruct (other_prices _ _) as [|p rest] eqn:E; [eexists; reflexivity|].
  pose proof (min_from_In id rest p) as Hin. rewrite <- E in Hin.
  set (second := min_from id p rest) in *.
  apply other_prices_In in Hin as (s & info & Hentry & Hprice & _).
  assert (Hnz : truthy second = true).
  { unfold id in Hprice. rewrite <- Hprice.
    assert (Hg : Dict.get s (entries (_find_best_deals scraped)) = Some info).
    { simpl in Hentry.
      repeat (destruct Hentry as [Hentry | Hentry];
              [injection Hentry as <- <-; reflexivity|]).
      destruct Hentry. }
    apply get_entries in Hg as [Hs ->].
    rewrite item_find_best_deals by exact Hs.
    destruct (site_results scraped s) as [|x others] eqn:Hsr; [reflexivity|].
    simpl. rewrite Forall_forall in Hz. apply Hz.
    assert (In (min_from preco x others) (site_results scraped s))
      by (rewrite Hsr; apply min_from_In).
    unfold site_results in H. apply filter_In in H as [H _]. exact H. }
  unfold fdiv. destruct second; try discriminate Hnz; simpl; eexists; reflexivity.
Qed.

(** C3, counterexample. With two sites tied at the best price 80, a
    runner-up exists among the other sources (savings 0 by the claim) but
    the code reports the single-price message. *)
Lemma savings_tie_counterexample :
  exists out b,
    _format_results (_find_best_deals [deal_tie; deal_b]) [] [] = Ret out /\
    best_overall out = Some b /\
    economia b = unico_preco /\
    spec_savings (best_site b) (best_preco_valor b) (results out)
    = Ret (economia_text (S754_zero false) (S754_zero false)) /\
    Ret (economia b)
    <> spec_savings (best_site b) (best_preco_valor b) (results out).
Proof.
  eexists. eexists. split; [vm_compute; reflexivity|].
  split; [reflexivity|]. split; [reflexivity|].
  split; [vm_compute; reflexivity|]. vm_compute. discriminate.
Qed.

(** Worked examples of the texts shown to the user. *)
Example preco_text_example : preco_text (of_decimal 123456 2) = of_ascii "R$ 1234,56".
Proof. vm_compute. reflexivity. Qed.

Example economia_example :
  option_map economia (best_overall example_output)
  = Some (of_ascii "Economia de R$ 20,00 (20,0%)").
Proof. vm_compute. reflexivity. Qed.

Example unico_preco_example :
  _calculate_savings (of_decimal 80 0) (entries (_find_best_deals [deal_b]))
  = Ret unico_preco.
Proof. vm_compute. reflexivity. Qed.

(** ** Price normalizers *)

(** *** Searching and replacing characters *)

Lemma rfind_from_range (c : N) (s : str) (i : Z) :
  0 <= i -> rfind_from i c s = -1 \/ i <= rfind_from i c s.
Proof.
  revert i. induction s as [|x rest IH]; intros i Hi; simpl; [auto|].
  destruct (IH (i + 1)) as [H | H]; [lia| |].
  - rewrite H. simpl. destruct (x =? c)%N; auto. right. lia.
  - destruct (0 <=? rfind_from (i + 1) c rest) eqn:E; [right; lia|].
    apply Z.leb_gt in E. lia.
Qed.

Lemma rfind_from_absent (c : N) (s : str) (i : Z) :
  ~ In c s -> rfind_from i c s = -1.
Proof.
  revert i. induction s as [|x rest IH]; intros i Hn; simpl; [reflexivity|].
  rewrite IH by (intros H; apply Hn; right; exact H). simpl.
  destruct (N.eqb_spec x c); [|reflexivity].
  exfalso. apply Hn. left. assumption.
Qed.

Lemma rfind_from_present (c : N) (s : str) (i : Z) :
  0 <= i -> In c s -> i <= rfind_from i c s.
Proof.
  revert i. induction s as [|x rest IH]; intros i Hi Hin; [destruct Hin|].
  simpl. destruct (0 <=? rfind_from (i + 1) c rest) eqn:E.
  - destruct (rfind_from_range c rest (i + 1)) as [H | H]; [lia| |lia].
    rewrite H in E. discriminate E.
  - destruct Hin as [-> | Hin].
    + rewrite N.eqb_refl. lia.
    + specialize (IH (i + 1) ltac:(lia) Hin). apply Z.leb_gt in E. lia.
Qed.

Lemma rfind_absent (c : N) (s : str) : ~ In c s -> rfind c s = -1.
Proof. apply rfind_from_absent. Qed.

Lemma rfind_present (c : N) (s : str) : In c s -> 0 <= rfind c s.
Proof. apply rfind_from_present. lia. Qed.

Lemma rfind_neg_absent (c : N) (s : str) : rfind c s < 0 -> ~ In c s.
Proof. intros H Hin. apply rfind_present in Hin. lia. Qed.

Lemma remove_char_absent (c : N) (s : str) : ~ In c s -> remove_char c s = s.
Proof.
  induction s as [|x rest IH]; intros Hn; simpl; [reflexivity|].
  destruct (N.eqb_spec x c) as [-> | Hne]; simpl.
  - exfalso. apply Hn. left. reflexivity.
  - rewrite IH; [reflexivity|]. intros H. apply Hn. right. exact H.
Qed.

Lemma replace_char_absent (c d : N) (s : str) : ~ In c s -> replace_char c d s = s.
Proof.
  induction s as [|x rest IH]; intros Hn; simpl; [reflexivity|].
  destruct (N.eqb_spec x c) as [-> | Hne].
  - exfalso. apply Hn. left. reflexivity.
  - rewrite IH; [reflexivity|]. intros H. apply Hn. right. exact H.
Qed.

Lemma count_char_zero (c : N) (s : str) : count_char c s = 0%nat <-> ~ In c s.
Proof.
  unfold count_char. induction s as [|x rest IH]; simpl; [tauto|].
  destruct (N.eqb_spec c x) as [-> | Hne]; simpl.
  - split; [discriminate|]. intros H. exfalso. apply H. left. reflexivity.
  - rewrite IH. split; intros H; [intros [E | E]; [congruence | tauto] | tauto].
Qed.

Lemma replace_first_once (c d : N) (s : str) :
  (count_char c s <= 1)%nat -> replace_first c d s = replace_char c d s.
Proof.
  unfold count_char. induction s as [|x rest IH]; simpl; [reflexivity|].
  rewrite (N.eqb_sym c x). destruct (N.eqb_spec x c) as [-> | Hne]; simpl; intros H.
  - rewrite replace_char_absent; [reflexivity|].
    apply count_char_zero. unfold count_char. lia.
  - rewrite IH by exact H. reflexivity.
Qed.

Lemma count_char_rev (c : N) (s : str) : count_char c (rev s) = count_char c s.
Proof. unfold count_char. rewrite filter_rev, length_rev. reflexivity. Qed.

Lemma replace_last_once (c d : N) (s : str) :
  (count_char c s <= 1)%nat -> replace_last c d s = replace_char c d s.
Proof.
  intros H. unfold replace_last.
  rewrite replace_first_once by (rewrite count_char_rev; exact H).
  unfold replace_char. rewrite map_rev, rev_involutive. reflexivity.
Qed.

Lemma count_char_remove (c d : N) (s : str) :
  c <> d -> count_char c (remove_char d s) = count_char c s.
Proof.
  intros Hne. unfold count_char, remove_char.
  induction s as [|x rest IH]; simpl; [reflexivity|].
  destruct (N.eqb_spec x d) as [-> | Hx]; simpl.
  - destruct (N.eqb_spec c d); [contradiction|]. exact IH.
  - destruct (c =? x)%N; simpl; rewrite IH; reflexivity.
Qed.

(** *** Reading a number *)

Lemma digits_value_all_digits (s : str) (acc n : N) :
  digits_value acc s = Some n -> forall c, In c s -> is_digit c = true.
Proof.
  revert acc. induction s as [|x rest IH]; intros acc H c Hc; [destruct Hc|].
  simpl in H. unfold is_digit.
  destruct (digit_value x) as [d|] eqn:E; [|discriminate].
  destruct Hc as [<- | Hc]; [rewrite E; reflexivity|].
  apply (IH _ H c Hc).
Qed.

Lemma period_not_digit : is_digit period = false.
Proof. reflexivity. Qed.

Lemma comma_not_digit : is_digit comma = false.
Proof. reflexivity. Qed.

Lemma split_period_spec (s ip : str) (r : option str) :
  split_period s = (ip, r) ->
  ~ In period ip /\
  match r with
  | None => s = ip
  | Some fp => s = ip ++ period :: fp
  end.
Proof.
  revert ip r. induction s as [|x rest IH]; intros ip r H; simpl in H.
  - injection H as <- <-. auto.
  - destruct (N.eqb_spec x period) as [-> | Hne].
    + injection H as <- <-. auto.
    + destruct (split_period rest) as [a b0]. injection H as <- <-.
      destruct (IH a b0 eq_refl) as [Hn Hs]. split.
      * intros [E | E]; [congruence | tauto].
      * destruct b0; simpl; congruence.
Qed.

(** A text that [float] accepts has a digit and at most one period. *)
Lemma float_of_str_some (s : str) (x : float) :
  float_of_str s = Some x ->
  (exists c, In c s /\ is_digit c = true) /\ (count_char period s <= 1)%nat.
Proof.
  unfold float_of_str. destruct (split_period s) as [ip r] eqn:E.
  apply split_period_spec in E as [Hip Hs].
  destruct r as [fp|].
  - destruct (ip ++ fp) as [|c l] eqn:El; [discriminate|].
    destruct (digits_value 0 (c :: l)) as [n|] eqn:Ed; [|discriminate].
    intros _. pose proof (digits_value_all_digits _ _ _ Ed) as Hall.
    rewrite <- El in Hall. split.
    + exists c. split; [|apply Hall; rewrite El; left; reflexivity].
      assert (Hc : In c (ip ++ fp)) by (rewrite El; left; reflexivity).
      subst s. apply in_app_or in Hc as [Hc | Hc]; apply in_or_app; simpl; auto.
    + subst s. unfold count_char. rewrite filter_app, length_app. simpl.
      assert (H1 : count_char period ip = 0%nat) by (apply count_char_zero; exact Hip).
      assert (H2 : count_char period fp = 0%nat).
      { apply count_char_zero. intros Hin.
        specialize (Hall period (in_or_app _ _ _ (or_intror Hin))).
        rewrite period_not_digit in Hall. discriminate. }
      unfold count_char in H1, H2. rewrite H1, H2. simpl. lia.
  - subst s. destruct ip as [|c l]; [discriminate|].
    destruct (digits_value 0 (c :: l)) as [n|] eqn:Ed; [|discriminate].
    intros _. split.
    + exists c. split; [left; reflexivity|].
      apply (digits_value_all_digits _ _ _ Ed). left. reflexivity.
    + apply count_char_zero in Hip. lia.
Qed.

Lemma float_of_str_nil : float_of_str [] = None.
Proof. reflexivity. Qed.

(** [_format_price] is [float] on the cleaned text; the empty text and
    the exceptions of [float] both give [None]. *)
Lemma format_price_clean (s : str) :
  s <> [] -> _format_price (Some s) = float_of_str (clean_price s).
Proof.
  intros Hs. unfold _format_price. destruct s as [|c s]; [contradiction|].
  destruct (clean_price (c :: s)); reflexivity.
Qed.

(** *** The separator step *)

Lemma count_filter_keep (P : N -> bool) (c : N) (s : str) :
  P c = true -> count_char c (List.filter P s) = count_char c s.
Proof.
  intros Hc. unfold count_char. induction s as [|x rest IH]; simpl; [reflexivity|].
  destruct (N.eqb_spec c x) as [<- | Hne].
  - rewrite Hc. simpl. rewrite N.eqb_refl. simpl. rewrite IH. reflexivity.
  - destruct (P x); simpl; [|exact IH].
    destruct (N.eqb_spec c x); [contradiction|]. exact IH.
Qed.

Lemma count_replace_char (c d : N) (s : str) :
  c <> d -> ~ In d s ->
  count_char d (replace_char c d s) = count_char c s.
Proof.
  intros Hcd. unfold count_char, replace_char.
  induction s as [|x rest IH]; intros Hn; simpl; [reflexivity|].
  assert (Hx : x <> d) by (intros ->; apply Hn; left; reflexivity).
  assert (Hr : ~ In d rest) by (intros H; apply Hn; right; exact H).
  destruct (N.eqb_spec x c) as [-> | Hne].
  - rewrite !N.eqb_refl. simpl. rewrite IH by exact Hr. reflexivity.
  - destruct (N.eqb_spec d x); [congruence|].
    destruct (N.eqb_spec c x); [congruence|]. apply IH. exact Hr.
Qed.

Lemma remove_char_not_In (c : N) (s : str) : ~ In c (remove_char c s).
Proof.
  unfold remove_char. intros H. apply filter_In in H as [_ H].
  rewrite N.eqb_refl in H. discriminate.
Qed.

(** Two different characters do not share their last position. *)
Lemma rfind_from_distinct (c d : N) (s : str) (i : Z) :
  c <> d -> 0 <= i -> rfind_from i c s = rfind_from i d s ->
  rfind_from i c s = -1.
Proof.
  intros Hcd. revert i. induction s as [|x rest IH]; intros i Hi; simpl; [auto|].
  specialize (IH (i + 1) ltac:(lia)).
  destruct (rfind_from_range c rest (i + 1)) as [Hc | Hc]; [lia| |];
  destruct (rfind_from_range d rest (i + 1)) as [Hd | Hd]; try lia.
  - rewrite Hc, Hd. simpl.
    destruct (N.eqb_spec x c), (N.eqb_spec x d); try congruence; lia.
  - rewrite Hc. simpl.
    replace (0 <=? rfind_from (i + 1) d rest) with true
      by (symmetry; apply Z.leb_le; lia).
    destruct (x =? c)%N; intros; lia.
  - rewrite Hd. simpl.
    replace (0 <=? rfind_from (i + 1) c rest) with true
      by (symmetry; apply Z.leb_le; lia).
    destruct (x =? d)%N; intros; lia.
  - replace (0 <=? rfind_from (i + 1) d rest) with true
      by (symmetry; apply Z.leb_le; lia).
    replace (0 <=? rfind_from (i + 1) c rest) with true
      by (symmetry; apply Z.leb_le; lia).
    intros H. specialize (IH H). lia.
Qed.

(** In the last branch of the separator step the text has no comma. *)
Lemma no_separator_branch (t : str) :
  (rfind comma t >? rfind period t) = false ->
  (rfind period t >? rfind comma t) = false ->
  ~ In comma t.
Proof.
  intros E1 E2. rewrite Z.gtb_ltb, Z.ltb_ge in E1, E2.
  apply rfind_neg_absent.
  assert (H : rfind_from 0 comma t = -1).
  { apply (rfind_from_distinct comma period); [discriminate|lia|].
    unfold rfind in *. lia. }
  unfold rfind. lia.
Qed.

Lemma disambiguate_agrees (t : str) :
  (count_char comma t <= 1)%nat \/ rfind comma t < rfind period t ->
  disambiguate t = spec_disambiguate t.
Proof.
  intros H. unfold disambiguate, spec_disambiguate.
  destruct (rfind comma t >? rfind period t) eqn:E1.
  - destruct H as [H | H]; [|apply Z.gtb_lt in E1; lia].
    rewrite replace_last_once; [reflexivity|].
    rewrite count_char_remove by discriminate. exact H.
  - destruct (rfind period t >? rfind comma t) eqn:E2; [reflexivity|].
    apply remove_char_absent. apply no_separator_branch; assumption.
Qed.

(** With two commas or more after the last period, the cleaned text has
    as many periods. *)
Lemma clean_price_periods (s : str) :
  rfind period (price_text s) < rfind comma (price_text s) ->
  count_char period (clean_price s) = count_char comma (price_text s).
Proof.
  intros H. unfold clean_price, disambiguate.
  apply Z.gtb_lt in H. rewrite H.
  rewrite count_filter_keep by reflexivity.
  rewrite count_replace_char by (discriminate || apply remove_char_not_In).
  apply count_char_remove. discriminate.
Qed.

(** *** The two normalizers *)

Lemma is_space_cases (c : N) :
  is_space c = true ->
  In c [9; 10; 11; 12; 13; 28; 29; 30; 31; 32; 133; 160; 5760; 8192; 8193;
        8194; 8195; 8196; 8197; 8198; 8199; 8200; 8201; 8202; 8232; 8233;
        8239; 8287; 12288]%N.
Proof.
  unfold is_space. intros H.
  repeat (apply orb_true_iff in H; destruct H as [H | H]);
    repeat (apply andb_true_iff in H; destruct H as [? H]);
    repeat match goal with
           | H : (_ <=? _)%N = true |- _ => apply N.leb_le in H
           | H : (_ =? _)%N = true |- _ => apply N.eqb_eq in H
           end;
    simpl; lia.
Qed.

Lemma drops_symbols_digit_or_comma : drops_symbols ProductScraper.digit_or_comma.
Proof.
  split; [|split]; [| |reflexivity].
  - intros c H. apply is_space_cases in H. simpl in H.
    repeat (destruct H as [<- | H]; [reflexivity|]). destruct H.
  - intros c H. unfold is_currency in H.
    repeat (apply orb_true_iff in H; destruct H as [H | H]);
      apply N.eqb_eq in H; subst c; reflexivity.
Qed.

Lemma drops_symbols_eqb (d : N) :
  is_space d = false -> is_currency d = false -> d <> 82%N ->
  drops_symbols (N.eqb d).
Proof.
  intros H1 H2 H3. split; [|split].
  - intros c Hc. destruct (N.eqb_spec d c); [congruence | reflexivity].
  - intros c Hc. destruct (N.eqb_spec d c); [congruence | reflexivity].
  - destruct (N.eqb_spec d 82); [congruence | reflexivity].
Qed.

Section DropsSymbols.

Variable P : N -> bool.
Hypothesis HP : drops_symbols P.

Lemma filter_lstrip (s : str) : List.filter P (lstrip s) = List.filter P s.
Proof.
  induction s as [|c rest IH]; simpl; [reflexivity|].
  destruct (is_space c) eqn:E; [|reflexivity].
  destruct HP as (Hs & _). rewrite (Hs c E). exact IH.
Qed.

Lemma filter_strip (s : str) : List.filter P (strip s) = List.filter P s.
Proof.
  unfold strip, rstrip. rewrite filter_lstrip, filter_rev, filter_lstrip.
  rewrite <- filter_rev, rev_involutive. reflexivity.
Qed.

Lemma filter_remove_currency_aux (n : nat) :
  forall (s : str) (skip : bool),
    (List.length s <= n)%nat ->
    List.filter P (remove_currency_aux skip s) = List.filter P s.
Proof.
  destruct HP as (Hs & Hc & HR).
  induction n as [|n IH]; intros s skip Hlen.
  - destruct s; [reflexivity | simpl in Hlen; lia].
  - destruct s as [|c rest]; [reflexivity|]. simpl in Hlen.
    cbn [remove_currency_aux].
    destruct (skip && is_space c) eqn:E1.
    { apply andb_true_iff in E1 as [_ E1]. simpl. rewrite (Hs c E1).
      apply IH. lia. }
    destruct (is_currency c) eqn:E2.
    { simpl. rewrite (Hc c E2). apply IH. lia. }
    destruct (N.eqb_spec c 82) as [-> | Hne].
    + destruct rest as [|d rest']; [reflexivity|].
      destruct (N.eqb_spec d 36) as [-> | Hd].
      * cbn [List.filter]. rewrite HR.
        assert (H36 : P 36%N = false) by (apply Hc; reflexivity).
        rewrite H36. apply IH. simpl in Hlen. lia.
      * cbn [List.filter]. rewrite IH by lia. reflexivity.
    + cbn [List.filter]. rewrite IH by lia. reflexivity.
Qed.

Lemma filter_remove_currency (s : str) :
  List.filter P (strip (remove_currency s)) = List.filter P s.
Proof.
  rewrite filter_strip. unfold remove_currency.
  apply (filter_remove_currency_aux (List.length s)). lia.
Qed.

End DropsSymbols.

Lemma filter_replace_comma (s : str) :
  ~ In period s ->
  List.filter digit_or_period (replace_char comma period s)
  = replace_char comma period (List.filter ProductScraper.digit_or_comma s).
Proof.
  unfold digit_or_period, ProductScraper.digit_or_comma, replace_char.
  induction s as [|x rest IH]; intros Hn; [reflexivity|].
  assert (Hx : x <> period) by (intros ->; apply Hn; left; reflexivity).
  assert (Hr : ~ In period rest) by (intros H; apply Hn; right; exact H).
  cbn [List.map List.filter].
  destruct (N.eqb_spec x comma) as [-> | Hne].
  - rewrite N.eqb_refl, !orb_true_r. cbn [List.map].
    rewrite N.eqb_refl, IH by exact Hr. reflexivity.
  - destruct (N.eqb_spec x period); [contradiction|]. rewrite !orb_false_r.
    destruct (is_digit x); cbn [List.map]; rewrite IH by exact Hr; [|reflexivity].
    destruct (N.eqb_spec x comma); [contradiction | reflexivity].
Qed.

(** Without a period the separator step turns every comma into a period. *)
Lemma disambiguate_no_period (t : str) :
  ~ In period t -> disambiguate t = replace_char comma period t.
Proof.
  intros Hn. unfold disambiguate.
  rewrite (rfind_absent period t Hn).
  destruct (rfind comma t >? -1) eqn:E.
  - rewrite remove_char_absent by exact Hn. reflexivity.
  - assert (Hc : ~ In comma t).
    { apply rfind_neg_absent. rewrite Z.gtb_ltb, Z.ltb_ge in E.
      destruct (rfind_from_range comma t 0 ltac:(lia)); unfold rfind in *; lia. }
    replace (-1 >? rfind comma t) with false
      by (symmetry; rewrite Z.gtb_ltb, Z.ltb_ge;
          destruct (rfind_from_range comma t 0 ltac:(lia)); unfold rfind in *; lia).
    rewrite remove_char_absent, replace_char_absent by exact Hc. reflexivity.
Qed.

(** The scraper's normalizer never sees a period. *)
Lemma filter_remove_period (t : str) :
  List.filter ProductScraper.digit_or_comma (remove_char period t)
  = List.filter ProductScraper.digit_or_comma t.
Proof.
  unfold remove_char. induction t as [|x rest IH]; [reflexivity|].
  cbn [List.filter]. destruct (N.eqb_spec x period) as [-> | Hne]; cbn [negb].
  - exact IH.
  - cbn [List.filter]. rewrite IH. reflexivity.
Qed.

Lemma format_price_cleaned (s : str) :
  ProductScraper.format_price (Some s)
  = float_of_str (replace_char comma period
                    (List.filter ProductScraper.digit_or_comma s)).
Proof. destruct s; reflexivity. Qed.

(** Unless the last period comes after the last comma, the separator
    step followed by the deletion of the other characters gives the text
    that the scraper's normalizer hands to [float]. *)
Lemma clean_when_comma_last (t : str) :
  rfind period t <= rfind comma t ->
  List.filter digit_or_period (disambiguate t)
  = replace_char comma period (List.filter ProductScraper.digit_or_comma t).
Proof.
  intros H. unfold disambiguate.
  destruct (rfind comma t >? rfind period t) eqn:E1.
  - rewrite filter_replace_comma by apply remove_char_not_In.
    rewrite filter_remove_period. reflexivity.
  - assert (E2 : (rfind period t >? rfind comma t) = false)
      by (rewrite Z.gtb_ltb, Z.ltb_ge; exact H).
    rewrite E2.
    assert (Hc : ~ In comma t) by (apply no_separator_branch; assumption).
    assert (Hp : ~ In period t).
    { apply rfind_neg_absent. rewrite (rfind_absent comma t Hc) in H. lia. }
    rewrite remove_char_absent by exact Hc.
    rewrite <- (replace_char_absent comma period t Hc) at 1.
    apply filter_replace_comma. exact Hp.
Qed.

(** C4 (as amended). The server-side normalizer satisfies the five
    reference cases.  Its separator step follows the last-comma/
    last-period rule of the specification on every text that, once
    currency and qualifier are removed, has at most one comma or has its
    last period after its last comma; with two commas or more after the
    last period every comma becomes a period and the result is absent.
    The scraper's normalizer satisfies four of the reference cases and
    reads 1,234.56 as 1.23456: it has no separator step, a period never
    changes its result and every comma becomes the decimal point, so
    that it follows the rule only on a text whose last period does not
    come after its last comma, with at most one comma, and whose
    qualifier cuts no digit and no comma.  For both the result is
    absent whenever no digit remains. *)
Theorem format_price_reference_cases_and_rule :
  (_format_price (Some (of_ascii "1.234,56")) = Some (of_decimal 123456 2) /\
   _format_price (Some (of_ascii "1,234.56")) = Some (of_decimal 123456 2) /\
   _format_price (Some text_a_vista) = Some (of_decimal 9990 2) /\
   _format_price (Some []) = None /\
   _format_price (Some text_indisponivel) = None) /\
  (forall s : str,
     (count_char comma (price_text s) <= 1)%nat \/
     rfind comma (price_text s) < rfind period (price_text s) ->
     _format_price (Some s) = spec_normalize (Some s)) /\
  (forall s : str,
     rfind period (price_text s) < rfind comma (price_text s) ->
     (2 <= count_char comma (price_text s))%nat ->
     _format_price (Some s) = None) /\
  (forall s : str,
     (forall c, In c (clean_price s) -> is_digit c = false) ->
     _format_price (Some s) = None) /\
  (ProductScraper.format_price (Some (of_ascii "1.234,56"))
   = Some (of_decimal 123456 2) /\
   ProductScraper.format_price (Some (of_ascii "1,234.56"))
   = Some (of_decimal 123456 5) /\
   ProductScraper.format_price (Some text_a_vista) = Some (of_decimal 9990 2) /\
   ProductScraper.format_price (Some []) = None /\
   ProductScraper.format_price (Some text_indisponivel) = None) /\
  (forall s : str,
     ProductScraper.format_price (Some (remove_char period s))
     = ProductScraper.format_price (Some s)) /\
  (forall s : str,
     rfind period (price_text s) <= rfind comma (price_text s) ->
     (count_char comma (price_text s) <= 1)%nat ->
     List.filter ProductScraper.digit_or_comma (price_text s)
     = List.filter ProductScraper.digit_or_comma s ->
     ProductScraper.format_price (Some s) = spec_normalize (Some s)) /\
  (forall s : str,
     (forall c, In c s -> is_digit c = false) ->
     ProductScraper.format_price (Some s) = None).
Proof.
  split; [|split; [|split; [|split; [|split; [|split; [|split]]]]]].
  - split; [|split; [|split; [|split]]]; vm_compute; reflexivity.
  - intros s H. destruct s as [|c s]; [reflexivity|].
    rewrite format_price_clean by discriminate.
    unfold spec_normalize, clean_price.
    rewrite disambiguate_agrees by exact H. reflexivity.
  - intros s H1 H2. destruct s as [|c s]; [reflexivity|].
    rewrite format_price_clean by discriminate.
    destruct (float_of_str (clean_price (c :: s))) as [x|] eqn:E; [|reflexivity].
    apply float_of_str_some in E as [_ E].
    rewrite clean_price_periods in E by exact H1. lia.
  - intros s H. destruct s as [|c s]; [reflexivity|].
    rewrite format_price_clean by discriminate.
    destruct (float_of_str (clean_price (c :: s))) as [x|] eqn:E; [|reflexivity].
    apply float_of_str_some in E as [(d & Hd & Hdig) _].
    rewrite H in Hdig by exact Hd. discriminate.
  - split; [|split; [|split; [|split]]]; vm_compute; reflexivity.
  - intros s. rewrite !format_price_cleaned, filter_remove_period. reflexivity.
  - intros s H1 H2 H3. rewrite format_price_cleaned.
    destruct s as [|c s]; [reflexivity|].
    unfold spec_normalize.
    rewrite <- disambiguate_agrees by (left; exact H2).
    rewrite clean_when_comma_last by exact H1. rewrite H3. reflexivity.
  - intros s H. rewrite format_price_cleaned.
    destruct (float_of_str _) as [x|] eqn:E; [|reflexivity].
    apply float_of_str_some in E as [(d & Hd & Hdig) _].
    unfold replace_char in Hd. apply in_map_iff in Hd as (y & Hy & Hin).
    apply filter_In in Hin as [Hin _].
    destruct (y =? comma)%N.
    + rewrite <- Hy, period_not_digit in Hdig. discriminate.
    + rewrite <- Hy, (H y Hin) in Hdig. discriminate.
Qed.

Lemma format_price_reference_cases_and_rule_witness :
  _format_price (Some (of_ascii "R$ 1.299,00"))
  = spec_normalize (Some (of_ascii "R$ 1.299,00")) /\
  _format_price (Some (of_ascii "1,234,56")) = None /\
  _format_price (Some (of_ascii "R$ --")) = None /\
  ProductScraper.format_price (Some (of_ascii "R$ 1.299,00"))
  = spec_normalize (Some (of_ascii "R$ 1.299,00")) /\
  ProductScraper.format_price (Some (of_ascii "R$ --")) = None.
Proof.
  destruct format_price_reference_cases_and_rule
    as (_ & H1 & H2 & H3 & _ & _ & H4 & H5).
  split; [|split; [|split; [|split]]].
  - apply H1. left. vm_compute. lia.
  - apply H2; vm_compute; [reflexivity | lia].
  - apply H3. intros c Hc. vm_compute in Hc. destruct Hc.
  - apply H4; vm_compute; [discriminate | lia | reflexivity].
  - apply H5. intros c Hc. vm_compute in Hc.
    repeat (destruct Hc as [<- | Hc]; [reflexivity|]). destruct Hc.
Defined.

(** C4, counterexample. On 1,234,56 the rule of the specification
    (periods removed, last comma replaced) gives 1234.56 while the
    server-side normalizer, which replaces every comma, gives no price;
    and on the reference case 1,234.56 the scraper's normalizer gives
    1.23456. *)
Lemma format_price_two_commas_counterexample :
  spec_normalize (Some (of_ascii "1,234,56")) = Some (of_decimal 123456 2) /\
  _format_price (Some (of_ascii "1,234,56")) = None /\
  _format_price (Some (of_ascii "1,234,56"))
  <> spec_normalize (Some (of_ascii "1,234,56")) /\
  spec_normalize (Some (of_ascii "1,234.56")) = Some (of_decimal 123456 2) /\
  ProductScraper.format_price (Some (of_ascii "1,234.56"))
  = Some (of_decimal 123456 5) /\
  ProductScraper.format_price (Some (of_ascii "1,234.56"))
  <> Some (of_decimal 123456 2).
Proof.
  split; [|split; [|split; [|split; [|split]]]]; vm_compute;
    first [reflexivity | discriminate].
Qed.

(** C10 (as amended). [ProductScraper.format_price] and
    [ServerScraper._format_price] return the same result on every text
    in which, once currency symbols and the trailing qualifier are
    removed, the last period does not come after the last comma -- no
    period at all, or periods that group thousands before a decimal
    comma -- and from which no qualifier phrase is cut or, if one is,
    no digit and no comma is cut with it; they are not the same
    function. *)
Theorem normalizers_agree_unless_period_is_decimal (s : str) :
  rfind period (price_text s) <= rfind comma (price_text s) ->
  price_text s = strip (remove_currency s) \/
  List.filter ProductScraper.digit_or_comma (price_text s)
  = List.filter ProductScraper.digit_or_comma s ->
  ProductScraper.format_price (Some s) = _format_price (Some s).
Proof.
  intros H1 H2.
  assert (H3 : List.filter ProductScraper.digit_or_comma (price_text s)
               = List.filter ProductScraper.digit_or_comma s).
  { destruct H2 as [H2 | H2]; [|exact H2]. rewrite H2.
    apply filter_remove_currency. exact drops_symbols_digit_or_comma. }
  destruct s as [|c s]; [reflexivity|].
  rewrite format_price_clean by discriminate.
  rewrite format_price_cleaned. unfold clean_price.
  rewrite clean_when_comma_last by exact H1. rewrite H3. reflexivity.
Qed.

Lemma normalizers_agree_unless_period_is_decimal_witness :
  ProductScraper.format_price (Some (of_ascii "R$ 1.299,00 no pix"))
  = _format_price (Some (of_ascii "R$ 1.299,00 no pix")) /\
  ProductScraper.format_price (Some (of_ascii "R$ 99,90"))
  = _format_price (Some (of_ascii "R$ 99,90")).
Proof.
  split.
  - apply normalizers_agree_unless_period_is_decimal.
    + vm_compute. discriminate.
    + right. vm_compute. reflexivity.
  - apply normalizers_agree_unless_period_is_decimal.
    + vm_compute. discriminate.
    + left. vm_compute. reflexivity.
Defined.

(** C10, counterexample. On the text 1.5, from which nothing is cut, the
    last period comes after the last comma (there is none): the first
    normalizer deletes the period and returns 15.0, the second keeps it
    and returns 1.5.  On the text 10 no pix 2, without period, the
    qualifier cuts a digit: the first normalizer returns 102.0, the
    second 10.0. *)
Lemma normalizers_differ_counterexample :
  ProductScraper.format_price (Some (of_ascii "1.5")) = Some (of_decimal 15 0) /\
  _format_price (Some (of_ascii "1.5")) = Some (of_decimal 15 1) /\
  ProductScraper.format_price (Some (of_ascii "1.5"))
  <> _format_price (Some (of_ascii "1.5")) /\
  price_text (of_ascii "1.5") = strip (remove_currency (of_ascii "1.5")) /\
  rfind comma (price_text (of_ascii "1.5"))
  < rfind period (price_text (of_ascii "1.5")) /\
  ProductScraper.format_price (Some (of_ascii "10 no pix 2"))
  = Some (of_decimal 102 0) /\
  _format_price (Some (of_ascii "10 no pix 2")) = Some (of_decimal 10 0) /\
  rfind period (price_text (of_ascii "10 no pix 2"))
  <= rfind comma (price_text (of_ascii "10 no pix 2")) /\
  List.filter ProductScraper.digit_or_comma (price_text (of_ascii "10 no pix 2"))
  <> List.filter ProductScraper.digit_or_comma (of_ascii "10 no pix 2").
Proof.
  repeat (split; [vm_compute; first [reflexivity | discriminate]|]).
  vm_compute. discriminate.
Qed.

(** *** Rounding never gives NaN *)

Lemma shr_1_nonneg (mrs : shr_record) : 0 <= shr_m mrs -> 0 <= shr_m (shr_1 mrs).
Proof.
  destruct mrs as [m r s]. simpl. destruct m as [|p|p]; [simpl; lia| |lia].
  intros _. destruct p; simpl; lia.
Qed.

Lemma iter_shr_1_nonneg (p : positive) :
  forall mrs, 0 <= shr_m mrs -> 0 <= shr_m (iter_pos shr_1 p mrs).
Proof.
  induction p as [p IH|p IH|]; intros mrs H; simpl.
  - apply IH, IH, shr_1_nonneg, H.
  - apply IH, IH, H.
  - apply shr_1_nonneg, H.
Qed.

Lemma shr_fexp_nonneg (m e : Z) (l : location) :
  0 <= m -> 0 <= shr_m (fst (shr_fexp prec emax m e l)).
Proof.
  intros H. unfold shr_fexp, shr.
  assert (H0 : 0 <= shr_m (shr_record_of_loc m l))
    by (destruct l as [|[]]; simpl; exact H).
  destruct (fexp prec emax (Zdigits2 m + e) - e); simpl; auto.
  apply iter_shr_1_nonneg. exact H0.
Qed.

Lemma round_nearest_even_nonneg (m : Z) (l : location) :
  0 <= m -> 0 <= round_nearest_even m l.
Proof.
  intros H. destruct l as [|[]]; simpl; try lia. destruct (Z.even m); lia.
Qed.

Lemma binary_round_aux_number (sx : bool) (mx ex : Z) (lx : location) :
  0 <= mx -> is_nan (binary_round_aux prec emax sx mx ex lx) = false.
Proof.
  intros H. unfold binary_round_aux.
  pose proof (shr_fexp_nonneg mx ex lx H) as H1.
  destruct (shr_fexp prec emax mx ex lx) as [mrs' e']. simpl in H1.
  pose proof (shr_fexp_nonneg _ e' loc_Exact
                (round_nearest_even_nonneg _ (loc_of_shr_record mrs') H1)) as H2.
  destruct (shr_fexp prec emax _ e' loc_Exact) as [mrs'' e'']. simpl in H2.
  destruct (shr_m mrs'') as [|m|m]; [reflexivity| |lia].
  destruct (e'' <=? emax - prec); reflexivity.
Qed.

Lemma of_decimal_number (n k : N) : is_nan (of_decimal n k) = false.
Proof.
  unfold of_decimal. destruct n as [|p]; [reflexivity|].
  unfold SFdiv, SFdiv_core_binary.
  set (m' := match _ - _ - _ with Z0 => _ | Zpos _ => _ | Zneg _ => _ end).
  assert (Hm : 0 <= m').
  { subst m'. destruct (_ - _ - _); try lia. apply Z.shiftl_nonneg. lia. }
  pose proof (Z_div_mod m' (Z.pos (Z.to_pos (10 ^ Z.of_N k))) ltac:(lia)) as Hd.
  destruct (Z.div_eucl m' (Z.pos (Z.to_pos (10 ^ Z.of_N k)))) as [q r].
  apply binary_round_aux_number. nia.
Qed.

(** Every price that [float] reads is a number. *)
Lemma float_of_str_number (s : str) (x : float) :
  float_of_str s = Some x -> is_nan x = false.
Proof.
  unfold float_of_str. destruct (split_period s) as [ip [fp|]].
  - destruct (ip ++ fp) as [|c l]; [discriminate|].
    destruct (digits_value 0 _) as [v|]; [|discriminate].
    intros H. injection H as <-. apply of_decimal_number.
  - destruct ip as [|c l]; [discriminate|].
    destruct (digits_value 0 _) as [v|]; [|discriminate].
    intros H. injection H as <-. apply of_decimal_number.
Qed.

(** The prices returned by the two normalizers are numbers. *)
Lemma format_price_number (text : option str) (x : float) :
  ProductScraper.format_price text = Some x \/ _format_price text = Some x ->
  is_nan x = false.
Proof.
  intros [H | H].
  - unfold ProductScraper.format_price in H.
    destruct text as [[|c s]|]; try discriminate.
    apply float_of_str_number in H. exact H.
  - unfold _format_price in H. destruct text as [[|c s]|]; try discriminate.
    destruct (clean_price (c :: s)); [discriminate|].
    apply float_of_str_number in H. exact H.
Qed.

Lemma scraped_priced (results : list product) : scraped results -> priced results.
Proof.
  unfold scraped, priced. apply Forall_impl. intros r (text & H).
  exact (format_price_number text (preco r) H).
Qed.

(** ** Link resolver *)

Section LinkResolver.

Import ServerScraper.

Variable urlparse : str -> py ParseResult.
Variable parse_qs : str -> Dict.dict (list str).
Variable head : str -> py str.

Lemma external_url_true (v : str) :
  external_url urlparse v = Ret true ->
  startswith (of_ascii "http") v = true /\
  exists p, urlparse v = Ret p /\
            contains google_com (netloc p) = false.
Proof.
  unfold external_url.
  destruct (startswith (of_ascii "http") v); [|discriminate].
  destruct (urlparse v) as [p|e]; simpl; [|discriminate].
  intros H. injection H as H. apply negb_true_iff in H. eauto.
Qed.

(** The test of the code accepts exactly the external URLs, and answers
    no exactly on the values found not external. *)
Lemma external_url_external (v : str) :
  external_url urlparse v = Ret true <-> external urlparse v.
Proof.
  split.
  - intros H. apply external_url_true in H. exact H.
  - intros (Hs & p & Hp & Hn). unfold external_url.
    rewrite Hs, Hp. cbn [bind]. unfold google_com. rewrite Hn. reflexivity.
Qed.

Lemma external_url_internal (v : str) :
  external_url urlparse v = Ret false <-> found_internal urlparse v.
Proof.
  unfold external_url, found_internal. split.
  - destruct (startswith (of_ascii "http") v); [|auto].
    destruct (urlparse v) as [p|e]; cbn [bind]; [|discriminate].
    intros H. injection H as H. apply negb_false_iff in H. right. eauto.
  - intros [Hs | (p & Hp & Hn)]; [rewrite Hs; reflexivity|].
    destruct (startswith (of_ascii "http") v); [|reflexivity].
    rewrite Hp. cbn [bind]. unfold google_com. rewrite Hn. reflexivity.
Qed.

(** The parameters passed over leave the loop at the parameter after
    them. *)
Lemma check_params_passed_over (qp : Dict.dict (list str)) (pre rest : list str) :
  passed_over urlparse qp pre ->
  check_params urlparse qp (pre ++ rest) = check_params urlparse qp rest.
Proof.
  induction pre as [|q pre IH]; intros Hpre; [reflexivity|].
  cbn [app check_params].
  assert (Hrest : passed_over urlparse qp pre)
    by (intros p' Hp'; apply Hpre; right; exact Hp').
  destruct (Hpre q (or_introl eq_refl)) as [Hq | (v' & rest' & Hq & Hv')];
    rewrite Hq; [exact (IH Hrest)|].
  apply external_url_internal in Hv'. cbn [bind]. rewrite Hv'. cbn [bind].
  exact (IH Hrest).
Qed.

Lemma check_params_first (qp : Dict.dict (list str)) (params : list str) (v : str) :
  first_external urlparse params qp v ->
  check_params urlparse qp params = Ret (Returned v).
Proof.
  intros (pre & p & post & rest & -> & Hget & Hext & Hpre).
  rewrite check_params_passed_over by exact Hpre.
  cbn [check_params]. rewrite Hget. cbn [bind].
  apply external_url_external in Hext. rewrite Hext. reflexivity.
Qed.

Lemma check_params_rejected (qp : Dict.dict (list str)) (params : list str) :
  rejected_value urlparse params qp ->
  exists e, check_params urlparse qp params = Raise e.
Proof.
  intros (pre & p & post & v & rest & e & -> & Hpre & Hget & Hs & Hv).
  rewrite check_params_passed_over by exact Hpre.
  cbn [check_params]. rewrite Hget. cbn [bind].
  unfold external_url. rewrite Hs, Hv. cbn [bind]. eauto.
Qed.

Lemma check_params_returned (qp : Dict.dict (list str)) (params : list str) (v : str) :
  check_params urlparse qp params = Ret (Returned v) ->
  first_external urlparse params qp v.
Proof.
  induction params as [|p params IH]; simpl; [discriminate|].
  destruct (Dict.get p qp) as [values|] eqn:Hget.
  - destruct values as [|v0 rest]; simpl; [discriminate|].
    destruct (external_url urlparse v0) as [[|]|e] eqn:Hext; simpl;
      [| |discriminate].
    + intros H. injection H as <-. exists [], p, params, rest.
      apply external_url_external in Hext.
      repeat split; auto; try apply Hext. intros p' [].
    + apply external_url_internal in Hext.
      intros H. destruct (IH H) as (pre & p1 & post & rest1 & -> & H1 & H2 & H3).
      exists (p :: pre), p1, post, rest1.
      split; [reflexivity|]. split; [exact H1|]. split; [exact H2|].
      intros p' [<- | Hp']; [right; eauto | auto].
  - intros H. destruct (IH H) as (pre & p1 & post & rest1 & -> & H1 & H2 & H3).
    exists (p :: pre), p1, post, rest1.
    split; [reflexivity|]. split; [exact H1|]. split; [exact H2|].
    intros p' [<- | Hp']; [left; exact Hget | auto].
Qed.

Lemma follow_redirect_returned (link : str) (parsed : ParseResult)
    (final : str) :
  follow_redirect urlparse head link parsed
  = Ret (Returned final) ->
  probe_yields urlparse head link parsed final.
Proof.
  unfold follow_redirect, probe_yields.
  destruct (str_eqb _ _) eqn:E1; simpl; [|discriminate].
  destruct (contains (of_ascii "/url?") _ || contains (of_ascii "/aclk?") _) eqn:E2;
    simpl; [|discriminate].
  destruct (head link) as [final_url|e] eqn:Hh; simpl.
  - destruct (str_eqb final_url link) eqn:E3; simpl; [discriminate|].
    destruct (urlparse final_url) as [p|e] eqn:Hp; simpl.
    + destruct (contains google_com (netloc p)) eqn:E4;
        simpl; [discriminate|].
      intros H. injection H as <-. repeat split.
      * apply str_eqb_eq. exact E1.
      * apply orb_true_iff in E2. exact E2.
      * intros ->. rewrite str_eqb_refl in E3. discriminate.
      * exists p. auto.
    + destruct e; discriminate.
  - destruct e; discriminate.
Qed.

(** C5 (as amended). Absent input gives absent output.  The value of the
    first parameter, in the order adurl, url, q, imgrefurl, whose first
    value starts with http and has a host without google.com is returned,
    provided that every parameter before it is absent or carries a first
    value that does not start with http or that [urlparse] accepts with a
    google.com host.  When a value that starts with http and that
    [urlparse] rejects is met before any external one, the resolution
    ends there and the original link is returned, whatever the later
    parameters carry.  When the inspection of the parameters yields no
    external value and the redirect probe does not end on an external
    URL -- whatever fails on the way -- the original link is returned
    unchanged. *)
Theorem link_resolver_contract :
  (_extract_real_product_link urlparse parse_qs head None = None /\
   _extract_real_product_link urlparse parse_qs head (Some []) = None) /\
  (forall (link : str) (parsed : ParseResult) (v : str),
     link <> [] ->
     urlparse link = Ret parsed ->
     first_external urlparse priority_order (parse_qs (query parsed)) v ->
     _extract_real_product_link urlparse parse_qs head (Some link) = Some v) /\
  (forall (link : str) (parsed : ParseResult),
     link <> [] ->
     urlparse link = Ret parsed ->
     rejected_value urlparse priority_order (parse_qs (query parsed)) ->
     _extract_real_product_link urlparse parse_qs head (Some link) = Some link) /\
  (forall link : str,
     link <> [] ->
     (forall parsed v,
        urlparse link = Ret parsed ->
        ~ first_external urlparse priority_order (parse_qs (query parsed)) v) ->
     (forall parsed final,
        urlparse link = Ret parsed ->
        ~ probe_yields urlparse head link parsed final) ->
     _extract_real_product_link urlparse parse_qs head (Some link) = Some link).
Proof.
  assert (Hparams : possible_params = priority_order) by reflexivity.
  split; [split; reflexivity|]. split; [|split].
  - intros link parsed v Hne Hparse Hfirst.
    destruct link as [|c link]; [contradiction|].
    unfold _extract_real_product_link.
    rewrite Hparse. cbn [bind try_except].
    rewrite <- Hparams in Hfirst. apply check_params_first in Hfirst.
    rewrite Hfirst. reflexivity.
  - intros link parsed Hne Hparse Hrej.
    destruct link as [|c link]; [contradiction|].
    unfold _extract_real_product_link.
    rewrite Hparse. cbn [bind try_except].
    rewrite <- Hparams in Hrej. apply check_params_rejected in Hrej as [e He].
    rewrite He. reflexivity.
  - intros link Hne Hnone Hprobe.
    destruct link as [|c link]; [contradiction|].
    unfold _extract_real_product_link.
    destruct (urlparse (c :: link)) as [parsed|e] eqn:Hparse;
      cbn [bind try_except]; [|reflexivity].
    destruct (check_params urlparse _ _) as [[v|]|e] eqn:Hc;
      cbn [bind try_except]; [| |reflexivity].
    + exfalso. apply check_params_returned in Hc. rewrite Hparams in Hc.
      exact (Hnone parsed v eq_refl Hc).
    + destruct (follow_redirect urlparse head (c :: link) parsed)
        as [[final|]|e] eqn:Hf; cbn [bind try_except]; try reflexivity.
      exfalso. apply follow_redirect_returned in Hf.
      exact (Hprobe parsed final eq_refl Hf).
Qed.

End LinkResolver.

Lemma link_resolver_contract_witness :
  ServerScraper._extract_real_product_link example_urlparse example_parse_qs
    example_head (Some example_link) = Some example_shop /\
  ServerScraper._extract_real_product_link example_urlparse example_parse_qs
    example_head (Some example_shop) = Some example_shop /\
  ServerScraper._extract_real_product_link rejecting_urlparse rejecting_parse_qs
    example_head (Some example_rejected_link) = Some example_rejected_link.
Proof.
  destruct (link_resolver_contract example_urlparse example_parse_qs example_head)
    as (_ & H1 & _ & H2).
  destruct (link_resolver_contract rejecting_urlparse rejecting_parse_qs example_head)
    as (_ & _ & H3 & _).
  split; [|split].
  - apply (H1 example_link
             {| ServerScraper.netloc := of_ascii "www.google.com";
                ServerScraper.path := of_ascii "/aclk";
                ServerScraper.query := of_ascii "adurl=https://shop.example.com/x" |}).
    + discriminate.
    + reflexivity.
    + exists [], (of_ascii "adurl"),
        [of_ascii "url"; of_ascii "q"; of_ascii "imgrefurl"], [].
      split; [reflexivity|]. split; [reflexivity|]. split.
      * split; [reflexivity|].
        exists {| ServerScraper.netloc := of_ascii "shop.example.com";
                  ServerScraper.path := of_ascii "/x";
                  ServerScraper.query := [] |}.
        split; reflexivity.
      * intros p' [].
  - apply H2.
    + discriminate.
    + intros parsed v Hp (pre & p & post & rest & _ & Hget & _).
      vm_compute in Hp. injection Hp as <-.
      vm_compute in Hget. discriminate Hget.
    + intros parsed final Hp (Hn & _).
      vm_compute in Hp. injection Hp as <-. vm_compute in Hn. discriminate Hn.
  - apply (H3 example_rejected_link
             {| ServerScraper.netloc := of_ascii "www.google.com";
                ServerScraper.path := of_ascii "/url";
                ServerScraper.query := example_rejected_query |}).
    + discriminate.
    + reflexivity.
    + exists [of_ascii "adurl"], (of_ascii "url"),
        [of_ascii "q"; of_ascii "imgrefurl"], example_rejected, [], ValueError.
      split; [reflexivity|]. split.
      * intros p' [<- | []]. left. reflexivity.
      * split; [reflexivity|]. split; reflexivity.
Defined.

(** C5, counterexample. The url parameter of the link carries a value
    that [urlparse] rejects and its imgrefurl parameter carries the shop:
    the shop is the first value, in the order of priority, that starts
    with http and has a host without google.com, yet the resolver
    returns the original link, neither the shop nor the rejected
    value. *)
Lemma link_resolver_rejected_value_counterexample :
  rejecting_urlparse example_rejected_link
  = Ret {| ServerScraper.netloc := of_ascii "www.google.com";
           ServerScraper.path := of_ascii "/url";
           ServerScraper.query := example_rejected_query |} /\
  spec_first_external rejecting_urlparse priority_order
    (rejecting_parse_qs example_rejected_query) example_shop /\
  ServerScraper._extract_real_product_link rejecting_urlparse rejecting_parse_qs
    example_head (Some example_rejected_link) = Some example_rejected_link /\
  ServerScraper._extract_real_product_link rejecting_urlparse rejecting_parse_qs
    example_head (Some example_rejected_link) <> Some example_shop /\
  ServerScraper._extract_real_product_link rejecting_urlparse rejecting_parse_qs
    example_head (Some example_rejected_link) <> Some example_rejected.
Proof.
  split; [reflexivity|]. split; [|split; [|split]].
  - exists [of_ascii "adurl"; of_ascii "url"; of_ascii "q"], (of_ascii "imgrefurl"),
      [], [].
    split; [reflexivity|]. split; [reflexivity|]. split.
    + split; [reflexivity|].
      exists {| ServerScraper.netloc := of_ascii "shop.example.com";
                ServerScraper.path := of_ascii "/x";
                ServerScraper.query := [] |}.
      split; reflexivity.
    + intros p' [<- | [<- | [<- | []]]].
      * left. reflexivity.
      * right. exists example_rejected, []. split; [reflexivity|].
        intros (_ & p & Hp & _). vm_compute in Hp. discriminate Hp.
      * left. reflexivity.
  - vm_compute. reflexivity.
  - vm_compute. discriminate.
  - vm_compute. discriminate.
Qed.

(** ** Extraction cascade *)

Section Extraction.

Import ServerScraper.

Variable urlparse : str -> py ParseResult.
Variable parse_qs : str -> Dict.dict (list str).
Variable head : str -> py str.

Lemma In_firstn {A : Type} (n : nat) (l : list A) (x : A) :
  In x (firstn n l) -> In x l.
Proof.
  intros H. rewrite <- (firstn_skipn n l). apply in_or_app. left. exact H.
Qed.

Lemma extract_loop_spec (els : list Element) :
  forall (count max_results : Z) (products : list product),
    extract_loop urlparse parse_qs head els count max_results products
    = products ++ firstn (Z.to_nat (max_results - count))
                         (accepted (extract_one urlparse parse_qs head) els).
Proof.
  induction els as [|e rest IH]; intros count max_results products;
    cbn [extract_loop].
  - rewrite firstn_nil, app_nil_r. reflexivity.
  - destruct (count >=? max_results) eqn:E.
    + apply Z.geb_le in E. replace (Z.to_nat (max_results - count)) with 0%nat by lia.
      rewrite app_nil_r. reflexivity.
    + rewrite Z.geb_leb, Z.leb_gt in E. unfold accepted. cbn [List.flat_map].
      destruct (extract_one urlparse parse_qs head e) as [[p|]|x]; rewrite IH;
        try reflexivity.
      rewrite <- app_assoc. cbn [app].
      replace (Z.to_nat (max_results - count))
        with (S (Z.to_nat (max_results - (count + 1)))) by lia.
      reflexivity.
Qed.

Lemma find_containers_spec (soup : Soup) (selectors : list str)
    (found : option (list Element)) :
  find_containers soup selectors = Ret found ->
  match found with
  | None => forall sel, In sel selectors -> select soup sel = Ret []
  | Some els =>
      els <> [] /\
      exists pre sel post,
        selectors = pre ++ sel :: post /\
        (forall s', In s' pre -> select soup s' = Ret []) /\
        select soup sel = Ret els
  end.
Proof.
  revert found. induction selectors as [|sel rest IH]; intros found; simpl.
  - intros H. injection H as <-. intros sel [].
  - destruct (select soup sel) as [[|e els]|x] eqn:Hsel; simpl;
      [| |discriminate].
    + intros H. specialize (IH found H). destruct found as [els|].
      * destruct IH as (Hne & pre & sel' & post & -> & Hpre & Hs).
        split; [exact Hne|]. exists (sel :: pre), sel', post.
        split; [reflexivity|]. split; [|exact Hs].
        intros s' [<- | Hs']; auto.
      * intros s' [<- | Hs']; auto.
    + intros H. injection H as <-. split; [discriminate|].
      exists [], sel, rest. split; [reflexivity|]. split; [intros s' []|exact Hsel].
Qed.

(** With a text as default, [_extract_field] never returns [None]: the
    name of a container is always a text. *)
Lemma extract_field_default (e : Element) (selectors : list str) (d : str)
    (attribute r : option str) :
  _extract_field e selectors (Some d) attribute = Ret r -> r <> None.
Proof.
  induction selectors as [|sel rest IH]; cbn [_extract_field].
  - intros H. injection H as <-. discriminate.
  - destruct (select_one e sel) as [[tag|]|x]; cbn [bind]; [| |discriminate].
    + destruct (read_value tag attribute); [|exact IH].
      intros H. injection H as <-. discriminate.
    + exact IH.
Qed.

Lemma extract_one_accepts (e : Element) (p : product) :
  extract_one urlparse parse_qs head e = Ret (Some p) ->
  nome p <> nome_nao_encontrado /\
  _extract_field e name_selectors
    (Some nome_nao_encontrado) None = Ret (Some (nome p)) /\
  exists price_text,
    _extract_field e price_selectors
      (Some preco_nao_encontrado) None = Ret price_text /\
    _format_price price_text = Some (preco p).
Proof.
  unfold extract_one.
  destruct (_extract_field e name_selectors _ _)
    as [name|x]; cbn [bind]; [|discriminate].
  destruct (_extract_field e price_selectors _ _)
    as [price_text|x]; cbn [bind]; [|discriminate].
  destruct (_extract_field e link_selectors _ _)
    as [link|x]; cbn [bind]; [|discriminate].
  destruct (_format_price price_text) as [price|] eqn:Hprice; [|discriminate].
  destruct name as [n|]; [|discriminate].
  destruct (truthy price && negb (str_eqb n nome_nao_encontrado)) eqn:E;
    [|discriminate].
  intros H. injection H as <-. cbn [nome preco].
  apply andb_true_iff in E as [_ E]. apply negb_true_iff in E.
  split; [|split; [reflexivity|]].
  - intros ->. rewrite str_eqb_refl in E. discriminate.
  - exists price_text. auto.
Qed.

(** C7. The containers of one extraction are those of the first selector
    of the prioritized list that matches an element, and of that selector
    only; the result holds, in document order, the first [max_results]
    products of the accepted containers, a container that raises or is
    rejected being skipped; a product is accepted only with a name other
    than the placeholder and a price text that normalizes. *)
Theorem extraction_uses_first_matching_selector
    (soup : Soup) (max_results : Z) (products : list product) :
  _extract_google_shopping_products urlparse parse_qs head soup max_results
  = Ret products ->
  ((forall sel, In sel container_selectors ->
                select soup sel = Ret []) /\ products = []
   \/
   exists pre sel post els,
     container_selectors = pre ++ sel :: post /\
     (forall s', In s' pre -> select soup s' = Ret []) /\
     select soup sel = Ret els /\ els <> [] /\
     products = firstn (Z.to_nat max_results)
                       (accepted (extract_one urlparse parse_qs head) els)) /\
  (List.length products <= Z.to_nat max_results)%nat /\
  (forall p, In p products ->
     nome p <> nome_nao_encontrado /\
     exists e price_text,
       extract_one urlparse parse_qs head e = Ret (Some p) /\
       _extract_field e price_selectors
         (Some preco_nao_encontrado) None = Ret price_text /\
       _format_price price_text = Some (preco p)).
Proof.
  unfold _extract_google_shopping_products.
  destruct (find_containers soup container_selectors)
    as [found|x] eqn:Hfind; cbn [bind]; [|discriminate].
  apply find_containers_spec in Hfind.
  destruct found as [els|]; intros H; injection H as <-.
  - rewrite extract_loop_spec. cbn [app]. rewrite Z.sub_0_r.
    destruct Hfind as (Hne & pre & sel & post & Hsel & Hpre & Hs).
    split; [|split].
    + right. exists pre, sel, post, els. auto.
    + apply firstn_le_length.
    + intros p Hp. apply In_firstn in Hp. unfold accepted in Hp.
      apply in_flat_map in Hp as (e & _ & Hp).
      destruct (extract_one urlparse parse_qs head e)
        as [[p'|]|x] eqn:He; [|destruct Hp|destruct Hp].
      destruct Hp as [<- | []].
      destruct (extract_one_accepts e p' He) as (Hn & _ & pt & H1 & H2).
      split; [exact Hn|]. exists e, pt. auto.
  - split; [|split].
    + left. auto.
    + simpl. lia.
    + intros p [].
Qed.

End Extraction.

(** ** Fetch loop *)

Section Fetch.

Import ServerScraper.

Variable urlparse : str -> py ParseResult.
Variable parse_qs : str -> Dict.dict (list str).
Variable head : str -> py str.
Variable quote_plus : str -> py str.
Variable get : nat -> str -> py str.
Variable parse_html : str -> py Soup.

Lemma extract_products_bound (soup : Soup) (max_results : Z)
    (products : list product) :
  _extract_google_shopping_products urlparse parse_qs head soup max_results
  = Ret products ->
  (List.length products <= Z.to_nat max_results)%nat.
Proof.
  unfold _extract_google_shopping_products.
  destruct (find_containers soup container_selectors)
    as [[els|]|x]; cbn [bind]; intros H; [| |discriminate]; injection H as <-.
  - rewrite extract_loop_spec. cbn [app]. rewrite Z.sub_0_r. apply firstn_le_length.
  - simpl. lia.
Qed.

Lemma attempt_returns (k : nat) (url : str) (results : list product) (max_results : Z) :
  exists f,
    attempt urlparse parse_qs head get parse_html k url results max_results
    = Ret f.
Proof.
  unfold attempt.
  destruct (get k url) as [html|x]; cbn [bind try_except]; [|eauto].
  destruct (bot_challenge html); cbn [try_except]; [eauto|].
  destruct (parse_html html) as [soup|x]; cbn [bind try_except]; [|eauto].
  destruct (_extract_google_shopping_products _ _ _ soup max_results)
    as [[|p ps]|x]; cbn [bind try_except]; eauto.
Qed.

Lemma attempt_return_inv (k : nat) (url : str) (max_results : Z) (res : list product) :
  attempt urlparse parse_qs head get parse_html k url [] max_results
  = Ret (Return res) ->
  exists html soup,
    get k url = Ret html /\
    bot_challenge html = false /\
    parse_html html = Ret soup /\
    _extract_google_shopping_products urlparse parse_qs head soup
      max_results = Ret res /\
    res <> [] /\
    (Z.of_nat (List.length res) <= max_results).
Proof.
  unfold attempt.
  destruct (get k url) as [html|x] eqn:Hget; cbn [bind try_except]; [|discriminate].
  destruct (bot_challenge html) eqn:Hbot; cbn [try_except];
    [discriminate|].
  destruct (parse_html html) as [soup|x] eqn:Hparse; cbn [bind try_except];
    [|discriminate].
  destruct (_extract_google_shopping_products _ _ _ soup max_results)
    as [[|p ps]|x] eqn:Hext; cbn [bind try_except]; try discriminate.
  intros H. injection H as <-.
  pose proof (extract_products_bound _ _ _ Hext) as Hlen. cbn [app].
  assert (Hpos : 0 < max_results) by (simpl in Hlen; lia).
  assert (Hslice : slice_to max_results (p :: ps) = p :: ps).
  { unfold slice_to.
    replace (0 <=? max_results) with true by (symmetry; apply Z.leb_le; lia).
    apply firstn_all2. exact Hlen. }
  rewrite Hslice. exists html, soup.
  repeat (split; [first [reflexivity | assumption | discriminate]|]).
  simpl in Hlen |- *. lia.
Qed.

Lemma attempt_break_inv (k : nat) (url : str) (max_results : Z) :
  attempt urlparse parse_qs head get parse_html k url [] max_results
  = Ret Break ->
  exists html, get k url = Ret html /\ bot_challenge html = true.
Proof.
  unfold attempt.
  destruct (get k url) as [html|x] eqn:Hget; cbn [bind try_except]; [|discriminate].
  destruct (bot_challenge html) eqn:Hbot; cbn [try_except]; [eauto|].
  destruct (parse_html html) as [soup|x]; cbn [bind try_except]; [|discriminate].
  destruct (_extract_google_shopping_products _ _ _ soup max_results)
    as [[|p ps]|x]; cbn [bind try_except]; discriminate.
Qed.

(** The retry loop on one target: the attempts are made one after the
    other until one returns products or meets a bot challenge. *)
Lemma try_attempts_spec (n k : nat) (url : str) (max_results : Z) :
  (exists (j : nat) (res : list product),
     (j < n)%nat /\
     (forall i, (i < j)%nat ->
        attempt urlparse parse_qs head get parse_html (k + i) url []
          max_results = Ret Next) /\
     attempt urlparse parse_qs head get parse_html (k + j) url []
       max_results = Ret (Return res) /\
     try_attempts urlparse parse_qs head get parse_html n k url []
       max_results = Ret (Some res, S (k + j)))
  \/
  (exists j : nat,
     (j < n)%nat /\
     (forall i, (i < j)%nat ->
        attempt urlparse parse_qs head get parse_html (k + i) url []
          max_results = Ret Next) /\
     attempt urlparse parse_qs head get parse_html (k + j) url []
       max_results = Ret Break /\
     try_attempts urlparse parse_qs head get parse_html n k url []
       max_results = Ret (None, S (k + j)))
  \/
  ((forall i, (i < n)%nat ->
      attempt urlparse parse_qs head get parse_html (k + i) url []
        max_results = Ret Next) /\
   try_attempts urlparse parse_qs head get parse_html n k url []
     max_results = Ret (None, (k + n)%nat)).
Proof.
  revert k. induction n as [|n IH]; intros k.
  - right. right. split; [intros i Hi; lia|]. simpl. rewrite Nat.add_0_r. reflexivity.
  - cbn [try_attempts].
    destruct (attempt_returns k url [] max_results) as [f Hf]. rewrite Hf. cbn [bind].
    destruct f as [res| |].
    + left. exists 0%nat, res. rewrite Nat.add_0_r.
      split; [lia|]. split; [intros i Hi; lia|]. auto.
    + right. left. exists 0%nat. rewrite Nat.add_0_r.
      split; [lia|]. split; [intros i Hi; lia|]. auto.
    + assert (Hshift : forall j, (S k + j = k + S j)%nat) by (intros; lia).
      assert (Hnext : forall j,
                (forall i, (i < j)%nat ->
                   attempt urlparse parse_qs head get parse_html
                     (S k + i) url [] max_results = Ret Next) ->
                forall i, (i < S j)%nat ->
                   attempt urlparse parse_qs head get parse_html
                     (k + i) url [] max_results = Ret Next).
      { intros j H i Hi. destruct i as [|i].
        - rewrite Nat.add_0_r. exact Hf.
        - rewrite <- Hshift. apply H. lia. }
      destruct (IH (S k)) as [(j & res & Hj & Hpre & Hat & Hres)
                             | [(j & Hj & Hpre & Hat & Hres) | (Hall & Hres)]].
      * left. exists (S j), res. rewrite <- !Hshift.
        split; [lia|]. split; [apply Hnext; exact Hpre|]. auto.
      * right. left. exists (S j). rewrite <- !Hshift.
        split; [lia|]. split; [apply Hnext; exact Hpre|]. auto.
      * right. right. rewrite <- Hshift. split; [apply Hnext; exact Hall|exact Hres].
Qed.

Lemma try_urls_returns (urls : list str) (k : nat) (max_results : Z) :
  exists l,
    try_urls urlparse parse_qs head get parse_html urls k [] max_results
    = Ret l.
Proof.
  revert k. induction urls as [|url rest IH]; intros k;
    cbn [try_urls]; [eauto|].
  destruct (try_attempts_spec max_retries k url max_results)
    as [(j & res & _ & _ & _ & H) | [(j & _ & _ & _ & H) | (_ & H)]];
    rewrite H; cbn [bind]; eauto.
Qed.

Lemma try_urls_empty (urls : list str) (max_results : Z) :
  (forall k url res,
     attempt urlparse parse_qs head get parse_html k url []
       max_results <> Ret (Return res)) ->
  forall k,
    try_urls urlparse parse_qs head get parse_html urls k []
      max_results = Ret [].
Proof.
  intros Hno. induction urls as [|url rest IH]; intros k;
    cbn [try_urls]; [reflexivity|].
  destruct (try_attempts_spec max_retries k url max_results)
    as [(j & res & _ & _ & Hat & H) | [(j & _ & _ & _ & H) | (_ & H)]].
  - exfalso. exact (Hno _ _ _ Hat).
  - rewrite H. cbn [bind]. apply IH.
  - rewrite H. cbn [bind]. apply IH.
Qed.

Lemma try_attempts_stops (n k : nat) (url : str) (max_results : Z) (j : nat)
    (f : flow) :
  (j < n)%nat ->
  (forall i, (i < j)%nat ->
     attempt urlparse parse_qs head get parse_html (k + i) url []
       max_results = Ret Next) ->
  attempt urlparse parse_qs head get parse_html (k + j) url []
    max_results = Ret f ->
  f <> Next ->
  try_attempts urlparse parse_qs head get parse_html n k url []
    max_results
  = Ret (match f with Return res => Some res | _ => None end,
         S (k + j)).
Proof.
  revert k j. induction n as [|n IH]; intros k j Hj Hpre Hat Hf; [lia|].
  cbn [try_attempts]. destruct j as [|j].
  - rewrite Nat.add_0_r in *. rewrite Hat. cbn [bind].
    destruct f; [reflexivity | reflexivity | contradiction].
  - pose proof (Hpre 0%nat ltac:(lia)) as H0. rewrite Nat.add_0_r in H0.
    rewrite H0. cbn [bind].
    replace (k + S j)%nat with (S k + j)%nat in * by lia.
    apply IH; [lia| |exact Hat|exact Hf].
    intros i Hi. replace (S k + i)%nat with (k + S i)%nat by lia.
    apply Hpre. lia.
Qed.

Lemma try_attempts_exhausted (n k : nat) (url : str) (max_results : Z) :
  (forall i, (i < n)%nat ->
     attempt urlparse parse_qs head get parse_html (k + i) url []
       max_results = Ret Next) ->
  try_attempts urlparse parse_qs head get parse_html n k url []
    max_results = Ret (None, (k + n)%nat).
Proof.
  revert k. induction n as [|n IH]; intros k Hall.
  - simpl. rewrite Nat.add_0_r. reflexivity.
  - cbn [try_attempts].
    pose proof (Hall 0%nat ltac:(lia)) as H0. rewrite Nat.add_0_r in H0.
    rewrite H0. cbn [bind]. replace (k + S n)%nat with (S k + n)%nat by lia.
    apply IH. intros i Hi. replace (S k + i)%nat with (k + S i)%nat by lia.
    apply Hall. lia.
Qed.

Lemma try_urls_result (urls : list str) (max_results : Z) :
  forall k l,
    try_urls urlparse parse_qs head get parse_html urls k []
      max_results = Ret l ->
    l = [] \/
    exists k' url,
      In url urls /\
      attempt urlparse parse_qs head get parse_html k' url []
        max_results = Ret (Return l).
Proof.
  induction urls as [|url rest IH]; intros k l; cbn [try_urls].
  - intros H. injection H as <-. left. reflexivity.
  - destruct (try_attempts_spec max_retries k url max_results)
      as [(j & res & _ & _ & Hat & H) | [(j & _ & _ & _ & H) | (_ & H)]];
      rewrite H; cbn [bind].
    + intros E. injection E as <-. right. exists (k + j)%nat, url.
      split; [left; reflexivity | exact Hat].
    + intros E. destruct (IH _ _ E) as [-> | (k' & u & Hu & Hk)]; [auto|].
      right. exists k', u. split; [right; exact Hu | exact Hk].
    + intros E. destruct (IH _ _ E) as [-> | (k' & u & Hu & Hk)]; [auto|].
      right. exists k', u. split; [right; exact Hu | exact Hk].
Qed.

Lemma not_challenge_page (html : str) :
  ~ challenge_page html -> bot_challenge html = false.
Proof.
  unfold challenge_page, bot_challenge. intros H.
  destruct (contains (of_ascii "Our systems have detected unusual traffic") html);
    [exfalso; auto|].
  destruct (contains (of_ascii "recaptcha") html); [exfalso; auto | reflexivity].
Qed.

Lemma is_challenge_page (html : str) :
  challenge_page html -> bot_challenge html = true.
Proof.
  unfold challenge_page, bot_challenge. intros [H | H]; rewrite H;
    [reflexivity | apply orb_true_r].
Qed.

Lemma attempt_yields (k : nat) (url : str) (max_results : Z) (res : list product) :
  request_yields urlparse parse_qs head get parse_html max_results k url res ->
  attempt urlparse parse_qs head get parse_html k url [] max_results
  = Ret (Return res) /\
  Z.of_nat (List.length res) <= max_results.
Proof.
  intros (Hne & html & soup & Hget & Hnc & Hparse & Hext). unfold attempt.
  rewrite Hget. cbn [bind]. rewrite (not_challenge_page _ Hnc), Hparse. cbn [bind].
  rewrite Hext. cbn [bind app].
  pose proof (extract_products_bound _ _ _ Hext) as Hlen.
  destruct res as [|p ps]; [contradiction|]. cbn [try_except].
  assert (Hpos : 0 < max_results) by (simpl in Hlen; lia).
  unfold slice_to.
  replace (0 <=? max_results) with true by (symmetry; apply Z.leb_le; lia).
  rewrite firstn_all2 by exact Hlen. split; [reflexivity|].
  simpl in Hlen |- *. lia.
Qed.

Lemma attempt_challenged (k : nat) (url : str) (max_results : Z) :
  request_challenged get k url ->
  attempt urlparse parse_qs head get parse_html k url [] max_results = Ret Break.
Proof.
  intros (html & Hget & Hc). unfold attempt.
  rewrite Hget. cbn [bind]. rewrite (is_challenge_page _ Hc). reflexivity.
Qed.

Lemma attempt_fails (k : nat) (url : str) (max_results : Z) :
  request_fails urlparse parse_qs head get parse_html max_results k url ->
  attempt urlparse parse_qs head get parse_html k url [] max_results = Ret Next.
Proof.
  unfold attempt.
  intros [(e & Hget) | [(html & e & Hget & Hnc & Hparse)
                       | [(html & soup & Hget & Hnc & Hparse & Hext)
                         | (e & html & soup & Hget & Hnc & Hparse & Hext)]]];
    rewrite Hget; cbn [bind try_except]; [reflexivity| | |];
    rewrite (not_challenge_page _ Hnc), Hparse; cbn [bind try_except];
    [reflexivity| |]; rewrite Hext; reflexivity.
Qed.

Lemma attempt_return_yields (k : nat) (url : str) (max_results : Z)
    (res : list product) :
  attempt urlparse parse_qs head get parse_html k url [] max_results
  = Ret (Return res) ->
  request_yields urlparse parse_qs head get parse_html max_results k url res.
Proof.
  unfold attempt.
  destruct (get k url) as [html|x] eqn:Hget; cbn [bind try_except]; [|discriminate].
  destruct (bot_challenge html) eqn:Hbot; cbn [try_except]; [discriminate|].
  destruct (parse_html html) as [soup|x] eqn:Hparse; cbn [bind try_except];
    [|discriminate].
  destruct (_extract_google_shopping_products _ _ _ soup max_results)
    as [[|p ps]|x] eqn:Hext; cbn [bind try_except]; try discriminate.
  intros H. injection H as <-.
  pose proof (extract_products_bound _ _ _ Hext) as Hlen. cbn [app].
  assert (Hpos : 0 < max_results) by (simpl in Hlen; lia).
  unfold slice_to.
  replace (0 <=? max_results) with true by (symmetry; apply Z.leb_le; lia).
  rewrite firstn_all2 by exact Hlen.
  split; [discriminate|]. exists html, soup.
  split; [exact Hget|]. split; [|split; [exact Hparse | exact Hext]].
  intros Hc. apply is_challenge_page in Hc. congruence.
Qed.

(** C6 (as amended). A query that [quote_plus] cannot encode makes the
    fetch raise, before any request.  For every other query the fetch
    returns a list, of at most [max_results] products, and goes through
    its targets like this: on a target, the first request that is
    answered by a page without bot challenge from which the extraction
    gets products ends the whole fetch with these products, whatever
    the later targets and attempts would give; a page with a bot
    challenge -- it contains the unusual-traffic notice or the word
    recaptcha -- ends the attempts on its target and the next target is
    tried; a target whose requests all fail is left after [max_retries]
    attempts.  When no request yields products the result is the empty
    list. *)
Theorem fetch_returns_first_products_or_empty (query : str) (max_results : Z) :
  (forall e, quote_plus query = Raise e ->
     search_google_shopping urlparse parse_qs head quote_plus get
       parse_html query max_results = Raise e) /\
  (forall encoded, quote_plus query = Ret encoded ->
     search_google_shopping urlparse parse_qs head quote_plus get
       parse_html query max_results
     = try_urls urlparse parse_qs head get parse_html
         (urls_to_try encoded) 0 [] max_results /\
     exists l,
       search_google_shopping urlparse parse_qs head quote_plus get
         parse_html query max_results = Ret l /\
       (Z.of_nat (List.length l) <= Z.max 0 max_results)) /\
  (forall (url : str) (rest : list str) (k j : nat) (res : list product),
     (j < max_retries)%nat ->
     (forall i, (i < j)%nat ->
        request_fails urlparse parse_qs head get parse_html max_results
          (k + i) url) ->
     request_yields urlparse parse_qs head get parse_html max_results
       (k + j) url res ->
     try_urls urlparse parse_qs head get parse_html
       (url :: rest) k [] max_results = Ret res /\
     Z.of_nat (List.length res) <= max_results) /\
  (forall (url : str) (rest : list str) (k j : nat),
     (j < max_retries)%nat ->
     (forall i, (i < j)%nat ->
        request_fails urlparse parse_qs head get parse_html max_results
          (k + i) url) ->
     request_challenged get (k + j) url ->
     try_urls urlparse parse_qs head get parse_html
       (url :: rest) k [] max_results
     = try_urls urlparse parse_qs head get parse_html
         rest (S (k + j)) [] max_results) /\
  (forall (url : str) (rest : list str) (k : nat),
     (forall i, (i < max_retries)%nat ->
        request_fails urlparse parse_qs head get parse_html max_results
          (k + i) url) ->
     try_urls urlparse parse_qs head get parse_html
       (url :: rest) k [] max_results
     = try_urls urlparse parse_qs head get parse_html
         rest (k + max_retries) [] max_results) /\
  (forall encoded, quote_plus query = Ret encoded ->
     (forall k url res,
        ~ request_yields urlparse parse_qs head get parse_html max_results
            k url res) ->
     search_google_shopping urlparse parse_qs head quote_plus get
       parse_html query max_results = Ret []).
Proof.
  split; [|split; [|split; [|split; [|split]]]].
  - intros e He. unfold search_google_shopping. rewrite He. reflexivity.
  - intros encoded He. unfold search_google_shopping. rewrite He. cbn [bind].
    split; [reflexivity|].
    destruct (try_urls_returns (urls_to_try encoded) 0 max_results) as [l Hl].
    exists l. split; [exact Hl|].
    apply try_urls_result in Hl as [-> | (k' & url & _ & Hat)]; [simpl; lia|].
    apply attempt_return_inv in Hat as (_ & _ & _ & _ & _ & _ & _ & H). lia.
  - intros url rest k j res Hj Hpre Hy.
    apply attempt_yields in Hy as [Hat Hlen]. cbn [try_urls].
    rewrite (try_attempts_stops _ _ _ _ j (Return res) Hj);
      [cbn [bind]; auto | | exact Hat | discriminate].
    intros i Hi. apply attempt_fails. apply Hpre. exact Hi.
  - intros url rest k j Hj Hpre Hc.
    apply (attempt_challenged _ _ max_results) in Hc. cbn [try_urls].
    rewrite (try_attempts_stops _ _ _ _ j Break Hj);
      [reflexivity | | exact Hc | discriminate].
    intros i Hi. apply attempt_fails. apply Hpre. exact Hi.
  - intros url rest k Hall. cbn [try_urls].
    rewrite try_attempts_exhausted; [reflexivity|].
    intros i Hi. apply attempt_fails. apply Hall. exact Hi.
  - intros encoded He Hno. unfold search_google_shopping. rewrite He. cbn [bind].
    apply try_urls_empty. intros k url res Hat.
    apply attempt_return_yields in Hat. exact (Hno _ _ _ Hat).
Qed.

End Fetch.

Lemma extraction_uses_first_matching_selector_witness :
  exists products,
    ServerScraper._extract_google_shopping_products example_urlparse
      example_parse_qs example_head example_soup 5 = Ret products /\
    List.map nome products = [of_ascii "TV A"; of_ascii "TV C"] /\
    (List.length products <= Z.to_nat 5)%nat.
Proof.
  destruct (ServerScraper._extract_google_shopping_products example_urlparse
              example_parse_qs example_head example_soup 5) as [products|x] eqn:E;
    [|vm_compute in E; discriminate E].
  exists products. split; [reflexivity|].
  destruct (extraction_uses_first_matching_selector _ _ _ _ _ _ E) as (_ & H & _).
  split; [|exact H].
  vm_compute in E. injection E as <-. reflexivity.
Defined.

Lemma fetch_returns_first_products_or_empty_witness :
  exists res,
    ServerScraper.search_google_shopping example_urlparse example_parse_qs
      example_head example_quote_plus example_get example_parse_html
      (of_ascii "tv") 5 = Ret res /\
    List.map nome res = [of_ascii "TV A"; of_ascii "TV C"].
Proof.
  pose proof (fetch_returns_first_products_or_empty example_urlparse
                example_parse_qs example_head example_quote_plus example_get
                example_parse_html (of_ascii "tv") 5)
    as (_ & Hsearch & Hstop & Hbreak & _).
  destruct (Hsearch (of_ascii "tv") eq_refl) as [-> _].
  destruct (ServerScraper.urls_to_try (of_ascii "tv"))
    as [|u1 [|u2 rest]] eqn:Hu; try (vm_compute in Hu; discriminate Hu).
  assert (Hclean : ~ challenge_page (of_ascii "<html>")).
  { intros [H | H]; vm_compute in H; discriminate H. }
  (* first target: a timeout, then a bot challenge *)
  rewrite (Hbreak u1 (u2 :: rest) 0%nat 1%nat).
  - (* second target: the first request yields products *)
    destruct (ServerScraper._extract_google_shopping_products example_urlparse
                example_parse_qs example_head example_soup 5) as [res|x] eqn:E;
      [|vm_compute in E; discriminate E].
    exists res.
    destruct (Hstop u2 rest 2%nat 0%nat res) as [H2 _].
    + unfold ServerScraper.max_retries. lia.
    + intros i Hi. lia.
    + split; [vm_compute in E; injection E as <-; discriminate|].
      exists (of_ascii "<html>"), example_soup.
      split; [reflexivity|]. split; [exact Hclean|]. split; [reflexivity | exact E].
    + split; [exact H2|]. vm_compute in E. injection E as <-. reflexivity.
  - unfold ServerScraper.max_retries. lia.
  - intros i Hi. assert (i = 0%nat) as -> by lia. left. exists Timeout. reflexivity.
  - exists (of_ascii "<div id=recaptcha>"). split; [reflexivity|].
    right. vm_compute. reflexivity.
Defined.

(** C6, counterexample. A query with a lone surrogate cannot be encoded:
    the fetch raises the error of [quote_plus] and returns no list. *)
Lemma fetch_unencodable_query_counterexample :
  example_quote_plus [55357%N] = Raise ValueError /\
  ServerScraper.search_google_shopping example_urlparse example_parse_qs
    example_head example_quote_plus example_get example_parse_html
    [55357%N] 5 = Raise ValueError /\
  forall l,
    ServerScraper.search_google_shopping example_urlparse example_parse_qs
      example_head example_quote_plus example_get example_parse_html
      [55357%N] 5 <> Ret l.
Proof.
  split; [reflexivity|]. split; [reflexivity|]. intros l. discriminate.
Qed.

(** ** Search: validation, cache and lock *)

Section SearchFacts.

Variable lower : str -> str.

Lemma search_blank (st : state) (e : env) (query : option str) :
  blank query = true ->
  search_products lower st e query = (Raise ValueError, st, []).
Proof. intros H. unfold search_products. rewrite H. reflexivity. Qed.

Lemma search_hit (st : state) (e : env) (q : str) (out : output) :
  blank (Some q) = false ->
  cached st (current_time e) (cache_key_of lower q) = Some out ->
  search_products lower st e (Some q)
  = (Ret (out, None), st, [CacheRead (cache_key_of lower q)]).
Proof.
  intros Hb Hc. unfold search_products. rewrite Hb. simpl.
  unfold cache_key_of in Hc. rewrite Hc. reflexivity.
Qed.

Lemma search_busy (st : state) (e : env) (q : str) :
  blank (Some q) = false ->
  cached st (current_time e) (cache_key_of lower q) = None ->
  search_lock st = true ->
  search_products lower st e (Some q)
  = (Raise RuntimeError, st, [CacheRead (cache_key_of lower q); LockRefused]).
Proof.
  intros Hb Hc Hl. unfold search_products. rewrite Hb. simpl.
  unfold cache_key_of in Hc. rewrite Hc, Hl. reflexivity.
Qed.

(** C8 (as amended). A query that is empty or blank once trimmed fails
    with [ValueError] and has no effect: the state is unchanged and
    nothing is read, locked or fetched.  A call with a non-blank query
    that finds no fresh cache entry while another search holds the lock
    fails with [RuntimeError] at once, the state unchanged, nothing
    fetched; a call that finds a fresh cache entry is served from the
    cache even then. *)
Theorem search_rejects_blank_and_busy (st : state) (e : env) :
  (forall query, blank query = true ->
     search_products lower st e query = (Raise ValueError, st, [])) /\
  (forall q, blank (Some q) = false -> search_lock st = true ->
     cached st (current_time e) (cache_key_of lower q) = None ->
     search_products lower st e (Some q)
     = (Raise RuntimeError, st, [CacheRead (cache_key_of lower q); LockRefused])) /\
  (forall q out, blank (Some q) = false -> search_lock st = true ->
     cached st (current_time e) (cache_key_of lower q) = Some out ->
     search_products lower st e (Some q)
     = (Ret (out, None), st, [CacheRead (cache_key_of lower q)])).
Proof.
  split; [|split].
  - intros query H. apply search_blank. exact H.
  - intros q Hb Hl Hc. apply search_busy; assumption.
  - intros q out Hb _ Hc. apply search_hit; assumption.
Qed.

(** A search that runs the pipeline to its end stores its result under
    the key of the query, with the time of the call. *)
Lemma search_stores (st st' : state) (e : env) (q : str) (out : output)
    (path : str) (evs : list event) :
  search_products lower st e (Some q) = (Ret (out, Some path), st', evs) ->
  search_cache st' !! cache_key_of lower q = Some (current_time e, out).
Proof.
  unfold search_products. destruct (blank (Some q)); [discriminate|]. simpl.
  fold (cache_key_of lower q).
  destruct (cached st (current_time e) (cache_key_of lower q)); [discriminate|].
  destruct (search_lock st); [discriminate|].
  destruct (run_search e (strip q)) as [[[formatted json]|x] evs'];
    [|discriminate].
  intros H. injection H as <- _ <- _. simpl. apply lookup_insert_eq.
Qed.

(** C9. After a search of a non-blank query has run the pipeline and
    returned, a search made less than 300 seconds later (by the clock of
    the two calls) with a query that has the same trimmed, lower-cased
    text returns the stored result itself, leaves the state as it is and
    fetches nothing: its only effect is the cache read. *)
Theorem repeated_search_served_from_cache
    (st st' : state) (e1 e2 : env) (q1 q2 : str) (out : output) (path : str)
    (evs : list event) :
  search_products lower st e1 (Some q1) = (Ret (out, Some path), st', evs) ->
  blank (Some q2) = false ->
  lower (strip q2) = lower (strip q1) ->
  flt (fsub (current_time e2) (current_time e1)) ttl = true ->
  search_products lower st' e2 (Some q2)
  = (Ret (out, None), st', [CacheRead (lower (strip q1))]) /\
  ~ In (Fetch (strip q2)) [CacheRead (lower (strip q1))].
Proof.
  intros H1 Hb Hkey Httl. apply search_stores in H1. split.
  - rewrite (search_hit st' e2 q2 out Hb).
    + unfold cache_key_of. rewrite Hkey. reflexivity.
    + unfold cached, cache_key_of in *. rewrite Hkey, H1, Httl. reflexivity.
  - intros [H | []]. discriminate H.
Qed.

End SearchFacts.

Lemma cached_busy_state :
  cached busy_state (of_decimal 1100 0) (of_ascii "tv") = Some example_output.
Proof.
  unfold cached, busy_state. cbn [search_cache].
  rewrite lookup_singleton_eq.
  replace (flt (fsub (of_decimal 1100 0) (of_decimal 1000 0)) ttl) with true
    by (vm_compute; reflexivity).
  reflexivity.
Qed.

(** C8, counterexample. While another search holds the lock, a call whose
    query has a fresh cache entry is not refused: it returns the cached
    result. *)
Lemma search_busy_cache_hit_counterexample :
  search_lock busy_state = true /\
  blank (Some (of_ascii "TV ")) = false /\
  search_products ascii_lower busy_state (example_env (of_decimal 1100 0))
    (Some (of_ascii "TV "))
  = (Ret (example_output, None), busy_state, [CacheRead (of_ascii "tv")]) /\
  fst (fst (search_products ascii_lower busy_state (example_env (of_decimal 1100 0))
              (Some (of_ascii "TV "))))
  <> Raise RuntimeError.
Proof.
  assert (H : search_products ascii_lower busy_state (example_env (of_decimal 1100 0))
                (Some (of_ascii "TV "))
              = (Ret (example_output, None), busy_state, [CacheRead (of_ascii "tv")])).
  { unfold search_products.
    change (blank (Some (of_ascii "TV "))) with false. cbv iota.
    change (ascii_lower (strip (default [] (Some (of_ascii "TV ")))))
      with (of_ascii "tv").
    cbv zeta.
    change (current_time (example_env (of_decimal 1100 0))) with (of_decimal 1100 0).
    rewrite cached_busy_state. reflexivity. }
  split; [reflexivity|]. split; [reflexivity|]. split; [exact H|].
  rewrite H. discriminate.
Qed.

Lemma search_rejects_blank_and_busy_witness :
  search_products ascii_lower busy_state (example_env (of_decimal 1100 0))
    (Some (of_ascii "   "))
  = (Raise ValueError, busy_state, []) /\
  search_products ascii_lower busy_state (example_env (of_decimal 1100 0))
    (Some (of_ascii "radio"))
  = (Raise RuntimeError, busy_state, [CacheRead (of_ascii "radio"); LockRefused]).
Proof.
  destruct (search_rejects_blank_and_busy ascii_lower busy_state
              (example_env (of_decimal 1100 0))) as (H1 & H2 & _).
  split.
  - apply H1. reflexivity.
  - apply (H2 (of_ascii "radio")); [reflexivity | reflexivity |].
    unfold cached, busy_state. cbn [search_cache].
    change (cache_key_of ascii_lower (of_ascii "radio")) with (of_ascii "radio").
    rewrite lookup_singleton_ne by discriminate. reflexivity.
Defined.

Lemma idle_search :
  search_products ascii_lower idle_state (example_env (of_decimal 1000 0))
    (Some (of_ascii "tv"))
  = (Ret (example_output, Some (of_ascii "results/tv.json")),
     {| search_cache := <[ of_ascii "tv" := (of_decimal 1000 0, example_output) ]> ∅;
        search_lock := false |},
     [CacheRead (of_ascii "tv"); LockTaken; Fetch (of_ascii "tv"); FileSaved;
      CacheWrite (of_ascii "tv"); LockReleased]).
Proof.
  unfold search_products.
  change (blank (Some (of_ascii "tv"))) with false. cbv iota.
  change (strip (default [] (Some (of_ascii "tv")))) with (of_ascii "tv").
  change (ascii_lower (of_ascii "tv")) with (of_ascii "tv"). cbv zeta.
  unfold cached, idle_state. cbn [search_cache search_lock].
  rewrite lookup_empty.
  replace (run_search (example_env (of_decimal 1000 0)) (of_ascii "tv"))
    with (Ret (example_output, of_ascii "results/tv.json") : py (output * str),
          [Fetch (of_ascii "tv"); FileSaved])
    by (vm_compute; reflexivity).
  reflexivity.
Qed.

Lemma repeated_search_served_from_cache_witness :
  exists st',
    search_products ascii_lower st' (example_env (of_decimal 1100 0))
      (Some (of_ascii "  TV "))
    = (Ret (example_output, None), st', [CacheRead (of_ascii "tv")]).
Proof.
  eexists.
  refine (proj1 (repeated_search_served_from_cache ascii_lower idle_state _
            (example_env (of_decimal 1000 0)) (example_env (of_decimal 1100 0))
            (of_ascii "tv") (of_ascii "  TV ") example_output _ _
            idle_search _ _ _)).
  - reflexivity.
  - reflexivity.
  - vm_compute. reflexivity.
Defined.

(** ** More on the price normalizers *)

Lemma binary_round_aux_positive (mx ex : Z) (lx : location) :
  0 <= mx -> non_negative (binary_round_aux prec emax false mx ex lx).
Proof.
  intros H. unfold binary_round_aux.
  pose proof (shr_fexp_nonneg mx ex lx H) as H1.
  destruct (shr_fexp prec emax mx ex lx) as [mrs' e']. simpl in H1.
  pose proof (shr_fexp_nonneg _ e' loc_Exact
                (round_nearest_even_nonneg _ (loc_of_shr_record mrs') H1)) as H2.
  destruct (shr_fexp prec emax _ e' loc_Exact) as [mrs'' e'']. simpl in H2.
  destruct (shr_m mrs'') as [|m|m]; [split; reflexivity| |lia].
  destruct (e'' <=? emax - prec); split; reflexivity.
Qed.

Lemma of_decimal_non_negative (n k : N) : non_negative (of_decimal n k).
Proof.
  unfold of_decimal. destruct n as [|p]; [split; reflexivity|].
  unfold SFdiv, SFdiv_core_binary.
  set (m' := match _ - _ - _ with Z0 => _ | Zpos _ => _ | Zneg _ => _ end).
  assert (Hm : 0 <= m').
  { subst m'. destruct (_ - _ - _); try lia. apply Z.shiftl_nonneg. lia. }
  pose proof (Z_div_mod m' (Z.pos (Z.to_pos (10 ^ Z.of_N k))) ltac:(lia)) as Hd.
  destruct (Z.div_eucl m' (Z.pos (Z.to_pos (10 ^ Z.of_N k)))) as [q r].
  apply binary_round_aux_positive. nia.
Qed.

Lemma float_of_str_non_negative (s : str) (x : float) :
  float_of_str s = Some x -> non_negative x.
Proof.
  unfold float_of_str. destruct (split_period s) as [ip [fp|]].
  - destruct (ip ++ fp) as [|c l]; [discriminate|].
    destruct (digits_value 0 _) as [v|]; [|discriminate].
    intros H. injection H as <-. apply of_decimal_non_negative.
  - destruct ip as [|c l]; [discriminate|].
    destruct (digits_value 0 _) as [v|]; [|discriminate].
    intros H. injection H as <-. apply of_decimal_non_negative.
Qed.

Lemma scraper_price_non_negative (text : option str) (x : float) :
  ProductScraper.format_price text = Some x -> non_negative x.
Proof.
  unfold ProductScraper.format_price.
  destruct text as [[|c s]|]; try discriminate.
  apply float_of_str_non_negative.
Qed.

Lemma server_price_non_negative (text : option str) (x : float) :
  _format_price text = Some x -> non_negative x.
Proof.
  unfold _format_price. destruct text as [[|c s]|]; try discriminate.
  destruct (clean_price (c :: s)); [discriminate|].
  apply float_of_str_non_negative.
Qed.

(** X1. A price returned by either normalizer is a number and is not
    negative: a minus sign in the text is dropped with the other
    characters, so that a negative amount is read as its absolute
    value. *)
Theorem normalized_price_non_negative (text : option str) (x : float) :
  ProductScraper.format_price text = Some x \/ _format_price text = Some x ->
  non_negative x.
Proof.
  intros [H | H];
    [exact (scraper_price_non_negative _ _ H) | exact (server_price_non_negative _ _ H)].
Qed.

Lemma normalized_price_non_negative_witness :
  non_negative (of_decimal 1250 2).
Proof.
  apply (normalized_price_non_negative (Some (of_ascii "R$ -12,50"))).
  right. vm_compute. reflexivity.
Defined.

(** *** Exchanging commas and periods *)

Lemma swap_separator_cases (c : N) :
  (c = comma /\ swap_separator c = period) \/
  (c = period /\ swap_separator c = comma) \/
  (c <> comma /\ c <> period /\ swap_separator c = c).
Proof.
  unfold swap_separator.
  destruct (N.eqb_spec c comma); [auto|].
  destruct (N.eqb_spec c period); auto.
Qed.

Ltac swap_cases c :=
  destruct (swap_separator_cases c) as [[-> ->] | [[-> ->] | (? & ? & ->)]].

Lemma swap_is_space (c : N) : is_space (swap_separator c) = is_space c.
Proof. swap_cases c; reflexivity. Qed.

Lemma swap_eqb_other (c d : N) :
  d <> comma -> d <> period -> (swap_separator c =? d)%N = (c =? d)%N.
Proof.
  intros H1 H2. swap_cases c; try reflexivity.
  - destruct (N.eqb_spec period d), (N.eqb_spec comma d); congruence.
  - destruct (N.eqb_spec period d), (N.eqb_spec comma d); congruence.
Qed.

Lemma swap_is_currency (c : N) : is_currency (swap_separator c) = is_currency c.
Proof.
  unfold is_currency. rewrite !swap_eqb_other by discriminate. reflexivity.
Qed.

Lemma swap_ci_eq (p c : N) :
  p <> comma -> p <> period -> ci_eq p (swap_separator c) = ci_eq p c.
Proof.
  intros H1 H2. unfold ci_eq.
  rewrite (swap_eqb_other c p), (swap_eqb_other c 192), (swap_eqb_other c 304),
    (swap_eqb_other c 305), (swap_eqb_other c 383) by (discriminate || auto).
  destruct ((97 <=? p) && (p <=? 122))%N eqn:E; [|reflexivity].
  apply andb_true_iff in E as [Ea Eb].
  apply N.leb_le in Ea, Eb.
  rewrite swap_eqb_other; [reflexivity| |]; unfold comma, period; lia.
Qed.

Lemma swap_ci_startswith (p s : str) :
  ~ In comma p -> ~ In period p ->
  ci_startswith p (swap_separators s) = ci_startswith p s.
Proof.
  revert s. induction p as [|a p IH]; intros s H1 H2; [destruct s; reflexivity|].
  destruct s as [|b s]; [reflexivity|]. simpl.
  rewrite swap_ci_eq by (intros ->; simpl in *; tauto).
  f_equal. apply IH; simpl in *; tauto.
Qed.

Lemma swap_qualifier_at (s : str) :
  qualifier_at (swap_separators s) = qualifier_at s.
Proof.
  unfold qualifier_at, qualifiers. cbn [existsb].
  rewrite !swap_ci_startswith; [reflexivity|..];
    vm_compute; intuition discriminate.
Qed.

Lemma swap_lstrip (s : str) :
  lstrip (swap_separators s) = swap_separators (lstrip s).
Proof.
  induction s as [|c s IH]; [reflexivity|]. simpl.
  rewrite swap_is_space. destruct (is_space c); [exact IH | reflexivity].
Qed.

Lemma swap_strip (s : str) :
  strip (swap_separators s) = swap_separators (strip s).
Proof.
  unfold strip, rstrip, swap_separators.
  rewrite <- map_rev. fold (swap_separators (rev s)).
  rewrite swap_lstrip. unfold swap_separators. rewrite <- map_rev.
  apply swap_lstrip.
Qed.

Lemma swap_remove_currency_aux (n : nat) :
  forall (s : str) (skip : bool),
    (List.length s <= n)%nat ->
    remove_currency_aux skip (swap_separators s)
    = swap_separators (remove_currency_aux skip s).
Proof.
  induction n as [|n IH]; intros s skip Hlen.
  - destruct s; [reflexivity | simpl in Hlen; lia].
  - destruct s as [|c rest]; [reflexivity|]. simpl in Hlen.
    cbn [remove_currency_aux swap_separators List.map].
    rewrite swap_is_space, swap_is_currency, swap_eqb_other by discriminate.
    destruct (skip && is_space c); [apply IH; lia|].
    destruct (is_currency c); [apply IH; lia|].
    destruct (c =? 82)%N.
    + destruct rest as [|d rest']; [reflexivity|].
      cbn [List.map]. rewrite swap_eqb_other by discriminate.
      destruct (d =? 36)%N; [apply IH; simpl in Hlen; lia|].
      cbn [List.map]. f_equal. apply (IH (d :: rest')). lia.
    + cbn [List.map]. f_equal. apply IH. lia.
Qed.

Lemma swap_before_qualifier (s : str) :
  before_qualifier (swap_separators s) = swap_separators (before_qualifier s).
Proof.
  induction s as [|c s IH]; [reflexivity|].
  cbn [before_qualifier swap_separators List.map].
  fold (swap_separators s).
  rewrite swap_is_space, swap_lstrip, swap_qualifier_at.
  destruct (is_space c && qualifier_at (lstrip s)); [reflexivity|].
  cbn [List.map]. f_equal. exact IH.
Qed.

Lemma swap_price_text (s : str) :
  price_text (swap_separators s) = swap_separators (price_text s).
Proof.
  unfold price_text, remove_currency.
  rewrite (swap_remove_currency_aux (List.length s)) by lia.
  rewrite swap_strip. apply swap_before_qualifier.
Qed.

Lemma swap_rfind_from (s : str) (i : Z) :
  rfind_from i comma (swap_separators s) = rfind_from i period s /\
  rfind_from i period (swap_separators s) = rfind_from i comma s.
Proof.
  revert i. induction s as [|c s IH]; intros i; [split; reflexivity|].
  cbn [rfind_from swap_separators List.map]. fold (swap_separators s).
  destruct (IH (i + 1)) as [-> ->].
  swap_cases c; split; try reflexivity.
  - destruct (N.eqb_spec c comma), (N.eqb_spec c period); congruence.
  - destruct (N.eqb_spec c comma), (N.eqb_spec c period); congruence.
Qed.

Lemma swap_remove_period (s : str) :
  remove_char comma (swap_separators s)
  = replace_char comma period (remove_char period s).
Proof.
  induction s as [|c s IH]; [reflexivity|].
  cbn [swap_separators List.map]. fold (swap_separators s).
  unfold remove_char, replace_char in *. cbn [List.filter].
  swap_cases c.
  - cbn. rewrite IH. reflexivity.
  - cbn. exact IH.
  - destruct (N.eqb_spec c comma), (N.eqb_spec c period); try congruence.
    cbn [negb List.map]. destruct (N.eqb_spec c comma); [congruence|].
    rewrite IH. reflexivity.
Qed.

Lemma swap_remove_comma (s : str) :
  replace_char comma period (remove_char period (swap_separators s))
  = remove_char comma s.
Proof.
  induction s as [|c s IH]; [reflexivity|].
  cbn [swap_separators List.map]. fold (swap_separators s).
  unfold remove_char, replace_char in *. cbn [List.filter].
  swap_cases c.
  - cbn. exact IH.
  - cbn. rewrite IH. reflexivity.
  - destruct (N.eqb_spec c comma), (N.eqb_spec c period); try congruence.
    cbn [negb List.map]. destruct (N.eqb_spec c comma); [congruence|].
    rewrite IH. reflexivity.
Qed.

Lemma swap_absent (s : str) :
  ~ In comma s -> ~ In period s -> swap_separators s = s.
Proof.
  induction s as [|c s IH]; intros H1 H2; [reflexivity|]. simpl in *.
  swap_cases c; try tauto. f_equal. apply IH; tauto.
Qed.

Lemma swap_disambiguate (t : str) :
  disambiguate (swap_separators t) = disambiguate t.
Proof.
  unfold disambiguate, rfind.
  destruct (swap_rfind_from t 0) as [-> ->].
  destruct (rfind_from 0 comma t >? rfind_from 0 period t) eqn:E1.
  - assert (E2 : (rfind_from 0 period t >? rfind_from 0 comma t) = false).
    { rewrite Z.gtb_ltb, Z.ltb_ge. apply Z.gtb_lt in E1. lia. }
    rewrite E2. destruct (Z.gtb _ _); apply swap_remove_period.
  - destruct (rfind_from 0 period t >? rfind_from 0 comma t) eqn:E2.
    + apply swap_remove_comma.
    + assert (Hc : ~ In comma t) by (apply no_separator_branch; assumption).
      assert (Hp : ~ In period t).
      { apply rfind_neg_absent.
        pose proof (rfind_absent comma t Hc) as Ha. unfold rfind in *.
        rewrite Z.gtb_ltb, Z.ltb_ge in E1, E2. lia. }
      rewrite swap_absent by assumption. reflexivity.
Qed.

(** X2. The server-side normalizer treats comma and period alike: a text
    and the text with every comma and period exchanged normalize to the
    same price, so that 1.234,56 and 1,234.56 are the same amount and a
    single separator is a decimal mark whichever character it is. *)
Theorem format_price_separator_symmetry (s : str) :
  _format_price (Some (swap_separators s)) = _format_price (Some s).
Proof.
  unfold _format_price, clean_price.
  rewrite swap_price_text, swap_disambiguate.
  destruct s; reflexivity.
Qed.

(** *** A currency symbol before the amount and a qualifier after it *)

Lemma remove_currency_aux_kept (l r : str) (skip : bool) :
  Forall kept l ->
  last l 0%N <> 82%N ->
  (skip = true -> exists c l', l = c :: l' /\ is_space c = false) ->
  l <> [] ->
  remove_currency_aux skip (l ++ r) = l ++ remove_currency_aux false r.
Proof.
  revert skip. induction l as [|c l IH]; intros skip Hk Hlast Hskip Hne;
    [congruence|].
  inversion Hk as [|? ? Hc Hl]; subst.
  cbn [app remove_currency_aux]. unfold kept in Hc. rewrite Hc.
  assert (E : skip && is_space c = false).
  { destruct skip; [|reflexivity].
    destruct (Hskip eq_refl) as (c' & l' & Heq & Hs). injection Heq as <- <-.
    exact Hs. }
  rewrite E.
  destruct l as [|d l].
  - simpl in Hlast. destruct (N.eqb_spec c 82); [congruence|]. reflexivity.
  - assert (Hd : (d =? 36)%N = false).
    { inversion Hl as [|? ? Hd _]; subst. unfold kept, is_currency in Hd.
      destruct (d =? 36)%N; [discriminate | reflexivity]. }
    assert (IH' : remove_currency_aux false ((d :: l) ++ r)
                  = (d :: l) ++ remove_currency_aux false r).
    { apply IH; [assumption| exact Hlast | discriminate | discriminate]. }
    cbn [app] in IH' |- *. rewrite Hd, IH'.
    destruct (c =? 82)%N; reflexivity.
Qed.

Lemma remove_currency_aux_white (ws r : str) :
  white ws -> remove_currency_aux true (ws ++ r) = remove_currency_aux true r.
Proof.
  induction 1 as [|c ws Hc _ IH]; [reflexivity|].
  cbn [app remove_currency_aux]. rewrite Hc. exact IH.
Qed.

Lemma space_kept (c : N) : is_space c = true -> kept c /\ c <> 82%N.
Proof.
  intros H. apply is_space_cases in H. simpl in H.
  repeat (destruct H as [<- | H]; [split; [reflexivity | discriminate]|]).
  destruct H.
Qed.

Lemma amount_char_kept (c : N) :
  amount_char c = true -> kept c /\ c <> 82%N /\ is_space c = false.
Proof.
  intros H.
  assert (Hd : ProductScraper.digit_or_comma c = true \/ c = period).
  { unfold amount_char in H. unfold ProductScraper.digit_or_comma.
    apply orb_true_iff in H as [H | H]; [left; exact H|].
    right. apply N.eqb_eq. exact H. }
  destruct Hd as [Hd | ->]; [|repeat split; discriminate].
  destruct drops_symbols_digit_or_comma as (Hs & Hc & HR).
  repeat split.
  - unfold kept. destruct (is_currency c) eqn:E; [|reflexivity].
    rewrite (Hc c E) in Hd. discriminate.
  - intros ->. rewrite HR in Hd. discriminate.
  - destruct (is_space c) eqn:E; [|reflexivity].
    rewrite (Hs c E) in Hd. discriminate.
Qed.

(** The characters that match a pattern character other than a symbol. *)
Lemma ci_eq_cases (p c : N) :
  ci_eq p c = true ->
  c = p \/ c = (p - 32)%N \/ c = 192%N \/ c = 304%N \/ c = 305%N \/ c = 383%N.
Proof.
  unfold ci_eq. intros H.
  repeat (apply orb_true_iff in H; destruct H as [H | H]);
    repeat (apply andb_true_iff in H; destruct H as [? H]);
    repeat (apply orb_true_iff in H; destruct H as [H | H]);
    apply N.eqb_eq in H; auto 7.
Qed.

(** The text matched by a qualifier phrase [p] at the start of [s]. *)
Lemma ci_startswith_split (p s : str) :
  ci_startswith p s = true ->
  exists m tail, s = m ++ tail /\ Forall2 (fun a b => ci_eq a b = true) p m.
Proof.
  revert s. induction p as [|a p IH]; intros s H.
  - exists [], s. split; [reflexivity | constructor].
  - destruct s as [|b s]; [discriminate|]. simpl in H.
    apply andb_true_iff in H as [Hab H].
    destruct (IH s H) as (m & tail & -> & Hm).
    exists (b :: m), tail. split; [reflexivity | constructor; assumption].
Qed.

Lemma ci_startswith_app (p m tail : str) :
  Forall2 (fun a b => ci_eq a b = true) p m ->
  ci_startswith p (m ++ tail) = true.
Proof.
  induction 1 as [|a b p m Hab _ IH]; [destruct tail; reflexivity|].
  simpl. rewrite Hab. exact IH.
Qed.

(** A character of a qualifier phrase is matched by no currency symbol. *)
Lemma phrase_chars (q : str) :
  In q qualifiers -> Forall (fun p => forall c, ci_eq p c = true -> kept c) q.
Proof.
  intros Hq. simpl in Hq.
  assert (H : forall p, In p (of_ascii "a partir de" ++ 224%N :: of_ascii " vista"
                              ++ of_ascii "no pix") ->
                        forall c, ci_eq p c = true -> kept c).
  { intros p Hp c Hc. apply ci_eq_cases in Hc. simpl in Hp.
    repeat (destruct Hp as [<- | Hp];
            [repeat (destruct Hc as [-> | Hc]); try subst c; reflexivity|]).
    destruct Hp. }
  apply Forall_forall. intros p Hp. apply H.
  destruct Hq as [<- | [<- | [<- | []]]]; simpl in Hp |- *; tauto.
Qed.

Lemma matched_phrase (q m : str) :
  In q qualifiers ->
  Forall2 (fun a b => ci_eq a b = true) q m ->
  Forall kept m /\ last m 0%N <> 82%N /\ is_space (last m 0%N) = false /\
  exists c m', m = c :: m' /\ is_space c = false.
Proof.
  intros Hq Hm. pose proof (phrase_chars q Hq) as Hp.
  assert (Hk : Forall kept m).
  { clear Hq. induction Hm as [|a b p m Hab _ IH]; [constructor|].
    inversion Hp as [|? ? Ha Hp']; subst.
    constructor; [apply (Ha b Hab) | apply IH; exact Hp']. }
  split; [exact Hk|].
  unfold qualifiers in Hq.
  destruct Hq as [<- | [<- | [<- | []]]];
    match goal with
    | H : Forall2 _ ?q _ |- _ =>
        let l := eval vm_compute in q in change q with l in *
    end;
    repeat match goal with
           | H : Forall2 _ (_ :: _) _ |- _ =>
               apply Forall2_cons_inv_l in H as (? & ? & ? & H & ->)
           | H : Forall2 _ [] _ |- _ => apply Forall2_nil_inv_l in H as ->
           end;
    cbn [last];
    (split; [|split; [|eexists _, _; split; [reflexivity|]]]);
    match goal with
    | H : ci_eq _ ?c = true |- ?c <> _ => apply ci_eq_cases in H
    | H : ci_eq _ ?c = true |- is_space ?c = false => apply ci_eq_cases in H
    end;
    match goal with
    | H : _ \/ _ |- _ =>
        destruct H as [-> | [-> | [-> | [-> | [-> | ->]]]]]; vm_compute;
        congruence
    end.
Qed.

Lemma last_app_r {A : Type} (l1 l2 : list A) (d : A) :
  l2 <> [] -> List.last (l1 ++ l2) d = List.last l2 d.
Proof.
  intros H. destruct (exists_last H) as (a & c & ->).
  rewrite app_assoc, !last_last. reflexivity.
Qed.

Lemma lstrip_white (ws r : str) : white ws -> lstrip (ws ++ r) = lstrip r.
Proof.
  induction 1 as [|c ws Hc _ IH]; [reflexivity|]. simpl. rewrite Hc. exact IH.
Qed.

Lemma lstrip_keeps (u v : str) (c : N) :
  is_space c = false -> lstrip (u ++ c :: v) = lstrip u ++ c :: v.
Proof.
  intros Hc. induction u as [|d u IH]; simpl; [rewrite Hc; reflexivity|].
  destruct (is_space d); [exact IH | reflexivity].
Qed.

Lemma rstrip_app (l r : str) :
  l <> [] -> is_space (last l 0%N) = false -> rstrip (l ++ r) = l ++ rstrip r.
Proof.
  intros Hne Hl. destruct (exists_last Hne) as (a & c & ->).
  rewrite last_last in Hl. unfold rstrip.
  rewrite <- app_assoc. cbn [app]. rewrite rev_app_distr. cbn [rev].
  rewrite <- app_assoc. cbn [app]. rewrite (lstrip_keeps _ _ _ Hl).
  rewrite rev_app_distr. cbn [rev]. rewrite rev_involutive.
  rewrite <- app_assoc. reflexivity.
Qed.

Lemma before_qualifier_app (t r : str) :
  Forall (fun c => is_space c = false) t ->
  before_qualifier (t ++ r) = t ++ before_qualifier r.
Proof.
  induction 1 as [|c t Hc _ IH]; [reflexivity|].
  cbn [app before_qualifier]. rewrite Hc, IH. reflexivity.
Qed.

Lemma before_qualifier_cut (sp r : str) :
  sp <> [] -> white sp -> lstrip r = r -> qualifier_at r = true ->
  before_qualifier (sp ++ r) = [].
Proof.
  intros Hne Hw Hr Hq. destruct Hw as [|c sp Hc Hw]; [congruence|].
  cbn [app before_qualifier].
  rewrite Hc, (lstrip_white _ _ Hw), Hr, Hq. reflexivity.
Qed.

Lemma amount_facts (t : str) :
  amount t ->
  Forall kept t /\ last t 0%N <> 82%N /\ is_space (last t 0%N) = false /\
  Forall (fun c => is_space c = false) t /\
  exists c t', t = c :: t' /\ is_space c = false.
Proof.
  intros [Hne Ht].
  assert (Hall : Forall (fun c => kept c /\ c <> 82%N /\ is_space c = false) t).
  { eapply Forall_impl; [|exact Ht]. intros c Hc. exact (amount_char_kept c Hc). }
  assert (Hlast : In (last t 0%N) t).
  { destruct (exists_last Hne) as (a & c & ->). rewrite last_last.
    apply in_or_app. right. left. reflexivity. }
  rewrite Forall_forall in Hall.
  split; [apply Forall_forall; intros c Hc; apply (Hall c Hc)|].
  split; [apply (Hall _ Hlast)|].
  split; [apply (Hall _ Hlast)|].
  split; [apply Forall_forall; intros c Hc; apply (Hall c Hc)|].
  destruct t as [|c t']; [congruence|].
  exists c, t'. split; [reflexivity|]. apply (Hall c). left. reflexivity.
Qed.

Lemma price_text_amount (t : str) : amount t -> price_text t = t.
Proof.
  intros Ht. destruct (amount_facts t Ht) as (Hk & H82 & Hl & Hs & c & t' & E & Hc).
  unfold price_text, remove_currency.
  rewrite <- (app_nil_r t) at 1.
  rewrite remove_currency_aux_kept;
    [|assumption|assumption|discriminate|apply Ht].
  cbn [remove_currency_aux]. unfold strip.
  rewrite rstrip_app; [|apply Ht|assumption].
  change (rstrip []) with (@nil N). rewrite app_nil_r.
  assert (El : lstrip t = t) by (rewrite E; simpl; rewrite Hc; reflexivity).
  rewrite El. rewrite <- (app_nil_r t) at 1.
  rewrite before_qualifier_app by assumption. apply app_nil_r.
Qed.

(** X3. A currency symbol before the amount and a qualifier after it do
    not change the price: the symbol with the white space that follows it,
    and everything from the white space before a qualifier phrase (in any
    letter case) to the end of the text, are ignored. *)
Theorem format_price_ignores_symbol_and_qualifier
    (sym ws t sp rest : str) :
  In sym currency_symbols -> white ws -> amount t ->
  sp <> [] -> white sp -> qualifier_at rest = true ->
  _format_price (Some (sym ++ ws ++ t ++ sp ++ rest)) = _format_price (Some t).
Proof.
  intros Hsym Hws Ht Hsp Hw Hq.
  destruct (amount_facts t Ht) as (Hk & H82 & Hl & Hs & c & t' & E & Hc).
  apply existsb_exists in Hq as (q & Hin & Hq).
  apply ci_startswith_split in Hq as (m & tail & -> & Hm).
  destruct (matched_phrase q m Hin Hm) as (Hmk & Hm82 & Hml & cm & m' & Em & Hcm).
  assert (Hmne : m <> []) by (rewrite Em; discriminate).
  assert (Hpt : price_text (sym ++ ws ++ t ++ sp ++ m ++ tail) = t).
  { unfold price_text.
    assert (Hrc : remove_currency (sym ++ ws ++ t ++ sp ++ m ++ tail)
                  = (t ++ sp ++ m) ++ remove_currency_aux false tail).
    { assert (H1 : remove_currency (sym ++ ws ++ t ++ sp ++ m ++ tail)
                   = remove_currency_aux true ((t ++ sp ++ m) ++ tail)).
      { rewrite <- !app_assoc. rewrite <- (remove_currency_aux_white ws) by assumption.
        unfold currency_symbols in Hsym.
        destruct Hsym as [<- | [<- | [<- | [<- | []]]]]; reflexivity. }
      rewrite H1. apply remove_currency_aux_kept.
      - repeat (apply Forall_app; split); try assumption.
        eapply Forall_impl; [|exact Hw]. intros d Hd. apply (space_kept d Hd).
      - rewrite !last_app_r by (assumption || (intros F; apply app_eq_nil in F as [_ F]; congruence)).
        exact Hm82.
      - intros _. exists c, (t' ++ sp ++ m). split; [rewrite E; reflexivity | exact Hc].
      - rewrite E. discriminate. }
    rewrite Hrc. unfold strip.
    rewrite rstrip_app.
    - set (T := rstrip (remove_currency_aux false tail)).
      assert (El : lstrip ((t ++ sp ++ m) ++ T) = (t ++ sp ++ m) ++ T).
      { rewrite E. simpl. rewrite Hc. reflexivity. }
      rewrite El. rewrite <- !app_assoc.
      rewrite before_qualifier_app by assumption.
      rewrite before_qualifier_cut; [apply app_nil_r|assumption|assumption| |].
      + rewrite Em. simpl. rewrite Hcm. reflexivity.
      + apply existsb_exists. exists q. split; [exact Hin|].
        apply ci_startswith_app. exact Hm.
    - rewrite E. discriminate.
    - rewrite !last_app_r by (assumption || (intros F; apply app_eq_nil in F as [_ F]; congruence)).
      exact Hml. }
  rewrite !format_price_clean.
  - unfold clean_price. rewrite Hpt, (price_text_amount t Ht). reflexivity.
  - apply Ht.
  - unfold currency_symbols in Hsym.
    destruct Hsym as [<- | [<- | [<- | [<- | []]]]]; discriminate.
Qed.

Lemma format_price_ignores_symbol_and_qualifier_witness :
  _format_price (Some (of_ascii "R$" ++ of_ascii " " ++ of_ascii "1.234,56"
                         ++ of_ascii "  " ++ 192%N :: of_ascii " Vista no cart$o"))
  = _format_price (Some (of_ascii "1.234,56")).
Proof.
  apply format_price_ignores_symbol_and_qualifier.
  - left. reflexivity.
  - repeat constructor.
  - split; [discriminate | repeat constructor].
  - discriminate.
  - repeat constructor.
  - vm_compute. reflexivity.
Defined.

(** *** The sites are aggregated independently *)

Lemma group_by_site_ext (r1 r2 : list product) (todo : list str)
    (bd : Dict.dict (option product)) :
  (forall s, In s todo -> site_results r1 s = site_results r2 s) ->
  group_by_site r1 todo bd = group_by_site r2 todo bd.
Proof.
  revert bd. induction todo as [|s todo IH]; intros bd H; [reflexivity|].
  cbn [group_by_site]. rewrite (H s) by (left; reflexivity).
  destruct (site_results r2 s); apply IH; intros s' Hs'; apply H; right; exact Hs'.
Qed.

(** X4. The best deals depend on the candidates only through the list of
    candidates of each configured site: candidates labelled with any
    other site are ignored, and the order in which candidates of
    different sites are interleaved does not matter. *)
Theorem find_best_deals_by_site (results1 results2 : list product) :
  (forall s, In s sites -> site_results results1 s = site_results results2 s) ->
  _find_best_deals results1 = _find_best_deals results2.
Proof.
  intros H. unfold _find_best_deals.
  rewrite (group_by_site_ext results1 results2 sites _ H). reflexivity.
Qed.

Lemma find_best_deals_by_site_witness :
  _find_best_deals [deal_other; deal_b; deal_a] = _find_best_deals [deal_a; deal_b].
Proof.
  apply find_best_deals_by_site.
  intros s Hs. simpl in Hs.
  destruct Hs as [<- | [<- | [<- | []]]]; reflexivity.
Defined.

(** *** The overall best deal and the entry of its site *)

Lemma best_of_site (s : str) (x : product) (others : list product) :
  Forall (fun r => site r = s) (x :: others) -> site (best_of s x others) = s.
Proof.
  intros H. unfold best_of, set_cart_link. cbn [site].
  rewrite Forall_forall in H. apply H. apply min_from_In.
Qed.

Lemma site_results_site (results : list product) (s : str) :
  Forall (fun r => site r = s) (site_results results s).
Proof.
  apply Forall_forall. intros r Hr. unfold site_results in Hr.
  apply filter_In in Hr as [_ Hr]. apply str_eqb_eq. exact Hr.
Qed.

Lemma item_site (results : list product) (s : str) (d : product) :
  In s sites -> item (_find_best_deals results) s = Some d -> site d = s.
Proof.
  intros Hs. rewrite item_find_best_deals by exact Hs.
  pose proof (site_results_site results s) as Hall.
  destruct (site_results results s) as [|x others]; [discriminate|].
  intros H. injection H as <-. apply best_of_site. exact Hall.
Qed.

Lemma item_cart_link (results : list product) (s : str) (d : product) :
  In s sites -> item (_find_best_deals results) s = Some d ->
  cart_link d = Some (ProductScraper.get_cart_link (link d) s).
Proof.
  intros Hs. rewrite item_find_best_deals by exact Hs.
  destruct (site_results results s) as [|x others]; [discriminate|].
  intros H. injection H as <-. reflexivity.
Qed.

(** X5. In an aggregated result, the overall best deal repeats the entry
    of its own site: same name, price text, price, link and cart link;
    and its cart link is its link, or null when the link is empty or
    null. *)
Theorem best_overall_repeats_site_entry
    (scraped : list product) (query now : str) (out : output) (b : best_info) :
  _format_results (_find_best_deals scraped) query now = Ret out ->
  best_overall out = Some b ->
  In (best_site b) sites /\
  Dict.get (best_site b) (results out)
  = Some {| info_nome := best_nome b; info_preco := best_preco b;
            preco_valor := best_preco_valor b; info_link := best_link b;
            info_cart_link := best_cart_link b |} /\
  best_cart_link b = match best_link b with
                     | Some (_ :: _) => best_link b
                     | _ => None
                     end.
Proof.
  intros Hfmt Hb.
  pose proof (format_results_inv _ _ _ _ Hfmt) as [Hres _].
  unfold _format_results in Hfmt.
  pose proof (item_melhor_oferta scraped) as Hm.
  destruct (item (_find_best_deals scraped) melhor_oferta) as [best|].
  - destruct (valid_deals (_find_best_deals scraped)) as [|x others] eqn:Hv;
      [discriminate|].
    injection Hm as Hm.
    assert (Hin : In best (valid_deals (_find_best_deals scraped))).
    { rewrite Hv, Hm. apply min_from_In. }
    apply valid_deals_In in Hin as (s & Hs & Hi).
    pose proof (item_site _ _ _ Hs Hi) as Hsite.
    pose proof (item_cart_link _ _ _ Hs Hi) as Hcart.
    destruct (_calculate_savings _ _) as [econ|e]; [|discriminate].
    cbn [bind] in Hfmt. injection Hfmt as <-. cbn [best_overall] in Hb.
    injection Hb as <-. cbn [best_site best_nome best_preco best_preco_valor
                             best_link best_cart_link results].
    rewrite Hsite. split; [exact Hs|]. split.
    + cbn [results] in Hres. rewrite Hres.
      rewrite get_entries_site by exact Hs. rewrite Hi. reflexivity.
    + rewrite Hcart. unfold ProductScraper.get_cart_link.
      destruct (link best) as [[|c l]|]; reflexivity.
  - injection Hfmt as <-. discriminate.
Qed.

Lemma best_overall_repeats_site_entry_witness :
  exists out b,
    _format_results (_find_best_deals [deal_a; deal_b]) [] [] = Ret out /\
    best_overall out = Some b /\
    Dict.get (best_site b) (results out)
    = Some {| info_nome := best_nome b; info_preco := best_preco b;
              preco_valor := best_preco_valor b; info_link := best_link b;
              info_cart_link := best_cart_link b |}.
Proof.
  destruct (_format_results (_find_best_deals [deal_a; deal_b]) [] []) as [out|e] eqn:E;
    [|vm_compute in E; discriminate E].
  destruct (best_overall out) as [b|] eqn:Hb;
    [|exfalso; vm_compute in E; injection E as <-; discriminate Hb].
  exists out, b. split; [reflexivity|]. split; [exact Hb|].
  exact (proj1 (proj2 (best_overall_repeats_site_entry _ _ _ out b E Hb))).
Defined.

(** ** More on the search: lock, cache and trimming *)

Lemma lstrip_head (s : str) :
  lstrip s = [] \/ exists c r, lstrip s = c :: r /\ is_space c = false.
Proof.
  induction s as [|c s IH]; [left; reflexivity|]. simpl.
  destruct (is_space c) eqn:E; [exact IH|]. right. eauto.
Qed.

Lemma rstrip_last (s : str) :
  rstrip s = [] \/ exists a c, rstrip s = a ++ [c] /\ is_space c = false.
Proof.
  unfold rstrip. destruct (lstrip_head (rev s)) as [-> | (c & r & -> & Hc)];
    [left; reflexivity|].
  right. exists (rev r), c. split; [reflexivity | exact Hc].
Qed.

(** A trimmed text is empty or begins and ends with a character that is
    not white space. *)
Lemma strip_ends (s : str) :
  strip s = [] \/
  exists c r a d, strip s = c :: r /\ strip s = a ++ [d] /\
                  is_space c = false /\ is_space d = false.
Proof.
  unfold strip. destruct (rstrip_last s) as [-> | (a & d & -> & Hd)];
    [left; reflexivity|].
  right. rewrite (lstrip_keeps a [] d Hd).
  destruct (lstrip_head (a ++ [d])) as [E | (c & r & E & Hc)].
  - rewrite (lstrip_keeps a [] d Hd) in E. destruct (lstrip a); discriminate.
  - rewrite (lstrip_keeps a [] d Hd) in E. exists c, r, (lstrip a), d. auto.
Qed.

Lemma strip_idempotent (s : str) : strip (strip s) = strip s.
Proof.
  destruct (strip_ends s) as [-> | (c & r & a & d & E1 & E2 & Hc & Hd)];
    [reflexivity|].
  unfold strip at 1. unfold rstrip. rewrite E2 at 1.
  rewrite rev_app_distr. cbn [rev app lstrip]. rewrite Hd.
  change (rev (d :: rev a)) with (rev (rev a) ++ [d]).
  rewrite rev_involutive, <- E2, E1. cbn [lstrip]. rewrite Hc. reflexivity.
Qed.

Section SearchMore.

Variable lower : str -> str.

(** X6. Leading and trailing white space of the query never matters: a
    query and the same query trimmed are validated, looked up, fetched
    and stored alike. *)
Theorem search_ignores_surrounding_space (st : state) (e : env) (q : str) :
  search_products lower st e (Some (strip q)) = search_products lower st e (Some q).
Proof.
  unfold search_products.
  assert (Hb : blank (Some (strip q)) = blank (Some q)).
  { pose proof (strip_idempotent q) as Hi. unfold blank.
    destruct (strip q) as [|c l] eqn:E.
    - destruct q; reflexivity.
    - rewrite Hi. destruct q as [|c' q]; [discriminate E | reflexivity]. }
  rewrite Hb. change (default [] (Some (strip q))) with (strip q).
  rewrite strip_idempotent. reflexivity.
Qed.

(** X7. Whatever a search call does -- reject the query, serve the cache,
    refuse because of the lock, fail in the scraper, the formatter or the
    file write, or succeed -- the lock is as it was before the call and a
    lock that was taken is released last; a call that raises leaves the
    state as it was; and the only cache entry that can change is the one
    of the query's own key. *)
Theorem search_releases_lock_and_keeps_cache
    (st st' : state) (e : env) (query : option str)
    (r : py (output * option str)) (evs : list event) :
  search_products lower st e query = (r, st', evs) ->
  search_lock st' = search_lock st /\
  (In LockTaken evs -> exists evs0, evs = evs0 ++ [LockReleased]) /\
  (forall x, r = Raise x -> st' = st) /\
  (forall k, k <> cache_key_of lower (default [] query) ->
             search_cache st' !! k = search_cache st !! k).
Proof.
  unfold search_products.
  destruct (blank query).
  { intros H. injection H as <- <- <-.
    split; [reflexivity|]. split; [intros []|]. split; [reflexivity|reflexivity]. }
  destruct (cached st (current_time e) (lower (strip (default [] query)))).
  { intros H. injection H as <- <- <-.
    split; [reflexivity|]. split; [intros [H | []]; discriminate H|].
    split; [reflexivity|reflexivity]. }
  destruct (search_lock st) eqn:Hl.
  { intros H. injection H as <- <- <-.
    split; [exact Hl|]. split; [intros [H | [H | []]]; discriminate H|].
    split; [reflexivity|reflexivity]. }
  destruct (run_search e (strip (default [] query))) as [[[out path]|x] evs'].
  - intros H. injection H as <- <- <-. cbn [search_lock search_cache].
    split; [reflexivity|]. split; [|split].
    + intros _. exists ([CacheRead (lower (strip (default [] query))); LockTaken]
                        ++ evs' ++ [CacheWrite (lower (strip (default [] query)))]).
      rewrite <- !app_assoc. reflexivity.
    + intros x H. discriminate H.
    + intros k Hk. apply lookup_insert_ne. unfold cache_key_of in Hk. congruence.
  - intros H. injection H as <- <- <-.
    split; [exact Hl|]. split; [|split; [reflexivity|reflexivity]].
    intros _. exists ([CacheRead (lower (strip (default [] query))); LockTaken] ++ evs').
    rewrite <- !app_assoc. reflexivity.
Qed.

(** X8. A stored result is served for less than 300 seconds only: with
    the lock free, a search whose key has an entry aged 300 seconds or
    more by the clock reads the cache, takes the lock and fetches again;
    and when it succeeds its result replaces the entry, with the time of
    the call. *)
Theorem search_refetches_expired_entry
    (st : state) (e : env) (q : str) (stored : float) (old : output) :
  blank (Some q) = false ->
  search_lock st = false ->
  search_cache st !! cache_key_of lower q = Some (stored, old) ->
  flt (fsub (current_time e) stored) ttl = false ->
  exists r st' evs,
    search_products lower st e (Some q)
    = (r, st', [CacheRead (cache_key_of lower q); LockTaken; Fetch (strip q)] ++ evs) /\
    forall out path,
      r = Ret (out, Some path) ->
      search_cache st' !! cache_key_of lower q = Some (current_time e, out).
Proof.
  intros Hb Hl Hc Hold. unfold search_products. rewrite Hb.
  change (default [] (Some q)) with q. cbv zeta.
  fold (cache_key_of lower q). unfold cached. rewrite Hc, Hold, Hl.
  unfold run_search.
  destruct (search_all_sites e (strip q)) as [found|x].
  - destruct (_format_results _ _ _) as [formatted|x].
    + destruct (save_results e formatted) as [path|x].
      * eexists _, _, _. split; [reflexivity|].
        intros out p H. injection H as <- _. cbn [search_cache].
        apply lookup_insert_eq.
      * eexists _, _, _. split; [reflexivity|]. intros out p H. discriminate H.
    + eexists _, _, _. split; [reflexivity|]. intros out p H. discriminate H.
  - eexists _, _, _. split; [reflexivity|]. intros out p H. discriminate H.
Qed.

End SearchMore.

Lemma search_releases_lock_and_keeps_cache_witness :
  search_lock
    (snd (fst (search_products ascii_lower idle_state
                 (example_env (of_decimal 1000 0)) (Some (of_ascii "tv")))))
  = search_lock idle_state.
Proof.
  destruct (search_products ascii_lower idle_state
              (example_env (of_decimal 1000 0)) (Some (of_ascii "tv")))
    as [[r st'] evs] eqn:E.
  exact (proj1 (search_releases_lock_and_keeps_cache ascii_lower idle_state st'
                  (example_env (of_decimal 1000 0)) (Some (of_ascii "tv")) r evs E)).
Defined.

Lemma search_refetches_expired_entry_witness :
  exists r st' evs,
    search_products ascii_lower stale_state (example_env (of_decimal 1300 0))
      (Some (of_ascii "TV"))
    = (r, st', [CacheRead (of_ascii "tv"); LockTaken; Fetch (of_ascii "TV")] ++ evs).
Proof.
  destruct (search_refetches_expired_entry ascii_lower stale_state
              (example_env (of_decimal 1300 0)) (of_ascii "TV")
              (of_decimal 1000 0) example_output)
    as (r & st' & evs & H & _).
  - reflexivity.
  - reflexivity.
  - change (cache_key_of ascii_lower (of_ascii "TV")) with (of_ascii "tv").
    unfold stale_state. cbn [search_cache]. apply lookup_singleton_eq.
  - vm_compute. reflexivity.
  - exists r, st', evs. exact H.
Defined.

(** ** More on the link resolver *)

Lemma startswith_In (p s : str) (c : N) :
  startswith p s = true -> In c p -> In c s.
Proof.
  revert s. induction p as [|a p IH]; intros s H Hc; [destruct Hc|].
  destruct s as [|b s]; [discriminate|]. simpl in H.
  apply andb_true_iff in H as [Hab H]. apply N.eqb_eq in Hab. subst b.
  destruct Hc as [<- | Hc]; [left; reflexivity | right; exact (IH s H Hc)].
Qed.

Lemma contains_In (p s : str) (c : N) :
  contains p s = true -> In c p -> In c s.
Proof.
  intros H Hc. induction s as [|b s IH].
  - simpl in H. rewrite orb_false_r in H. destruct p; [destruct Hc | discriminate].
  - cbn [contains] in H. apply orb_true_iff in H as [H | H].
    + exact (startswith_In _ _ _ H Hc).
    + right. exact (IH H).
Qed.

Section LinkResolverMore.

Import ServerScraper.

Variable urlparse : str -> py ParseResult.
Variable parse_qs : str -> Dict.dict (list str).

(** X9. The redirect probe is made only for a link whose parsed path
    holds a question mark: when the path that [urlparse] gives for the
    link holds none, the resolver makes no request and its result does
    not depend on the network. *)
Theorem resolver_probe_needs_question_mark
    (head1 head2 : str -> py str) (google_link : str) :
  (forall parsed, urlparse google_link = Ret parsed -> ~ In 63%N (path parsed)) ->
  _extract_real_product_link urlparse parse_qs head1 (Some google_link)
  = _extract_real_product_link urlparse parse_qs head2 (Some google_link).
Proof.
  intros Hpath. unfold _extract_real_product_link.
  destruct google_link as [|c l]; [reflexivity|].
  destruct (urlparse (c :: l)) as [parsed|x] eqn:Hp; cbn [bind try_except];
    [|reflexivity].
  destruct (check_params urlparse _ _) as [[v|]|x]; cbn [bind try_except];
    try reflexivity.
  assert (E : forall head, follow_redirect urlparse head (c :: l) parsed
                           = Ret Fell_through).
  { intros head. unfold follow_redirect.
    destruct (contains (of_ascii "/url?") (path parsed)) eqn:E1.
    { exfalso. apply (Hpath parsed eq_refl).
      apply (contains_In _ _ _ E1). simpl. auto 10. }
    destruct (contains (of_ascii "/aclk?") (path parsed)) eqn:E2.
    { exfalso. apply (Hpath parsed eq_refl).
      apply (contains_In _ _ _ E2). simpl. auto 10. }
    rewrite andb_false_r. reflexivity. }
  rewrite !E. reflexivity.
Qed.

Variable head : str -> py str.

(** X10. The resolver answers every non-empty link with a link, and a
    link it returns in place of the original is external: [urlparse]
    accepts it and its host does not contain google.com. *)
Theorem resolver_returns_original_or_external (google_link : str) :
  google_link <> [] ->
  exists r,
    _extract_real_product_link urlparse parse_qs head (Some google_link) = Some r /\
    (r = google_link \/
     exists p, urlparse r = Ret p /\ contains google_com (netloc p) = false).
Proof.
  intros Hne. destruct google_link as [|c l]; [contradiction|].
  unfold _extract_real_product_link.
  destruct (urlparse (c :: l)) as [parsed|x] eqn:Hp; cbn [bind try_except];
    [|eauto].
  destruct (check_params urlparse _ _) as [[v|]|x] eqn:Hc; cbn [bind try_except];
    [| |eauto].
  - exists v. split; [reflexivity|]. right.
    apply check_params_returned in Hc as (pre & p & post & rest & _ & _ & Hext & _).
    destruct Hext as (_ & H). exact H.
  - destruct (follow_redirect urlparse head (c :: l) parsed) as [[final|]|x] eqn:Hf;
      cbn [try_except]; [| eauto | eauto].
    exists final. split; [reflexivity|]. right.
    apply follow_redirect_returned in Hf as (_ & _ & _ & _ & H). exact H.
Qed.

End LinkResolverMore.

Lemma resolver_probe_needs_question_mark_witness :
  ServerScraper._extract_real_product_link example_urlparse example_parse_qs
    example_head (Some example_shop)
  = ServerScraper._extract_real_product_link example_urlparse example_parse_qs
      (fun u => Ret example_link) (Some example_shop).
Proof.
  apply resolver_probe_needs_question_mark.
  intros parsed H. vm_compute in H. injection H as <-.
  vm_compute. intuition discriminate.
Defined.

Lemma resolver_returns_original_or_external_witness :
  exists r,
    ServerScraper._extract_real_product_link example_urlparse example_parse_qs
      example_head (Some example_link) = Some r /\
    (r = example_link \/
     exists p, example_urlparse r = Ret p /\
               contains ServerScraper.google_com (ServerScraper.netloc p) = false).
Proof.
  apply resolver_returns_original_or_external. discriminate.
Defined.

(** ** More on the extraction and the fetch *)

Section FetchMore.

Import ServerScraper.

Variable urlparse : str -> py ParseResult.
Variable parse_qs : str -> Dict.dict (list str).
Variable head : str -> py str.
Variable quote_plus : str -> py str.
Variable parse_html : str -> py Soup.

(** X11. A field of a container is the value, trimmed, of the first
    selector of its list that matches a tag with a non-empty value, the
    selectors before it matching nothing or a tag without value; with no
    such selector it is the default. *)
Theorem extract_field_first_value (e : Element) (selectors : list str)
    (default_value attribute r : option str) :
  _extract_field e selectors default_value attribute = Ret r ->
  (r = default_value /\ Forall (no_value e attribute) selectors) \/
  exists pre sel post tag v,
    selectors = pre ++ sel :: post /\
    Forall (no_value e attribute) pre /\
    select_one e sel = Ret (Some tag) /\
    read_value tag attribute = Some v /\
    r = Some v.
Proof.
  induction selectors as [|sel rest IH]; cbn [_extract_field].
  - intros H. injection H as <-. left. split; [reflexivity | constructor].
  - destruct (select_one e sel) as [[tag|]|x] eqn:Hs; cbn [bind]; [| |discriminate].
    + destruct (read_value tag attribute) as [v|] eqn:Hv.
      * intros H. injection H as <-. right.
        exists [], sel, rest, tag, v. repeat split; auto.
      * intros H. destruct (IH H) as [[-> Hall] | (pre & s & post & t & v & -> & Hpre & H1 & H2 & ->)].
        -- left. split; [reflexivity|]. constructor; [|exact Hall].
           right. exists tag. auto.
        -- right. exists (sel :: pre), s, post, t, v. repeat split; auto.
           constructor; [|exact Hpre]. right. exists tag. auto.
    + intros H. destruct (IH H) as [[-> Hall] | (pre & s & post & t & v & -> & Hpre & H1 & H2 & ->)].
      * left. split; [reflexivity|]. constructor; [|exact Hall]. left. exact Hs.
      * right. exists (sel :: pre), s, post, t, v. repeat split; auto.
        constructor; [|exact Hpre]. left. exact Hs.
Qed.

Lemma attempt_ext (get1 get2 : nat -> str -> py str) (k : nat) (url : str)
    (results : list product) (max_results : Z) :
  get1 k url = get2 k url ->
  attempt urlparse parse_qs head get1 parse_html k url results max_results
  = attempt urlparse parse_qs head get2 parse_html k url results max_results.
Proof. intros H. unfold attempt. rewrite H. reflexivity. Qed.

Lemma try_attempts_ext (get1 get2 : nat -> str -> py str) (n : nat) (url : str)
    (results : list product) (max_results : Z) :
  forall k,
    (forall i, (i < n)%nat -> get1 (k + i)%nat url = get2 (k + i)%nat url) ->
    try_attempts urlparse parse_qs head get1 parse_html n k url results max_results
    = try_attempts urlparse parse_qs head get2 parse_html n k url results max_results.
Proof.
  induction n as [|n IH]; intros k H; [reflexivity|].
  cbn [try_attempts].
  rewrite (attempt_ext get1 get2).
  - destruct (attempt _ _ _ get2 _ k url results max_results) as [[res| |]|x];
      cbn [bind]; try reflexivity.
    apply IH. intros i Hi. replace (S k + i)%nat with (k + S i)%nat by lia.
    apply H. lia.
  - specialize (H 0%nat ltac:(lia)). rewrite Nat.add_0_r in H. exact H.
Qed.

Lemma try_attempts_count (get : nat -> str -> py str) (n : nat) (url : str)
    (results : list product) (max_results : Z) :
  forall k r k',
    try_attempts urlparse parse_qs head get parse_html n k url results max_results
    = Ret (r, k') ->
    (k <= k' <= k + n)%nat.
Proof.
  induction n as [|n IH]; intros k r k'; cbn [try_attempts].
  - intros H. injection H as <- <-. lia.
  - destruct (attempt _ _ _ get _ k url results max_results) as [[res| |]|x];
      cbn [bind]; try discriminate.
    + intros H. injection H as <- <-. lia.
    + intros H. injection H as <- <-. lia.
    + intros H. apply IH in H. lia.
Qed.

Lemma try_urls_ext (get1 get2 : nat -> str -> py str) (urls : list str)
    (results : list product) (max_results : Z) :
  forall k,
    (forall i url, (k <= i < k + max_retries * List.length urls)%nat -> In url urls ->
                   get1 i url = get2 i url) ->
    try_urls urlparse parse_qs head get1 parse_html urls k results max_results
    = try_urls urlparse parse_qs head get2 parse_html urls k results max_results.
Proof.
  induction urls as [|url rest IH]; intros k H; [reflexivity|].
  cbn [try_urls]. cbn [List.length] in H.
  rewrite (try_attempts_ext get1 get2).
  - destruct (try_attempts _ _ _ get2 _ max_retries k url results max_results)
      as [[[res|] k']|x] eqn:E; cbn [bind]; try reflexivity.
    apply try_attempts_count in E. apply IH.
    intros i u Hi Hu. apply H; [lia | right; exact Hu].
  - intros i Hi. apply H; [lia | left; reflexivity].
Qed.

(** X12. The fetch of a query makes at most nine requests, all of them to
    its three targets: two networks that answer alike on the first nine
    requests to these targets give the same result. *)
Theorem fetch_makes_at_most_nine_requests
    (get1 get2 : nat -> str -> py str) (query : str) (max_results : Z) :
  (forall k url encoded,
     (k < 9)%nat -> quote_plus query = Ret encoded ->
     In url (urls_to_try encoded) -> get1 k url = get2 k url) ->
  search_google_shopping urlparse parse_qs head quote_plus get1 parse_html
    query max_results
  = search_google_shopping urlparse parse_qs head quote_plus get2 parse_html
      query max_results.
Proof.
  intros H. unfold search_google_shopping.
  destruct (quote_plus query) as [encoded|e] eqn:He; cbn [bind]; [|reflexivity].
  apply try_urls_ext.
  intros i url Hi Hu. apply (H i url encoded); [|reflexivity|exact Hu].
  unfold urls_to_try, max_retries in Hi. simpl in Hi. lia.
Qed.

Variable get : nat -> str -> py str.

(** X13. Every product that the fetch returns is a candidate the
    aggregation can take: its site is Google Shopping, its name is not
    the placeholder, it carries no cart link yet, and its price is a
    number that is neither zero nor negative. *)
Theorem fetched_products_are_candidates
    (query : str) (max_results : Z) (l : list product) :
  search_google_shopping urlparse parse_qs head quote_plus get parse_html
    query max_results = Ret l ->
  Forall (fun p => site p = ShoppingAPI.google_shopping /\
                   nome p <> nome_nao_encontrado /\
                   cart_link p = None /\
                   truthy (preco p) = true /\
                   non_negative (preco p)) l.
Proof.
  intros H. unfold search_google_shopping in H.
  destruct (quote_plus query) as [encoded|e]; cbn [bind] in H; [|discriminate].
  apply try_urls_result in H as [-> | (k & url & _ & Hat)]; [constructor|].
  apply attempt_return_inv in Hat as (html & soup & _ & _ & _ & Hext & _ & _).
  unfold _extract_google_shopping_products in Hext.
  destruct (find_containers soup container_selectors) as [[els|]|x];
    cbn [bind] in Hext; [| |discriminate]; injection Hext as <-; [|constructor].
  rewrite extract_loop_spec. cbn [app].
  apply Forall_forall. intros p Hp. apply In_firstn in Hp.
  unfold accepted in Hp. apply in_flat_map in Hp as (e & _ & Hp).
  destruct (extract_one urlparse parse_qs head e) as [[p'|]|x] eqn:He;
    [|destruct Hp|destruct Hp].
  destruct Hp as [<- | []].
  destruct (extract_one_accepts _ _ _ e p' He) as (Hn & _ & pt & _ & Hprice).
  apply server_price_non_negative in Hprice.
  unfold extract_one in He.
  destruct (_extract_field e name_selectors _ _) as [name|x]; cbn [bind] in He;
    [|discriminate].
  destruct (_extract_field e price_selectors _ _) as [price_text|x];
    cbn [bind] in He; [|discriminate].
  destruct (_extract_field e link_selectors _ _) as [lk|x]; cbn [bind] in He;
    [|discriminate].
  destruct (_format_price price_text) as [price|]; [|discriminate].
  destruct name as [n|]; [|discriminate].
  destruct (truthy price && negb (str_eqb n nome_nao_encontrado)) eqn:E;
    [|discriminate].
  apply andb_true_iff in E as [Et _].
  injection He as <-. cbn [site nome cart_link preco] in *.
  split; [reflexivity|]. split; [exact Hn|]. split; [reflexivity|].
  split; [exact Et | exact Hprice].
Qed.

End FetchMore.

(** ** The site searches of [ProductScraper] *)

Section SiteSearches.

Import ProductScraper.

Variable quote : str -> py str.
Variable browser : Browser.

Lemma offer_candidate (name : str) (text : str) (link : option str) (s : str)
    (p : product) :
  offer name (ProductScraper.format_price (Some text)) link s = Some p ->
  candidate_of s p.
Proof.
  unfold offer.
  destruct (ProductScraper.format_price (Some text)) as [x|] eqn:E; [|discriminate].
  destruct (truthy x) eqn:Ht; [|discriminate].
  intros H. injection H as <-. unfold candidate_of. cbn [site cart_link preco].
  split; [reflexivity|]. split; [reflexivity|]. split; [exact Ht|].
  exact (scraper_price_non_negative _ _ E).
Qed.

Lemma google_card_candidate (element : Card) (p : product) :
  google_card element = Ret (Some p) -> candidate_of google_shopping p.
Proof.
  unfold google_card.
  destruct (find_element element _) as [ne|x]; cbn [bind]; [|discriminate].
  destruct (text ne) as [name|x]; cbn [bind]; [|discriminate].
  destruct (find_element element _) as [pe|x]; cbn [bind]; [|discriminate].
  destruct (text pe) as [price_text|x]; cbn [bind]; [|discriminate].
  destruct (find_element element _) as [le|x]; cbn [bind]; [|discriminate].
  destruct (get_attribute le _) as [href|x]; cbn [bind]; [|discriminate].
  intros H. injection H as H. exact (offer_candidate _ _ _ _ _ H).
Qed.

Lemma kabum_card_candidate (element : Card) (p : product) :
  kabum_card element = Ret (Some p) -> candidate_of kabum p.
Proof.
  unfold kabum_card.
  destruct (find_element element _) as [ne|x]; cbn [bind]; [|discriminate].
  destruct (text ne) as [name|x]; cbn [bind]; [|discriminate].
  destruct (find_element element _) as [pe|x]; cbn [bind]; [|discriminate].
  destruct (text pe) as [price_text|x]; cbn [bind]; [|discriminate].
  destruct (find_element element _) as [le|x]; cbn [bind]; [|discriminate].
  destruct (get_attribute le _) as [href|x]; cbn [bind]; [|discriminate].
  intros H. injection H as H. exact (offer_candidate _ _ _ _ _ H).
Qed.

Lemma mercado_livre_card_candidate (element : Card) (p : product) :
  mercado_livre_card element = Ret (Some p) -> candidate_of mercado_livre p.
Proof.
  unfold mercado_livre_card.
  destruct (find_element element _) as [ne|x]; cbn [bind]; [|discriminate].
  destruct (text ne) as [name|x]; cbn [bind]; [|discriminate].
  destruct (find_element element _) as [pe|x]; cbn [bind]; [|discriminate].
  destruct (text pe) as [price_text|x]; cbn [bind]; [|discriminate].
  destruct (find_elements element _) as [[|ce more]|x]; cbn [bind]; [| |discriminate].
  - destruct (find_element element _) as [le|x]; cbn [bind]; [|discriminate].
    destruct (get_attribute le _) as [href|x]; cbn [bind]; [|discriminate].
    intros H. injection H as H. exact (offer_candidate _ _ _ _ _ H).
  - destruct (text ce) as [cents|x]; cbn [bind]; [|discriminate].
    destruct (find_element element _) as [le|x]; cbn [bind]; [|discriminate].
    destruct (get_attribute le _) as [href|x]; cbn [bind]; [|discriminate].
    intros H. injection H as H. exact (offer_candidate _ _ _ _ _ H).
Qed.

(** The products of the cards that yield one, in page order. *)
Lemma collect_spec (card : Card -> py (option product)) (elements : list Card) :
  forall results,
    collect card elements results
    = results ++ List.flat_map (fun e => match card e with
                                         | Ret (Some p) => [p]
                                         | _ => []
                                         end) elements.
Proof.
  induction elements as [|e rest IH]; intros results; cbn [collect List.flat_map].
  - rewrite app_nil_r. reflexivity.
  - destruct (card e) as [[p|]|x]; rewrite IH; [|reflexivity|reflexivity].
    rewrite <- app_assoc. reflexivity.
Qed.

Lemma flat_map_option_length {A B : Type} (f : A -> list B) (l : list A) :
  (forall a, List.length (f a) <= 1)%nat ->
  (List.length (List.flat_map f l) <= List.length l)%nat.
Proof.
  intros H. induction l as [|a l IH]; [simpl; lia|].
  cbn [List.flat_map]. rewrite length_app. specialize (H a). simpl. lia.
Qed.

Lemma search_page_result (self self' : scraper) (url selector : str)
    (card : Card -> py (option product)) (s : str) (l : list product) :
  (forall e p, card e = Ret (Some p) -> candidate_of s p) ->
  search_page browser self url selector card = (l, self') ->
  (List.length l <= 5)%nat /\ Forall (candidate_of s) l.
Proof.
  intros Hcard. unfold search_page.
  destruct (setup_selenium browser self) as [[u|x] sf].
  - destruct (load browser url selector) as [els|x]; intros H; injection H as <- _.
    + rewrite collect_spec. cbn [app]. split.
      * etransitivity; [apply flat_map_option_length|apply firstn_le_length].
        intros e. destruct (card e) as [[p|]|x]; simpl; lia.
      * apply Forall_forall. intros p Hp. apply in_flat_map in Hp as (e & _ & Hp).
        destruct (card e) as [[p'|]|x] eqn:E; [|destruct Hp|destruct Hp].
        destruct Hp as [<- | []]. exact (Hcard e p' E).
    + split; [simpl; lia | constructor].
  - intros H. injection H as <- _. split; [simpl; lia | constructor].
Qed.

(** X14. Each site search returns at most five candidates, all labelled
    with its own site, without cart link and with a price that is a
    number, neither zero nor negative; it raises only when the encoding
    of the query does, and then leaves the scraper as it was: a driver
    that cannot be created, a page that cannot be loaded and a card that
    cannot be read give fewer candidates, not an error. *)
Theorem site_search_results (self : scraper) (query : str) :
  let result_of (s : str) (out : py (list product) * scraper) : Prop :=
    match out with
    | (Ret l, _) => (List.length l <= 5)%nat /\ Forall (candidate_of s) l
    | (Raise x, self') => quote query = Raise x /\ self' = self
    end in
  result_of google_shopping (search_google_shopping quote browser self query) /\
  result_of mercado_livre (search_mercado_livre quote browser self query) /\
  result_of kabum (search_kabum quote browser self query).
Proof.
  intros result_of. subst result_of. cbv beta.
  unfold search_google_shopping, search_mercado_livre, search_kabum.
  destruct (quote query) as [encoded|x]; [|auto].
  split; [|split].
  - destruct (search_page _ _ _ _ google_card) as [l sf] eqn:E.
    exact (search_page_result _ _ _ _ _ _ _ google_card_candidate E).
  - destruct (search_page _ _ _ _ mercado_livre_card) as [l sf] eqn:E.
    exact (search_page_result _ _ _ _ _ _ _ mercado_livre_card_candidate E).
  - destruct (search_page _ _ _ _ kabum_card) as [l sf] eqn:E.
    exact (search_page_result _ _ _ _ _ _ _ kabum_card_candidate E).
Qed.

Lemma search_sites_result (self self' : scraper) (query : str)
    (r : py (list product)) :
  search_sites quote browser self query = (r, self') ->
  match r with
  | Raise x => quote query = Raise x
  | Ret l =>
      exists g m k,
        l = (g ++ m) ++ k /\
        (List.length g <= 5)%nat /\ Forall (candidate_of google_shopping) g /\
        (List.length m <= 5)%nat /\ Forall (candidate_of mercado_livre) m /\
        (List.length k <= 5)%nat /\ Forall (candidate_of kabum) k
  end.
Proof.
  unfold search_sites, search_google_shopping, search_mercado_livre, search_kabum.
  destruct (quote query) as [encoded|x]; [|intros H; injection H as <- _; reflexivity].
  destruct (search_page _ _ _ _ google_card) as [g s1] eqn:E1.
  destruct (search_page _ _ _ _ mercado_livre_card) as [m s2] eqn:E2.
  destruct (search_page _ _ _ _ kabum_card) as [k s3] eqn:E3.
  intros H. injection H as <- _.
  destruct (search_page_result _ _ _ _ _ _ _ google_card_candidate E1).
  destruct (search_page_result _ _ _ _ _ _ _ mercado_livre_card_candidate E2).
  destruct (search_page_result _ _ _ _ _ _ _ kabum_card_candidate E3).
  exists g, m, k. auto 10.
Qed.


Lemma search_all_sites_inv (self self' : scraper) (query : str)
    (r : py (list product)) :
  search_all_sites quote browser self query = (r, self') ->
  match r with
  | Raise x => quit browser = Raise x
  | Ret l =>
      driver self' = false /\
      exists g m k,
        l = (g ++ m) ++ k /\
        (List.length g <= 5)%nat /\ Forall (candidate_of google_shopping) g /\
        (List.length m <= 5)%nat /\ Forall (candidate_of mercado_livre) m /\
        (List.length k <= 5)%nat /\ Forall (candidate_of kabum) k
  end.
Proof.
  unfold search_all_sites.
  destruct (search_sites quote browser self query) as [r0 s0] eqn:E.
  apply search_sites_result in E.
  unfold close_driver.
  assert (Hl : exists l, try_except r0 (fun _ => Ret []) = Ret l /\
            exists g m k,
              l = (g ++ m) ++ k /\
              (List.length g <= 5)%nat /\ Forall (candidate_of google_shopping) g /\
              (List.length m <= 5)%nat /\ Forall (candidate_of mercado_livre) m /\
              (List.length k <= 5)%nat /\ Forall (candidate_of kabum) k).
  { destruct r0 as [l0|x]; cbn [try_except]; [exists l0; auto|].
    exists []. split; [reflexivity|]. exists [], [], []. cbn [app List.length].
    assert (H5 : (0 <= 5)%nat) by lia.
    assert (Hn : forall s, Forall (candidate_of s) []) by constructor.
    auto 15. }
  destruct Hl as (l & -> & Hl).
  destruct (driver s0) eqn:Hd.
  - destruct (quit browser) as [u|x] eqn:Hq; intros H; injection H as <- <-;
      [|reflexivity].
    split; [reflexivity | exact Hl].
  - intros H. injection H as <- <-. split; [exact Hd | exact Hl].
Qed.


End SiteSearches.

Section Pipeline.

Import ProductScraper.

Variable quote : str -> py str.
Variable browser : Browser.
Variable lower : str -> str.

Lemma candidates_truthy (s : str) (l : list product) :
  Forall (candidate_of s) l -> Forall (fun r => truthy (preco r) = true) l.
Proof. apply Forall_impl. intros p (_ & _ & H & _). exact H. Qed.

(** X16. With the scraper of the program, a search fails only in four
    ways: the query is blank ([ValueError]), another search holds the
    lock ([RuntimeError]), the driver cannot be closed, or the file
    cannot be written.  Nothing that the sites show makes it fail: the
    scraper keeps only candidates with a price other than zero, so that
    the percentage of the savings line never divides by zero. *)
Theorem search_fails_only_on_driver_or_file
    (st st' : state) (now : float) (now_text : str) (save : output -> py str)
    (query : option str) (x : exn) (evs : list event) :
  search_products lower st (scraper_env quote browser now now_text save) query
  = (Raise x, st', evs) ->
  (x = ValueError /\ blank query = true) \/
  (x = RuntimeError /\ search_lock st = true) \/
  quit browser = Raise x \/
  exists out, save out = Raise x.
Proof.
  unfold search_products.
  destruct (blank query); [intros H; injection H as <- _ _; auto|].
  destruct (cached st _ _); [discriminate|].
  destruct (search_lock st); [intros H; injection H as <- _ _; auto|].
  unfold run_search, scraper_env. cbn [ShoppingAPI.search_all_sites ShoppingAPI.now_text ShoppingAPI.save_results].
  destruct (ProductScraper.search_all_sites quote browser new_scraper
              (strip (default [] query))) as [r s'] eqn:E.
  apply search_all_sites_inv in E. cbn [fst].
  destruct r as [l|y].
  - destruct E as (_ & g & m & k & -> & _ & Hg & _ & Hm & _ & Hk).
    destruct (format_results_returns ((g ++ m) ++ k) (strip (default [] query)) now_text)
      as [out Hout].
    { repeat (apply Forall_app; split); eapply candidates_truthy; eassumption. }
    rewrite Hout. destruct (save out) as [path|y] eqn:Hs; [discriminate|].
    intros H. injection H as <- _ _. right. right. right. exists out. exact Hs.
  - intros H. injection H as <- _ _. auto.
Qed.

End Pipeline.


Lemma search_fails_only_on_driver_or_file_witness :
  (exists out, (fun _ : output => @Raise str OtherError) out = Raise OtherError) /\
  fst (fst (search_products ascii_lower idle_state
              (scraper_env example_quote example_browser (of_decimal 1000 0)
                 (of_ascii "2025-01-01 10:00:00") (fun _ => Raise OtherError))
              (Some (of_ascii "tv")))) = Raise OtherError.
Proof.
  destruct (search_products ascii_lower idle_state
              (scraper_env example_quote example_browser (of_decimal 1000 0)
                 (of_ascii "2025-01-01 10:00:00") (fun _ => Raise OtherError))
              (Some (of_ascii "tv"))) as [[r st'] evs] eqn:E.
  destruct r as [v|x].
  - exfalso. unfold search_products in E.
    change (blank (Some (of_ascii "tv"))) with false in E. cbv iota zeta in E.
    unfold cached, idle_state in E. cbn [search_cache search_lock] in E.
    rewrite lookup_empty in E.
    destruct (run_search _ _) as [[[o p]|y] evs'] eqn:R;
      [vm_compute in R; discriminate R | discriminate E].
  - destruct (search_fails_only_on_driver_or_file _ _ _ _ _ _ _ _ _ _ _ E)
      as [[_ H] | [[_ H] | [H | (out & H)]]]; try discriminate H.
    injection H as <-. split; [exists example_output; reflexivity | reflexivity].
Defined.

(** *** The price of a Mercado Livre card *)

Lemma filter_digit_or_comma (s : str) :
  ~ In comma s ->
  List.filter ProductScraper.digit_or_comma s = List.filter is_digit s.
Proof.
  intros H. apply filter_ext_in. intros c Hc. unfold ProductScraper.digit_or_comma.
  destruct (N.eqb_spec c comma) as [-> | _]; [contradiction|apply orb_false_r].
Qed.

Lemma replace_comma_digits (s : str) :
  replace_char comma period (List.filter is_digit s) = List.filter is_digit s.
Proof.
  apply replace_char_absent. intros H. apply filter_In in H as [_ H].
  rewrite comma_not_digit in H. discriminate.
Qed.

Lemma format_price_fraction_cents (fraction cents : str) :
  ~ In comma fraction -> ~ In comma cents ->
  ProductScraper.format_price (Some (fraction ++ comma :: cents))
  = float_of_str (List.filter is_digit fraction ++ period :: List.filter is_digit cents).
Proof.
  intros Hf Hc. unfold ProductScraper.format_price.
  destruct (fraction ++ comma :: cents) as [|c0 l0] eqn:E.
  { destruct fraction; discriminate E. }
  rewrite <- E. rewrite filter_app. cbn [List.filter].
  change (ProductScraper.digit_or_comma comma) with true. cbv iota.
  rewrite !filter_digit_or_comma by assumption.
  unfold replace_char. rewrite map_app. cbn [List.map].
  fold (replace_char comma period (List.filter is_digit fraction)).
  fold (replace_char comma period (List.filter is_digit cents)).
  rewrite !replace_comma_digits. reflexivity.
Qed.

Section MercadoLivre.

Import ProductScraper.

(** X17. A Mercado Livre card that shows its price as a fraction and
    cents, neither with a comma, gets the price whose integer part is
    made of the digits of the fraction -- its thousands periods are
    dropped -- and whose decimals are the digits of the first cents
    element: 1.234 and 56 give 1234.56. *)
Theorem mercado_livre_price_from_fraction_and_cents
    (element : Card) (ne pe ce le : WebElement) (more : list WebElement)
    (name fraction cents : str) (href : option str) :
  find_element element (of_ascii "h2.ui-search-item__title") = Ret ne ->
  text ne = Ret name ->
  find_element element (of_ascii "span.andes-money-amount__fraction") = Ret pe ->
  text pe = Ret fraction ->
  find_elements element (of_ascii "span.andes-money-amount__cents") = Ret (ce :: more) ->
  text ce = Ret cents ->
  find_element element (of_ascii "a.ui-search-link") = Ret le ->
  get_attribute le (of_ascii "href") = Ret href ->
  ~ In comma fraction -> ~ In comma cents ->
  mercado_livre_card element
  = Ret (offer name
           (float_of_str (List.filter is_digit fraction
                            ++ period :: List.filter is_digit cents))
           href mercado_livre).
Proof.
  intros H1 H2 H3 H4 H5 H6 H7 H8 Hf Hc. unfold mercado_livre_card.
  rewrite H1. cbn [bind]. rewrite H2. cbn [bind]. rewrite H3. cbn [bind].
  rewrite H4. cbn [bind]. rewrite H5. cbn [bind]. rewrite H6. cbn [bind].
  rewrite H7. cbn [bind]. rewrite H8. cbn [bind].
  rewrite format_price_fraction_cents by assumption. reflexivity.
Qed.

End MercadoLivre.

Lemma mercado_livre_price_from_fraction_and_cents_witness :
  option_map preco
    (match ProductScraper.mercado_livre_card
             (example_card (of_ascii "TV B") (of_ascii "1.234") [of_ascii "56"]
                (of_ascii "https://b.example/tv")) with
     | Ret p => p
     | Raise _ => None
     end) = Some (of_decimal 123456 2).
Proof.
  rewrite (mercado_livre_price_from_fraction_and_cents
             (example_card (of_ascii "TV B") (of_ascii "1.234") [of_ascii "56"]
                (of_ascii "https://b.example/tv"))
             (example_web_element (of_ascii "TV B") None)
             (example_web_element (of_ascii "1.234") None)
             (example_web_element (of_ascii "56") None)
             (example_web_element [] (Some (of_ascii "https://b.example/tv")))
             [] (of_ascii "TV B") (of_ascii "1.234") (of_ascii "56")
             (Some (of_ascii "https://b.example/tv")));
    try reflexivity.
  - vm_compute. intuition discriminate.
  - vm_compute. intuition discriminate.
Defined.

(** ** Result files *)

Lemma startswith_app (p s : str) : startswith p (p ++ s) = true.
Proof.
  induction p as [|c p IH]; [destruct s; reflexivity|].
  simpl. rewrite N.eqb_refl. exact IH.
Qed.

Lemma endswith_app (suffix s : str) : endswith suffix (s ++ suffix) = true.
Proof. unfold endswith. rewrite rev_app_distr. apply startswith_app. Qed.

Lemma insert_reverse_perm {A : Type} (x : float * A) (l : list (float * A)) :
  Permutation (x :: l) (insert_reverse x l).
Proof.
  induction l as [|y l IH]; [reflexivity|]. cbn [insert_reverse].
  destruct (flt (fst x) (fst y)); [|reflexivity].
  rewrite perm_swap. apply perm_skip. exact IH.
Qed.

Lemma sort_reverse_perm {A : Type} (l : list (float * A)) :
  Permutation l (sort_reverse l).
Proof.
  induction l as [|x l IH]; [reflexivity|]. cbn [sort_reverse fold_right].
  rewrite <- insert_reverse_perm. apply perm_skip. exact IH.
Qed.

Lemma insert_reverse_sorted {A : Type} (x : float * A) (l : list (float * A)) :
  Forall (fun y => is_nan (fst y) = false) (x :: l) ->
  StronglySorted not_older l ->
  StronglySorted not_older (insert_reverse x l).
Proof.
  intros Hn Hs. induction Hs as [|y l Hs IH Hy]; cbn [insert_reverse].
  - constructor; constructor.
  - inversion Hn as [|? ? Hx Hl]; subst. inversion Hl as [|? ? Hyn Hl']; subst.
    destruct (flt (fst x) (fst y)) eqn:E.
    + constructor.
      * apply IH. constructor; assumption.
      * apply (Permutation_Forall (insert_reverse_perm x l)).
        constructor; [|exact Hy]. unfold not_older. apply flt_asym. exact E.
    + constructor; [constructor; assumption|].
      constructor; [exact E|].
      eapply Forall_impl; [|exact Hy]. intros z Hz. unfold not_older in *.
      apply (fle_trans (fst z) (fst y) (fst x)); assumption.
Qed.

Lemma sort_reverse_sorted {A : Type} (l : list (float * A)) :
  Forall (fun y => is_nan (fst y) = false) l ->
  StronglySorted not_older (sort_reverse l).
Proof.
  induction 1 as [|x l Hx Hl IH]; [constructor|].
  cbn [sort_reverse fold_right]. apply insert_reverse_sorted; [|exact IH].
  constructor; [exact Hx|].
  apply (Permutation_Forall (sort_reverse_perm l)). exact Hl.
Qed.

Lemma firstn_strongly_sorted {A : Type} (R : A -> A -> Prop) (n : nat) (l : list A) :
  StronglySorted R l -> StronglySorted R (firstn n l).
Proof.
  intros H. revert n. induction H as [|x l Hs IH Hx]; intros n.
  - rewrite firstn_nil. constructor.
  - destruct n as [|n]; [constructor|]. cbn [firstn]. constructor; [apply IH|].
    apply Forall_forall. intros y Hy. rewrite Forall_forall in Hx. apply Hx.
    rewrite <- (firstn_skipn n l). apply in_or_app. left. exact Hy.
Qed.

Section FilesFacts.

Context {J : Type}.
Variable lower : str -> str.
Variable join : str -> str -> str.
Variable stamp : str.
Variable write : str -> output -> py unit.
Variable listdir : str -> py (list str).
Variable getmtime : str -> py float.
Variable load : str -> py (Dict.dict J).
Variable results_dir : str.

Lemma mtimes_spec (files : list str) (keyed : list (float * str)) :
  mtimes join getmtime results_dir files = Ret keyed ->
  List.map snd keyed = files /\
  Forall (fun kf => getmtime (join results_dir (snd kf)) = Ret (fst kf)) keyed.
Proof.
  revert keyed. induction files as [|x rest IH]; intros keyed; cbn [mtimes].
  - intros H. injection H as <-. split; [reflexivity | constructor].
  - destruct (getmtime (join results_dir x)) as [t|e] eqn:Ht; cbn [bind];
      [|discriminate].
    destruct (mtimes join getmtime results_dir rest) as [k|e]; cbn [bind];
      [|discriminate].
    intros H. injection H as <-. destruct (IH k eq_refl) as [H1 H2].
    split; [simpl; rewrite H1; reflexivity|]. constructor; [exact Ht | exact H2].
Qed.

Lemma mtimes_returns (files : list str) :
  (forall x, In x files -> exists t, getmtime (join results_dir x) = Ret t) ->
  exists keyed, mtimes join getmtime results_dir files = Ret keyed.
Proof.
  induction files as [|x rest IH]; intros H; cbn [mtimes]; [eauto|].
  destruct (H x (or_introl eq_refl)) as [t Ht]. rewrite Ht. cbn [bind].
  destruct IH as [k Hk]; [intros y Hy; apply H; right; exact Hy|].
  rewrite Hk. cbn [bind]. eauto.
Qed.

Lemma read_entry_file (file : str) (entry : recent_search J) :
  read_entry join load results_dir file = Ret entry -> recent_file entry = file.
Proof.
  unfold read_entry. destruct (load _) as [data|e]; cbn [bind]; [|discriminate].
  destruct (Dict.get _ data); [|discriminate].
  destruct (Dict.get _ data); [|discriminate].
  intros H. injection H as <-. reflexivity.
Qed.

Lemma read_entries_spec (files : list str) :
  forall acc,
    read_entries join load results_dir files acc
    = acc ++ List.flat_map (fun f => match read_entry join load results_dir f with
                                     | Ret entry => [entry]
                                     | Raise _ => []
                                     end) files.
Proof.
  induction files as [|f rest IH]; intros acc; cbn [read_entries List.flat_map].
  - rewrite app_nil_r. reflexivity.
  - destruct (read_entry join load results_dir f) as [entry|e]; rewrite IH;
      [|reflexivity].
    rewrite <- app_assoc. reflexivity.
Qed.

Lemma read_entries_sorted (keyed : list (float * str)) :
  Forall (fun kf => getmtime (join results_dir (snd kf)) = Ret (fst kf)) keyed ->
  StronglySorted not_older keyed ->
  StronglySorted (listed_before join getmtime results_dir)
    (List.flat_map (fun f => match read_entry join load results_dir f with
                             | Ret entry => [entry]
                             | Raise _ => []
                             end) (List.map snd keyed)).
Proof.
  intros Hk Hs. induction Hs as [|[t f] l Hs IH Hx]; [constructor|].
  inversion Hk as [|? ? Hf Hl]; subst. cbn [List.map List.flat_map snd].
  cbn [fst snd] in Hf.
  destruct (read_entry join load results_dir f) as [entry|e] eqn:E;
    cbn [app]; [|exact (IH Hl)].
  constructor; [exact (IH Hl)|].
  apply Forall_forall. intros b Hb.
  apply in_flat_map in Hb as (f' & Hf' & Hb).
  destruct (read_entry join load results_dir f') as [entry'|e'] eqn:E';
    [|destruct Hb].
  destruct Hb as [<- | []].
  apply in_map_iff in Hf' as ([t' f''] & Heq & Hin). cbn [snd] in Heq. subst f''.
  rewrite Forall_forall in Hl, Hx.
  exists t, t'. rewrite (read_entry_file _ _ E), (read_entry_file _ _ E').
  split; [exact Hf|]. split; [exact (Hl _ Hin) | exact (Hx _ Hin)].
Qed.

(** X18. The list of recent searches never fails and, for a limit that
    is not negative, holds at most [limit] entries, each one read from a
    file of the results directory whose name ends in .json, with the
    query and the timestamp that the file records; they come newest
    first by modification time (the times being numbers), files that
    cannot be read or lack one of the two members being left out. *)
Theorem recent_searches_newest_first (limit : Z) :
  0 <= limit ->
  (forall f t, getmtime f = Ret t -> is_nan t = false) ->
  let recent := get_recent_searches join listdir getmtime load results_dir limit in
  (List.length recent <= Z.to_nat limit)%nat /\
  (forall entry, In entry recent ->
     endswith (of_ascii ".json") (recent_file entry) = true /\
     (exists names, listdir results_dir = Ret names /\ In (recent_file entry) names) /\
     read_entry join load results_dir (recent_file entry) = Ret entry) /\
  StronglySorted (listed_before join getmtime results_dir) recent.
Proof.
  intros Hlimit Hnum recent. subst recent. unfold get_recent_searches.
  destruct (listdir results_dir) as [names|e] eqn:Hdir; cbn [bind];
    [|split; [simpl; lia | split; [intros ? [] | constructor]]].
  destruct (mtimes join getmtime results_dir _) as [keyed|e] eqn:Hm; cbn [bind];
    [|split; [simpl; lia | split; [intros ? [] | constructor]]].
  apply mtimes_spec in Hm as [Hfiles Hkeyed].
  unfold ServerScraper.slice_to.
  replace (0 <=? limit) with true by (symmetry; apply Z.leb_le; exact Hlimit).
  rewrite read_entries_spec. cbn [app]. rewrite List.firstn_map.
  set (top := firstn (Z.to_nat limit) (sort_reverse keyed)).
  assert (Hsub : forall kf, In kf top -> In kf keyed).
  { intros kf H. apply In_firstn in H.
    apply (Permutation_in _ (Permutation_sym (sort_reverse_perm keyed))). exact H. }
  split; [|split].
  - etransitivity; [apply flat_map_option_length|].
    + intros f. destruct (read_entry join load results_dir f); simpl; lia.
    + rewrite length_map. subst top. apply firstn_le_length.
  - intros entry H. apply in_flat_map in H as (f & Hf & H).
    destruct (read_entry join load results_dir f) as [entry'|e] eqn:E; [|destruct H].
    destruct H as [<- | []]. rewrite (read_entry_file _ _ E).
    apply in_map_iff in Hf as (kf & <- & Hin). apply Hsub in Hin.
    assert (Hin' : In (snd kf) (List.map snd keyed)) by (apply in_map; exact Hin).
    rewrite Hfiles in Hin'. apply filter_In in Hin' as [Hn He].
    split; [exact He|]. split; [exists names; auto | exact E].
  - apply read_entries_sorted.
    + apply Forall_forall. intros kf H. rewrite Forall_forall in Hkeyed.
      apply Hkeyed. apply Hsub. exact H.
    + subst top. apply firstn_strongly_sorted. apply sort_reverse_sorted.
      eapply Forall_impl; [|exact Hkeyed]. intros kf H. exact (Hnum _ _ H).
Qed.

(** X19. A saved search shows up among the recent ones: the result is
    written under a name made of the first thirty characters of the
    lower-cased query, spaces replaced, the time stamp and .json; when
    the directory then lists that name and holds no more than [limit]
    result files, all with a readable modification time, and the file
    reads back with a query and a timestamp, the list of recent searches
    has its entry. *)
Theorem saved_search_is_listed
    (formatted : output) (filepath : str) (names : list str)
    (data : Dict.dict J) (q t : J) (limit : Z) :
  _save_results lower join stamp write results_dir formatted = Ret filepath ->
  listdir results_dir = Ret names ->
  In (result_filename lower stamp (out_query formatted)) names ->
  (forall f, In f names -> exists m, getmtime (join results_dir f) = Ret m) ->
  load filepath = Ret data ->
  Dict.get (of_ascii "query") data = Some q ->
  Dict.get (of_ascii "timestamp") data = Some t ->
  Z.of_nat (List.length (List.filter (endswith (of_ascii ".json")) names)) <= limit ->
  filepath = join results_dir (result_filename lower stamp (out_query formatted)) /\
  In {| recent_query := q; recent_timestamp := t;
        recent_file := result_filename lower stamp (out_query formatted) |}
     (get_recent_searches join listdir getmtime load results_dir limit).
Proof.
  intros Hsave Hdir Hin Htimes Hload Hq Ht Hlimit.
  set (name := result_filename lower stamp (out_query formatted)) in *.
  assert (Hpath : filepath = join results_dir name).
  { unfold _save_results in Hsave. fold name in Hsave.
    destruct (write _ _); cbn [bind] in Hsave; [|discriminate].
    injection Hsave as <-. reflexivity. }
  split; [exact Hpath|]. subst filepath.
  unfold get_recent_searches. rewrite Hdir. cbn [bind].
  set (files := List.filter (endswith (of_ascii ".json")) names) in *.
  assert (Hname : In name files).
  { apply filter_In. split; [exact Hin|]. subst name. unfold result_filename.
    change (query_slug lower (out_query formatted) ++ 95%N :: stamp ++ of_ascii ".json")
      with (query_slug lower (out_query formatted) ++ (95%N :: stamp) ++ of_ascii ".json").
    rewrite app_assoc. apply endswith_app. }
  destruct (mtimes_returns files) as [keyed Hk].
  { intros x Hx. apply Htimes. apply filter_In in Hx as [Hx _]. exact Hx. }
  rewrite Hk. cbn [bind]. apply mtimes_spec in Hk as [Hfiles _].
  unfold ServerScraper.slice_to.
  replace (0 <=? limit) with true by (symmetry; apply Z.leb_le; lia).
  rewrite firstn_all2.
  - rewrite read_entries_spec. cbn [app]. apply in_flat_map. exists name. split.
    + rewrite <- Hfiles in Hname.
      apply (Permutation_in _ (Permutation_map snd (sort_reverse_perm keyed))).
      exact Hname.
    + unfold read_entry. rewrite Hload. cbn [bind]. rewrite Hq, Ht.
      left. reflexivity.
  - rewrite length_map, <- (Permutation_length (sort_reverse_perm keyed)).
    rewrite <- (length_map snd), Hfiles. lia.
Qed.

End FilesFacts.

(** ** Examples for the extraction, the fetch and the result files *)

Lemma extract_field_first_value_witness :
  let e := example_element (Some (of_ascii " TV A ")) None example_link in
  (Some (of_ascii "TV A") = Some ServerScraper.nome_nao_encontrado /\
   Forall (no_value e None) ServerScraper.name_selectors) \/
  exists pre sel post tag v,
    ServerScraper.name_selectors = pre ++ sel :: post /\
    Forall (no_value e None) pre /\
    ServerScraper.select_one e sel = Ret (Some tag) /\
    ServerScraper.read_value tag None = Some v /\
    Some (of_ascii "TV A") = Some v.
Proof.
  intros e.
  apply (extract_field_first_value e ServerScraper.name_selectors
           (Some ServerScraper.nome_nao_encontrado) None (Some (of_ascii "TV A"))).
  vm_compute. reflexivity.
Defined.

Lemma fetch_makes_at_most_nine_requests_witness :
  ServerScraper.search_google_shopping example_urlparse example_parse_qs
    example_head example_quote_plus example_get example_parse_html
    (of_ascii "tv") 5
  = ServerScraper.search_google_shopping example_urlparse example_parse_qs
      example_head example_quote_plus example_get_nine example_parse_html
      (of_ascii "tv") 5.
Proof.
  apply fetch_makes_at_most_nine_requests.
  intros k url encoded Hk _ _. unfold example_get_nine.
  destruct (Nat.ltb_spec k 9); [reflexivity | lia].
Defined.

Lemma fetched_products_are_candidates_witness :
  exists l,
    ServerScraper.search_google_shopping example_urlparse example_parse_qs
      example_head example_quote_plus example_get example_parse_html
      (of_ascii "tv") 5 = Ret l /\
    l <> [] /\
    Forall (fun p => site p = google_shopping /\
                     nome p <> ServerScraper.nome_nao_encontrado /\
                     cart_link p = None /\
                     truthy (preco p) = true /\
                     non_negative (preco p)) l.
Proof.
  destruct (ServerScraper.search_google_shopping example_urlparse example_parse_qs
              example_head example_quote_plus example_get example_parse_html
              (of_ascii "tv") 5) as [l|x] eqn:E;
    [|vm_compute in E; discriminate E].
  exists l. split; [reflexivity|]. split.
  - vm_compute in E. injection E as <-. discriminate.
  - exact (fetched_products_are_candidates _ _ _ _ _ _ _ _ _ E).
Defined.

Lemma recent_searches_newest_first_witness :
  let recent :=
    get_recent_searches example_join example_listdir example_getmtime
      example_load example_dir 2 in
  (List.length recent <= Z.to_nat 2)%nat /\
  (forall entry, In entry recent ->
     endswith (of_ascii ".json") (recent_file entry) = true /\
     (exists names, example_listdir example_dir = Ret names /\
                    In (recent_file entry) names) /\
     read_entry example_join example_load example_dir (recent_file entry)
     = Ret entry) /\
  StronglySorted (listed_before example_join example_getmtime example_dir) recent.
Proof.
  apply recent_searches_newest_first; [lia|].
  intros f t H. unfold example_getmtime in H.
  destruct (str_eqb f _); injection H as <-; reflexivity.
Defined.

Lemma saved_search_is_listed_witness :
  In {| recent_query := of_ascii "tv";
        recent_timestamp := of_ascii "2025-01-01 10:00:00";
        recent_file := example_saved |}
     (get_recent_searches example_join example_listdir example_getmtime
        example_load example_dir 10).
Proof.
  refine (proj2 (saved_search_is_listed ascii_lower example_join example_stamp
                   example_write example_listdir example_getmtime example_load
                   example_dir example_output
                   (example_join example_dir example_saved)
                   [of_ascii "notes.txt"; of_ascii "radio_20241231_090000.json";
                    example_saved; of_ascii "broken.json"]
                   [(of_ascii "query", of_ascii "tv");
                    (of_ascii "timestamp", of_ascii "2025-01-01 10:00:00")]
                   (of_ascii "tv") (of_ascii "2025-01-01 10:00:00") 10
                   _ _ _ _ _ _ _ _)).
  - vm_compute. reflexivity.
  - reflexivity.
  - right. right. left. vm_compute. reflexivity.
  - intros f _. unfold example_getmtime. destruct (str_eqb _ _); eauto.
  - reflexivity.
  - reflexivity.
  - reflexivity.
  - vm_compute. discriminate.
Defined.

(** *** Texts that the scraper's normalizer reads *)

Lemma digits_value_total (s : str) :
  Forall (fun c => is_digit c = true) s ->
  forall acc, exists n, digits_value acc s = Some n.
Proof.
  induction 1 as [|c s Hc _ IH]; intros acc; cbn [digits_value]; [eauto|].
  unfold is_digit in Hc. destruct (digit_value c) as [d|]; [|discriminate].
  apply IH.
Qed.

Lemma count_char_app (c : N) (a b : str) :
  count_char c (a ++ b) = (count_char c a + count_char c b)%nat.
Proof. unfold count_char. rewrite filter_app, length_app. reflexivity. Qed.

(** A text of digits and periods with a digit and at most one period is
    a number for [float]. *)
Lemma float_of_str_defined (t : str) :
  Forall (fun c => is_digit c = true \/ c = period) t ->
  (exists c, In c t /\ is_digit c = true) ->
  (count_char period t <= 1)%nat ->
  exists x, float_of_str t = Some x.
Proof.
  intros Hall (c & Hc & Hd) Hcount. unfold float_of_str.
  destruct (split_period t) as [ip r] eqn:E.
  apply split_period_spec in E as [Hip Hs].
  assert (Hdigits : forall l, (forall x, In x l -> In x t) -> ~ In period l ->
                              Forall (fun x => is_digit x = true) l).
  { intros l Hsub Hn. apply Forall_forall. intros x Hx.
    rewrite Forall_forall in Hall. destruct (Hall x (Hsub x Hx)) as [H | ->];
      [exact H | contradiction]. }
  destruct r as [fp|].
  - subst t.
    assert (Hfp : ~ In period fp).
    { rewrite count_char_app in Hcount. unfold count_char at 2 in Hcount.
      cbn [List.filter] in Hcount. rewrite N.eqb_refl in Hcount.
      cbn [List.length] in Hcount. fold (count_char period fp) in Hcount.
      apply count_char_zero. lia. }
    assert (Hd1 : Forall (fun x => is_digit x = true) (ip ++ fp)).
    { apply Forall_app. split; apply Hdigits; try assumption;
        intros x Hx; apply in_or_app; [left | right; right]; exact Hx. }
    destruct (digits_value_total _ Hd1 0%N) as [n Hn].
    destruct (ip ++ fp) as [|c0 l0] eqn:El.
    + exfalso. apply app_eq_nil in El as [-> ->].
      destruct Hc as [<- | []]. rewrite period_not_digit in Hd. discriminate.
    + rewrite Hn. cbn [option_map]. eauto.
  - subst t.
    assert (Hd1 : Forall (fun x => is_digit x = true) ip).
    { apply Hdigits; [auto | exact Hip]. }
    destruct (digits_value_total _ Hd1 0%N) as [n Hn].
    destruct ip as [|c0 l0]; [destruct Hc|].
    rewrite Hn. cbn [option_map]. eauto.
Qed.

(** X20. The scraper's normalizer reads a price from a text exactly when
    the text holds a decimal digit and at most one comma; every other
    character, periods included, is ignored. *)
Theorem scraper_price_defined_iff (s : str) :
  (exists x, ProductScraper.format_price (Some s) = Some x) <->
  (exists c, In c s /\ is_digit c = true) /\ (count_char comma s <= 1)%nat.
Proof.
  set (kept := List.filter ProductScraper.digit_or_comma s).
  assert (Hk : ~ In period kept).
  { intros H. apply filter_In in H as [_ H]. discriminate H. }
  assert (Hcount : count_char period (replace_char comma period kept)
                   = count_char comma s).
  { rewrite count_replace_char by (discriminate || exact Hk).
    apply count_filter_keep. reflexivity. }
  assert (Hfp : ProductScraper.format_price (Some s)
                = float_of_str (replace_char comma period kept)).
  { destruct s; reflexivity. }
  rewrite Hfp. split.
  - intros [x Hx]. apply float_of_str_some in Hx as [(c & Hc & Hd) Hp].
    rewrite Hcount in Hp. split; [|exact Hp].
    exists c. split; [|exact Hd].
    unfold replace_char in Hc. apply in_map_iff in Hc as (y & Hy & Hin).
    destruct (y =? comma)%N.
    + rewrite <- Hy, period_not_digit in Hd. discriminate.
    + rewrite <- Hy. apply filter_In in Hin as [Hin _]. exact Hin.
  - intros [(c & Hc & Hd) Hp]. apply float_of_str_defined.
    + apply Forall_forall. intros y Hy. unfold replace_char in Hy.
      apply in_map_iff in Hy as (z & Hz & Hin).
      apply filter_In in Hin as [_ Hin].
      unfold ProductScraper.digit_or_comma in Hin.
      destruct (z =? comma)%N; [right; auto|].
      rewrite orb_false_r in Hin. left. rewrite <- Hz. exact Hin.
    + exists c. split; [|exact Hd]. unfold replace_char. apply in_map_iff.
      exists c. split.
      * destruct (N.eqb_spec c comma) as [-> | _]; [|reflexivity].
        rewrite comma_not_digit in Hd. discriminate.
      * apply filter_In. split; [exact Hc|].
        unfold ProductScraper.digit_or_comma. rewrite Hd. reflexivity.
    + rewrite Hcount. exact Hp.
Qed.
